(** * Webhook processor: ingress, rate limiter, storage adapter and worker

    A shallow embedding of the Go sources of the webhook processor
    (api/router/router.go, api/handlers/{ratelimit,webhook}.go,
    internal/models/webhook.go, internal/mapping, internal/queue,
    internal/storage/mongodb.go, internal/worker/worker.go) together with
    the properties stated about them.

    Conventions.
    - Go [int], [int64] and [time.Duration] are [Z] with two's-complement
      wrap-around written out ([wrap64]).
    - [time.Time] is the number of nanoseconds since the Unix epoch, in UTC.
    - Go maps are stdpp [gmap]s; a [*T] stored in a map is modelled by
      writing the updated value back under its key.
    - Stateful code runs in a small state monad [M S]; the process clock is
      an oracle [nat -> Time] read by successive calls of [time.Now].
    - Logging and Prometheus counters do not influence control flow and
      are left out. *)

From Stdlib Require Import ZArith String Ascii List Bool Lia.
From Stdlib Require Import Floats.SpecFloat.
From Stdlib Require Import Numbers.DecimalString Numbers.DecimalPos.
From stdpp Require Import gmap strings list fin_maps.

Set Warnings "-register-all".
Local Open Scope string_scope.
Local Open Scope Z_scope.

(** ** Machine integers and time *)

Definition wrap64 (x : Z) : Z := (x + 2 ^ 63) mod 2 ^ 64 - 2 ^ 63.

Definition minInt64 : Z := - 2 ^ 63.
Definition maxInt64 : Z := 2 ^ 63 - 1.

(** [x++] on a Go [int] (64-bit on the supported platforms). *)
Definition incr (x : Z) : Z := wrap64 (x + 1).

Definition Time := Z.
Definition Duration := Z.

Definition Nanosecond : Duration := 1.
Definition Second : Duration := 1000000000 * Nanosecond.
Definition Hour : Duration := 3600 * Second.

(** [Time.Sub]: the difference, saturated to the range of [Duration]. *)
Definition Sub (t u : Time) : Duration :=
  let d := t - u in
  if d <? minInt64 then minInt64
  else if maxInt64 <? d then maxInt64
  else d.

(** UTC midnight of the day that contains [t]. *)
Definition utcMidnight (t : Time) : Time := t - t mod (24 * Hour).

(** ** A state monad *)

Definition M (S A : Type) : Type := S -> A * S.

Definition ret {S A} (a : A) : M S A := fun s => (a, s).
Definition bind {S A B} (c : M S A) (k : A -> M S B) : M S B :=
  fun s => let (a, s') := c s in k a s'.
Definition gets {S A} (f : S -> A) : M S A := fun s => (f s, s).
Definition modify {S} (f : S -> S) : M S unit := fun s => (tt, f s).

Notation "'do' x <- c ; k" := (bind c (fun x => k))
  (at level 10, x name, c at level 100, k at level 200).
Notation "'do_' c ; k" := (bind c (fun _ => k))
  (at level 10, c at level 100, k at level 200).

(** Run a computation on a component of a larger state. *)
Definition zoom {S T A} (get : S -> T) (set : T -> S -> S) (c : M T A) : M S A :=
  fun s => let (a, t) := c (get s) in (a, set t s).

(** The wall clock: [readings n] is what the [n]-th call of [time.Now]
    returns; [ticks] counts the calls made so far. *)
Record Clock := { readings : nat -> Time; ticks : nat }.

Definition clock_now (c : Clock) : Time * Clock :=
  (readings c (ticks c), {| readings := readings c; ticks := S (ticks c) |}).

(** ** api/handlers: the rate limiter *)

Module RateLimit.

Record clientLimit := {
  dailyCount : Z;
  lastReset : Time;
  webhookCount : Z;
  isPremium : bool
}.

Record RateLimiter := {
  limits : gmap string clientLimit;
  freePlan_dailyLimit : Z;
  freePlan_webhookLimit : Z;
  premiumPlan_webhookLimit : Z
}.

Definition NewRateLimiter : RateLimiter :=
  {| limits := ∅;
     freePlan_dailyLimit := 10000;
     freePlan_webhookLimit := 20;
     premiumPlan_webhookLimit := 50 |}.

(** State seen by the limiter: itself and the clock. *)
Record St := { rl : RateLimiter; clk : Clock }.

Definition time_Now : M St Time :=
  fun s => let (t, c) := clock_now (clk s) in (t, {| rl := rl s; clk := c |}).

(** [rl.limits[clientID] = limit], also the write-back of a mutation made
    through the pointer [limit]. *)
Definition store (clientID : string) (l : clientLimit) : M St unit :=
  modify (fun s =>
    {| rl := {| limits := <[clientID := l]> (limits (rl s));
                freePlan_dailyLimit := freePlan_dailyLimit (rl s);
                freePlan_webhookLimit := freePlan_webhookLimit (rl s);
                premiumPlan_webhookLimit := premiumPlan_webhookLimit (rl s) |};
       clk := clk s |}).

Definition AllowRequest (clientID : string) : M St bool :=
  do found <- gets (fun s => limits (rl s) !! clientID);
  do limit <-
    match found with
    | Some l => ret l
    | None =>
        do t <- time_Now;
        let l := {| dailyCount := 0; lastReset := t;
                    webhookCount := 0; isPremium := false |} in
        do_ store clientID l;
        ret l
    end;
  (* Reset daily count if it's a new day *)
  do now <- time_Now;
  do limit <-
    (if 24 * Hour <=? Sub now (lastReset limit) then
       let l := {| dailyCount := 0; lastReset := now;
                   webhookCount := webhookCount limit;
                   isPremium := isPremium limit |} in
       do_ store clientID l; ret l
     else ret limit);
  let bump := {| dailyCount := incr (dailyCount limit);
                 lastReset := lastReset limit;
                 webhookCount := webhookCount limit;
                 isPremium := isPremium limit |} in
  do premiumCap <- gets (fun s => premiumPlan_webhookLimit (rl s));
  do freeCap <- gets (fun s => freePlan_webhookLimit (rl s));
  do dailyCap <- gets (fun s => freePlan_dailyLimit (rl s));
  if isPremium limit then
    if premiumCap <=? webhookCount limit then ret false
    else (do_ store clientID bump; ret true)
  else if freeCap <=? webhookCount limit then ret false
  else if dailyCap <=? dailyCount limit then ret false
  else (do_ store clientID bump; ret true).

(** The entry after the window check at time [now]. *)
Definition rolled (now : Time) (l : clientLimit) : clientLimit :=
  if 24 * Hour <=? Sub now (lastReset l)
  then {| dailyCount := 0; lastReset := now;
          webhookCount := webhookCount l; isPremium := isPremium l |}
  else l.

(** The verdict on an entry (after the window check). *)
Definition accepts (r : RateLimiter) (l : clientLimit) : bool :=
  if isPremium l then negb (premiumPlan_webhookLimit r <=? webhookCount l)
  else negb (freePlan_webhookLimit r <=? webhookCount l)
       && negb (freePlan_dailyLimit r <=? dailyCount l).

Definition bumped (l : clientLimit) : clientLimit :=
  {| dailyCount := incr (dailyCount l); lastReset := lastReset l;
     webhookCount := webhookCount l; isPremium := isPremium l |}.

Definition with_limits (r : RateLimiter) (m : gmap string clientLimit) : RateLimiter :=
  {| limits := m;
     freePlan_dailyLimit := freePlan_dailyLimit r;
     freePlan_webhookLimit := freePlan_webhookLimit r;
     premiumPlan_webhookLimit := premiumPlan_webhookLimit r |}.

Definition ticked (c : Clock) : Clock :=
  {| readings := readings c; ticks := S (ticks c) |}.

Definition fresh (t : Time) : clientLimit :=
  {| dailyCount := 0; lastReset := t; webhookCount := 0; isPremium := false |}.

(** The entry of a default-tier client that has [k] events in the window
    anchored at [t]. *)
Definition counting (k : Z) (t : Time) : clientLimit :=
  {| dailyCount := k; lastReset := t; webhookCount := 0; isPremium := false |}.

(** The entry [AllowRequest] works on, found or created, and the clock
    after the look-up. *)
Definition lookupOrCreate (s : St) (c : string) : clientLimit * Clock :=
  match limits (rl s) !! c with
  | Some l => (l, clk s)
  | None => (fresh (readings (clk s) (ticks (clk s))), ticked (clk s))
  end.

(** The daily count [AllowRequest] compares with the cap: the stored
    count, or zero for a new client or a rolled window. *)
Definition windowCount (s : St) (c : string) : Z :=
  let (l, k) := lookupOrCreate s c in
  dailyCount (rolled (readings k (ticks k)) l).

(** The limiter states a process can be in: the limiter starts as
    [NewRateLimiter] and is only ever touched by [AllowRequest]; between
    two calls the clock may be read by others. *)
Inductive reachable : St -> Prop :=
| reach_new (k : Clock) : reachable {| rl := NewRateLimiter; clk := k |}
| reach_allow (s : St) (c : string) :
    reachable s -> reachable (snd (AllowRequest c s))
| reach_clock (s : St) (k : Clock) :
    reachable s -> reachable {| rl := rl s; clk := k |}.

(** [n] successive requests of one client. *)
Fixpoint calls (n : nat) (c : string) : M St (list bool) :=
  match n with
  | O => ret []
  | S n' => do b <- AllowRequest c; do r <- calls n' c; ret (b :: r)
  end.

(** What every reachable state satisfies. *)
Definition invariant (s : St) : Prop :=
  freePlan_dailyLimit (rl s) = 10000 /\
  freePlan_webhookLimit (rl s) = 20 /\
  premiumPlan_webhookLimit (rl s) = 50 /\
  forall k l, limits (rl s) !! k = Some l ->
    webhookCount l = 0 /\ isPremium l = false /\ 0 <= dailyCount l <= 10000.

(** A limiter that has seen nothing, with a clock that stands at [t]. *)
Definition idle (t : Time) : St :=
  {| rl := NewRateLimiter; clk := {| readings := fun _ => t; ticks := 0 |} |}.

End RateLimit.

(** ** Decoded JSON and formatting helpers *)

(** A value decoded by encoding/json into [interface{}]: numbers are
    [float64], objects are [map[string]interface{}], [nil] is [JNull]. *)
Inductive JSON :=
| JNull
| JBool (b : bool)
| JNumber (f : spec_float)
| JString (s : string)
| JArray (l : list JSON)
| JObject (m : gmap string JSON).

(** The type assertions [v.(string)], [v.(float64)], [v.([]interface{})]
    on the result of a map index; a missing key yields [nil], on which
    every assertion fails. *)
Definition asString (v : option JSON) : option string :=
  match v with Some (JString s) => Some s | _ => None end.
Definition asFloat64 (v : option JSON) : option spec_float :=
  match v with Some (JNumber f) => Some f | _ => None end.
Definition asArray (v : option JSON) : option (list JSON) :=
  match v with Some (JArray l) => Some l | _ => None end.

(** [m[k] != nil] for a [map[string]interface{}]. *)
Definition indexNotNil (m : gmap string JSON) (k : string) : bool :=
  match m !! k with
  | None | Some JNull => false
  | Some _ => true
  end.

Definition hexDigit (n : N) : ascii :=
  match String.get (N.to_nat n) "0123456789abcdef" with
  | Some c => c
  | None => "0"%char
  end.

(** [%x] on a string: two lower-case hexadecimal digits per byte. *)
Fixpoint hexString (s : string) : string :=
  match s with
  | EmptyString => EmptyString
  | String c r =>
      let n := N_of_ascii c in
      String (hexDigit (n / 16)) (String (hexDigit (n mod 16)) (hexString r))
  end.

Fixpoint joinWith (sep : string) (l : list string) : string :=
  match l with
  | [] => ""
  | [x] => x
  | x :: r => x ++ sep ++ joinWith sep r
  end.

(** [%x] on a [[]string]: the elements in hexadecimal, separated by one
    space, between square brackets. *)
Definition hexStrings (l : list string) : string :=
  "[" ++ joinWith " " (map hexString l) ++ "]".

Definition decimalN (n : N) : string := NilEmpty.string_of_uint (N.to_uint n).

(** [%d] on an integer. *)
Definition decimalZ (z : Z) : string :=
  match z with
  | Z0 => "0"
  | Zpos p => decimalN (Npos p)
  | Zneg p => "-" ++ decimalN (Npos p)
  end.

(** The magnitude [m * 2^e] rounded to the nearest integer, ties to even. *)
Definition roundHalfEven (m : positive) (e : Z) : N :=
  if 0 <=? e then Z.to_N (Zpos m * 2 ^ e)
  else
    let d := 2 ^ (- e) in
    let q := Zpos m / d in
    let r := Zpos m mod d in
    Z.to_N (if 2 * r <? d then q
            else if d <? 2 * r then q + 1
            else if Z.even q then q else q + 1).

(** [fmt.Sprintf("%.0f", f)]. *)
Definition formatF0 (f : spec_float) : string :=
  match f with
  | S754_zero s => if s then "-0" else "0"
  | S754_infinity s => if s then "-Inf" else "+Inf"
  | S754_nan => "NaN"
  | S754_finite s m e =>
      (if s then "-" else "") ++ decimalN (roundHalfEven m e)
  end.

(** The conversion [int64(f)]: truncation towards zero; outside the range
    of [int64] (and on NaN) Go leaves the result to the target; the amd64
    result is taken. *)
Definition toInt64 (f : spec_float) : Z :=
  match f with
  | S754_zero _ => 0
  | S754_finite s m e =>
      let a := if 0 <=? e then Zpos m * 2 ^ e else Zpos m / 2 ^ (- e) in
      let v := if s then - a else a in
      if (minInt64 <=? v) && (v <=? maxInt64) then v else minInt64
  | _ => minInt64
  end.

(** ** internal/models *)

Definition EventStatusPending : string := "pending".
Definition EventStatusProcessed : string := "processed".
Definition EventStatusFailed : string := "failed".
Definition EventStatusRetrying : string := "retrying".

(** The zero [time.Time] (January 1, year 1, 00:00:00 UTC). *)
Definition zeroTime : Time := - 62135596800 * Second.

Record WebhookEvent := {
  WebhookID : string;
  WebhookType : string;
  Event : string;
  CampaignName : string;
  CampaignID : string;
  TagName : string;
  DateEvent : string;
  Timestamp : Z;
  TimestampEvent : Z;
  Emails : list string;
  Email : string;
  URL : string;
  ListID : JSON;
  Reason : string;
  ClientID : string;
  ReceivedAt : Time;
  UpdatedAt : Time;
  RetryCount : Z;
  Status : string
}.


(** Assignments to single fields through a [*WebhookEvent]. *)
Definition set_Status (e : WebhookEvent) (v : string) : WebhookEvent :=
  {| WebhookID := WebhookID e; WebhookType := WebhookType e; Event := Event e;
     CampaignName := CampaignName e; CampaignID := CampaignID e;
     TagName := TagName e; DateEvent := DateEvent e; Timestamp := Timestamp e;
     TimestampEvent := TimestampEvent e; Emails := Emails e; Email := Email e;
     URL := URL e; ListID := ListID e; Reason := Reason e;
     ClientID := ClientID e; ReceivedAt := ReceivedAt e;
     UpdatedAt := UpdatedAt e; RetryCount := RetryCount e; Status := v |}.

Definition set_RetryCount (e : WebhookEvent) (v : Z) : WebhookEvent :=
  {| WebhookID := WebhookID e; WebhookType := WebhookType e; Event := Event e;
     CampaignName := CampaignName e; CampaignID := CampaignID e;
     TagName := TagName e; DateEvent := DateEvent e; Timestamp := Timestamp e;
     TimestampEvent := TimestampEvent e; Emails := Emails e; Email := Email e;
     URL := URL e; ListID := ListID e; Reason := Reason e;
     ClientID := ClientID e; ReceivedAt := ReceivedAt e;
     UpdatedAt := UpdatedAt e; RetryCount := v; Status := Status e |}.

(** The three fields the worker takes over from the delivery headers. *)
Definition set_metadata (e : WebhookEvent) (webhookID webhookType clientID : string)
  : WebhookEvent :=
  {| WebhookID := webhookID; WebhookType := webhookType; Event := Event e;
     CampaignName := CampaignName e; CampaignID := CampaignID e;
     TagName := TagName e; DateEvent := DateEvent e; Timestamp := Timestamp e;
     TimestampEvent := TimestampEvent e; Emails := Emails e; Email := Email e;
     URL := URL e; ListID := ListID e; Reason := Reason e;
     ClientID := clientID; ReceivedAt := ReceivedAt e;
     UpdatedAt := UpdatedAt e; RetryCount := RetryCount e; Status := Status e |}.

(** ** The ingress process: gin context, publisher, handler and router *)

(** The bytes of a request or message body, seen through encoding/json:
    [Some v] when they are the text of the JSON value [v], [None] when
    they are not valid JSON (the empty body included). *)
Definition Payload := option JSON.

(** [c.Request.Body] is a stream of bytes, and what a decoder has read
    of it is gone.  A [json.Decoder] reads it in chunks (of 512 bytes at
    first), decodes one JSON value and leaves the bytes it has not read
    yet.  The stream is described by what successive binds find in it:
    - [Unread p]: the body holds one JSON text (possibly followed by
      white space), or bytes that are none, and one bind reads it to its
      end;
    - [Longer p rest]: the body goes on after what the first bind reads;
      that bind decodes [p] and leaves [rest];
    - [Drained]: the stream is at end of file. *)
Inductive BodyStream :=
| Unread (p : Payload)
| Drained
| Longer (p : Payload) (rest : BodyStream).

Record Context := {
  Method : string;
  Header : gmap string string;   (* canonical header name to first value *)
  Body : BodyStream
}.

Definition GetHeader (c : Context) (key : string) : string :=
  default "" (Header c !! key).

Definition UserAgent (c : Context) : string := GetHeader c "User-Agent".

(** What one decoder gets out of the stream, and what it leaves. *)
Definition readBody (b : BodyStream) : Payload * BodyStream :=
  match b with
  | Unread p => (p, Drained)
  | Drained => (None, Drained)
  | Longer p rest => (p, rest)
  end.

(** [c.ShouldBindJSON(&m)] for [m : map[string]interface{}]: gin hands
    [c.Request.Body] to a new [json.Decoder] and decodes one value.  JSON
    [null] leaves the (nil) map untouched, any other non-object is a type
    error; the request keeps what the decoder has left of the stream, so
    a second bind of a body that held one JSON text finds it at end of
    file. *)
Definition ShouldBindJSON (c : Context) : option (gmap string JSON) * Context :=
  let (p, rest) := readBody (Body c) in
  let c' := {| Method := Method c; Header := Header c; Body := rest |} in
  match p with
  | Some (JObject m) => (Some m, c')
  | Some JNull => (Some ∅, c')
  | _ => (None, c')
  end.

(** [c.JSON(code, gin.H{...})]. *)
Record Response := { StatusCode : Z; H : gmap string JSON }.

Record World := {
  clock : Clock;
  rateLimiter : RateLimit.RateLimiter;
  brokerUp : bool;                  (* does the transport accept a publish *)
  published : list WebhookEvent     (* events accepted by the broker, oldest first *)
}.

Definition time_Now : M World Time :=
  fun w => let (t, c) := clock_now (clock w) in
           (t, {| clock := c; rateLimiter := rateLimiter w;
                  brokerUp := brokerUp w; published := published w |}).

(** [h.rateLimiter.AllowRequest(clientID)]. *)
Definition AllowRequest (clientID : string) : M World bool :=
  zoom (fun w => {| RateLimit.rl := rateLimiter w; RateLimit.clk := clock w |})
       (fun st w => {| clock := RateLimit.clk st; rateLimiter := RateLimit.rl st;
                       brokerUp := brokerUp w; published := published w |})
       (RateLimit.AllowRequest clientID).

(** [queue.Publisher.Publish(event)]: [true] stands for a nil error.  The
    RabbitMQ publisher sends [json.Marshal(event)] with these headers. *)
Definition publishHeaders (e : WebhookEvent) : gmap string string :=
  <["client_id" := ClientID e]>
    (<["webhook_type" := WebhookType e]> (<["webhook_id" := WebhookID e]> ∅)).

Definition Publish (e : WebhookEvent) : M World bool :=
  fun w =>
    if brokerUp w then
      (true, {| clock := clock w; rateLimiter := rateLimiter w;
                brokerUp := brokerUp w; published := published w ++ [e] |})
    else (false, w).

(** The webhook-to-client table of the mapping service. *)
Definition GetClientForWebhook (m : gmap string string) (webhookID : string)
  : option string := m !! webhookID.

Section Handler.

(** [h.webhookMapper]: [None] is the nil pointer. *)
Variable webhookMapper : option (gmap string string).

Definition extractClientID (c : Context) (data : gmap string JSON) : string :=
  let webhookID := GetHeader c "Webhook-Id" in
  let mapped :=
    match webhookMapper with
    | Some m => if negb (webhookID =? "")%string
                then GetClientForWebhook m webhookID else None
    | None => None
    end in
  match mapped with
  | Some clientID => clientID
  | None => if negb (webhookID =? "")%string then webhookID else "unknown"
  end.

Definition idFields : list string :=
  ["webhook_id"; "message_id"; "event_id"; "delivery_id"; "tracking_id"].

Fixpoint firstID (data : gmap string JSON) (fields : list string) : option string :=
  match fields with
  | [] => None
  | field :: rest =>
      match asString (data !! field) with
      | Some val => if negb (val =? "")%string then Some val else firstID data rest
      | None => firstID data rest
      end
  end.

Definition nonEmptyString (v : option JSON) : list string :=
  match asString v with
  | Some val => if negb (val =? "")%string then [val] else []
  | None => []
  end.

Definition components (data : gmap string JSON) : list string :=
  nonEmptyString (data !! "campaign_id")
  ++ nonEmptyString (data !! "email")
  ++ match asFloat64 (data !! "ts") with
     | Some val => [formatF0 val]
     | None => []
     end
  ++ nonEmptyString (data !! "event").

Definition generateWebhookID (data : gmap string JSON) : M World string :=
  match firstID data idFields with
  | Some val => ret val
  | None =>
      match components data with
      | _ :: _ => ret ("mc_" ++ hexStrings (components data))
      | [] => do now <- time_Now; ret ("mc_" ++ decimalZ now)
      end
  end.

(** First successful string assertion among the given keys (the
    [if ... else if ...] chains of the field extraction). *)
Fixpoint firstString (data : gmap string JSON) (keys : list string) : string :=
  match keys with
  | [] => ""
  | k :: rest =>
      match asString (data !! k) with
      | Some val => val
      | None => firstString data rest
      end
  end.

Fixpoint onlyStrings (l : list JSON) : list string :=
  match l with
  | [] => []
  | JString s :: r => s :: onlyStrings r
  | _ :: r => onlyStrings r
  end.

Definition extractFields (data : gmap string JSON) (webhookID clientID : string)
    (receivedAt : Time) : WebhookEvent :=
  {| WebhookID := webhookID;
     WebhookType := "email_event";
     ClientID := clientID;
     ReceivedAt := receivedAt;
     Status := EventStatusPending;
     Event := firstString data ["event"];
     CampaignName := firstString data ["campaign_name"; "campaign name"];
     CampaignID := firstString data ["campaign_id"; "camp_id"];
     TagName := firstString data ["tag_name"; "tag"];
     DateEvent := firstString data ["date_event"];
     Timestamp := match asFloat64 (data !! "ts") with
                  | Some val => toInt64 val | None => 0 end;
     TimestampEvent := match asFloat64 (data !! "ts_event") with
                       | Some val => toInt64 val | None => 0 end;
     Email := firstString data ["email"];
     URL := firstString data ["URL"; "url"; "click_url"];
     Reason := firstString data ["reason"];
     ListID := default JNull (data !! "list_id");
     Emails := match asArray (data !! "emails") with
               | Some val => onlyStrings val | None => [] end;
     UpdatedAt := zeroTime;
     RetryCount := 0 |}.

Definition respond (code : Z) (h : list (string * JSON)) : Response :=
  {| StatusCode := code; H := list_to_map h |}.

Definition HandleWebhook (c : Context) : M World Response :=
  do start <- time_Now;
  if (Method c =? "GET")%string then
    ret (respond 200 [("status", JString "ok");
                      ("message", JString "Webhook endpoint is valid")])
  else
    let (bound, c) := ShouldBindJSON c in
    match bound with
    | None => ret (respond 400 [("error", JString "Invalid JSON payload")])
    | Some data =>
        if (UserAgent c =? "MailerCloud")%string then
          ret (respond 200 [("message", JString "Webhook URL verified");
                            ("success", JBool true)])
        else
          let clientID := extractClientID c data in
          do allowed <- AllowRequest clientID;
          if negb allowed then
            ret (respond 429 [("error", JString "Rate limit exceeded")])
          else
            do webhookID <- generateWebhookID data;
            do receivedAt <- time_Now;
            let event := extractFields data webhookID clientID receivedAt in
            let timed := negb (ClientID event =? "")%string
                         && negb (Event event =? "")%string in
            do ok <- Publish event;
            do_ (if timed then do_ time_Now; ret tt else ret tt);
            if negb ok then
              ret (respond 500 [("error", JString "Failed to process event")])
            else
              ret (respond 200 [("message", JString "Event accepted");
                                ("webhook_id", JString (WebhookID event));
                                ("client_id", JString (ClientID event))])
    end.

(** The two answers the rate limiter decides between. *)
Definition eventAccepted (webhookID clientID : string) : Response :=
  respond 200 [("message", JString "Event accepted");
               ("webhook_id", JString webhookID);
               ("client_id", JString clientID)].

Definition rateLimitExceeded : Response :=
  respond 429 [("error", JString "Rate limit exceeded")].

(** Requests handled one after the other, none overlapping the next. *)
Fixpoint serve (reqs : list Context) : M World (list Response) :=
  match reqs with
  | [] => ret []
  | c :: rest => do r <- HandleWebhook c; do rs <- serve rest; ret (r :: rs)
  end.

(** An event request of tenant [t]: a POST that is no MailerCloud probe,
    whose body the handler can bind, and which is attributed to [t]. *)
Definition eventOf (t : string) (c : Context) : Prop :=
  (Method c =? "GET")%string = false /\
  (UserAgent c =? "MailerCloud")%string = false /\
  exists data, fst (ShouldBindJSON c) = Some data /\ extractClientID c data = t.

End Handler.

(** *** api/router: the POST /webhook route *)

Record SecurityConfig := {
  APIKeyHeader : string;     (* in canonical header form *)
  APIKeys : list string
}.

Definition validationResponse : Response :=
  respond 200 [("status", JString "ok");
               ("message", JString "Webhook validation successful");
               ("service", JString "MailerCloud Webhook Processor");
               ("success", JBool true)].

Section Router.

Variable cfg : SecurityConfig.
(** The [WebhookHandler] chosen at start-up (production or debug). *)
Variable webhookHandler : Context -> M World Response.

Definition minimalPayload (requestBody : gmap string JSON) : bool :=
  (size requestBody =? 0)%nat
  || ((size requestBody =? 1)%nat && indexNotNil requestBody "test").

Definition webhookPOST (c : Context) : M World Response :=
  let webhookId := GetHeader c "Webhook-Id" in
  let userAgent := GetHeader c "User-Agent" in
  let isMailerCloudValidation :=
    (webhookId =? "WebhookID")%string || (userAgent =? "MailerCloud")%string in
  let (bound, c) := ShouldBindJSON c in
  let isMailerCloudValidation :=
    match bound with
    | Some requestBody =>
        if minimalPayload requestBody then true else isMailerCloudValidation
    | None => isMailerCloudValidation
    end in
  (* c.Request.Body = c.Request.Body: the stream stays as the bind left it *)
  if isMailerCloudValidation then ret validationResponse
  else if negb (webhookId =? "")%string && negb (webhookId =? "WebhookID")%string
  then webhookHandler c
  else
    let apiKey := GetHeader c (APIKeyHeader cfg) in
    if (apiKey =? "")%string then
      ret (respond 401 [("error", JString "Missing API key")])
    else if negb (existsb (fun key => (key =? apiKey)%string) (APIKeys cfg)) then
      ret (respond 401 [("error", JString "Invalid API key")])
    else webhookHandler c.

End Router.

(** *** Reference wording and sample requests *)

(** The spec's wording of the composite identity: the timestamp enters as
    [floor(ts)]. *)
Definition spec_floor (f : spec_float) : Z :=
  match f with
  | S754_finite s m e =>
      let v := if s then Zneg m else Zpos m in
      if 0 <=? e then v * 2 ^ e else v / 2 ^ (- e)
  | _ => 0
  end.

Definition spec_components (data : gmap string JSON) : list string :=
  nonEmptyString (data !! "campaign_id")
  ++ nonEmptyString (data !! "email")
  ++ match asFloat64 (data !! "ts") with
     | Some val => [decimalZ (spec_floor val)]
     | None => []
     end
  ++ nonEmptyString (data !! "event").

Definition spec_composite (data : gmap string JSON) : string :=
  "mc_" ++ hexStrings (spec_components data).

(** Sample inputs. *)
Definition quietWorld : World :=
  {| clock := {| readings := fun _ => 1700000000 * Second; ticks := 0 |};
     rateLimiter := RateLimit.NewRateLimiter;
     brokerUp := true;
     published := [] |}.

Definition noKeys : SecurityConfig := {| APIKeyHeader := "X-Api-Key"; APIKeys := [] |}.

Definition post (headers : list (string * string)) (body : Payload) : Context :=
  {| Method := "POST"; Header := list_to_map headers; Body := Unread body |}.

(** Scenario 3 of the spec: a vendor webhook bound to tenant [t1]. *)
Definition registry : option (gmap string string) := Some {[ "abc123" := "t1" ]}.

Definition deliveredBody : gmap string JSON :=
  list_to_map [("event", JString "delivered"); ("email", JString "a@b");
               ("campaign_id", JString "c");
               ("ts", JNumber (S754_finite false 1700000000 0))].

Definition vendorRequest : Context :=
  post [("Webhook-Id", "abc123")] (Some (JObject deliveredBody)).

(** A request whose body goes on after what the route's bind reads: the
    event, white space up to the end of the decoder's first chunk, and the
    event once more. *)
Definition longRequest : Context :=
  {| Method := "POST";
     Header := list_to_map [("Webhook-Id", "abc123")];
     Body := Longer (Some (JObject deliveredBody))
                    (Unread (Some (JObject deliveredBody))) |}.

(** ** internal/storage: the document store adapter *)

Module Storage.

(** The values [InsertEvent] and [UpdateEventStatus] put into a [bson.M],
    and the [_id] the driver generates; [BObjectID n] is the identifier
    made for the [n]-th call of [InsertOne]. *)
Inductive BSON :=
| BString (s : string)
| BInt (z : Z)
| BDateTime (t : Time)
| BStrings (l : list string)
| BAny (v : JSON)
| BObjectID (n : nat).

Definition Millisecond : Duration := 1000000 * Nanosecond.

(** A [time.Time] is written as a BSON datetime, which counts whole
    milliseconds: the instant is rounded down to the millisecond. *)
Definition truncMs (t : Time) : Time := t / Millisecond * Millisecond.

(** The driver's encoding of a value. *)
Definition encode (v : BSON) : BSON :=
  match v with
  | BDateTime t => BDateTime (truncMs t)
  | _ => v
  end.

(** The document the server stores for the [n]-th insertion: the values
    encoded, and an [_id] added when the document brings none. *)
Definition stored (n : nat) (doc : gmap string BSON) : gmap string BSON :=
  let doc := encode <$> doc in
  match doc !! "_id" with
  | Some _ => doc
  | None => <["_id" := BObjectID n]> doc
  end.

(** The collection, and the outcome of the driver calls: [insertFails n]
    (resp. [updateFails n]) tells whether the [n]-th call of [InsertOne]
    (resp. [UpdateOne]) returns an error. *)
Record MongoDB := {
  collection : list (gmap string BSON);
  insertFails : nat -> bool;
  updateFails : nat -> bool;
  insertCalls : nat;
  updateCalls : nat
}.

Record St := { db : MongoDB; clk : Clock }.

Definition time_Now : M St Time :=
  fun s => let (t, c) := clock_now (clk s) in (t, {| db := db s; clk := c |}).

(** [m.collection.InsertOne(ctx, doc)]; [true] stands for a nil error. *)
Definition InsertOne (doc : gmap string BSON) : M St bool :=
  fun s =>
    let d := db s in
    let failed := insertFails d (insertCalls d) in
    (negb failed,
     {| db := {| collection := if failed then collection d
                               else collection d ++ [stored (insertCalls d) doc];
                 insertFails := insertFails d; updateFails := updateFails d;
                 insertCalls := S (insertCalls d);
                 updateCalls := updateCalls d |};
        clk := clk s |}).

(** An update of the first document that matches [{webhook_id: id}]. *)
Fixpoint updateFirst (id : string) (set : gmap string BSON -> gmap string BSON)
    (docs : list (gmap string BSON)) : list (gmap string BSON) :=
  match docs with
  | [] => []
  | d :: r =>
      match d !! "webhook_id" with
      | Some (BString s) =>
          if (s =? id)%string then set d :: r else d :: updateFirst id set r
      | _ => d :: updateFirst id set r
      end
  end.

(** [$set]: the fields of the update, encoded, written over the
    document's. *)
Definition applySet (update : list (string * BSON)) (d : gmap string BSON)
  : gmap string BSON :=
  foldr (fun kv acc => <[fst kv := encode (snd kv)]> acc) d update.

(** [m.collection.UpdateOne(ctx, {webhook_id: id}, {$set: update})]. *)
Definition UpdateOne (id : string) (update : list (string * BSON)) : M St bool :=
  fun s =>
    let d := db s in
    let failed := updateFails d (updateCalls d) in
    (negb failed,
     {| db := {| collection := if failed then collection d
                               else updateFirst id (applySet update) (collection d);
                 insertFails := insertFails d; updateFails := updateFails d;
                 insertCalls := insertCalls d;
                 updateCalls := S (updateCalls d) |};
        clk := clk s |}).

Definition optional (present : bool) (k : string) (v : BSON)
    (doc : gmap string BSON) : gmap string BSON :=
  if present then <[k := v]> doc else doc.

Definition nonEmpty (s : string) : bool := negb (s =? "")%string.

Definition notNil (v : JSON) : bool :=
  match v with JNull => false | _ => true end.

(** The [bson.M] built by [InsertEvent] (after the status default). *)
Definition eventDoc (event : WebhookEvent) : gmap string BSON :=
  let doc : gmap string BSON :=
    list_to_map [("webhook_id", BString (WebhookID event));
                 ("webhook_type", BString (WebhookType event));
                 ("client_id", BString (ClientID event));
                 ("event", BString (Event event));
                 ("received_at", BDateTime (ReceivedAt event));
                 ("status", BString (Status event));
                 ("retry_count", BInt (RetryCount event))] in
  let doc := optional (nonEmpty (CampaignID event)) "campaign_id" (BString (CampaignID event)) doc in
  let doc := optional (nonEmpty (CampaignName event)) "campaign_name" (BString (CampaignName event)) doc in
  let doc := optional (nonEmpty (TagName event)) "tag_name" (BString (TagName event)) doc in
  let doc := optional (nonEmpty (DateEvent event)) "date_event" (BString (DateEvent event)) doc in
  let doc := optional (nonEmpty (URL event)) "url" (BString (URL event)) doc in
  let doc := optional (nonEmpty (Email event)) "email" (BString (Email event)) doc in
  let doc := optional (0 <? length (Emails event))%nat "emails" (BStrings (Emails event)) doc in
  let doc := optional (notNil (ListID event)) "list_id" (BAny (ListID event)) doc in
  let doc := optional (nonEmpty (Reason event)) "reason" (BString (Reason event)) doc in
  doc.

(** [InsertEvent] returns the error flag and the event as the caller sees
    it afterwards (the status default is written through the pointer). *)
Definition InsertEvent (event : WebhookEvent) : M St (bool * WebhookEvent) :=
  let event := if (Status event =? "")%string
               then set_Status event EventStatusPending else event in
  do ok <- InsertOne (eventDoc event);
  ret (ok, event).

Definition UpdateEventStatus (event : WebhookEvent) (status : string) : M St bool :=
  do now <- time_Now;
  UpdateOne (WebhookID event)
    [("updated_at", BDateTime now);
     ("retry_count", BInt (RetryCount event));
     ("status", BString status)].

Definition mandatoryKeys : list string :=
  ["webhook_id"; "webhook_type"; "client_id"; "event"; "received_at";
   "status"; "retry_count"].

Definition optionalKeys : list string :=
  ["campaign_id"; "campaign_name"; "tag_name"; "date_event"; "url"; "email";
   "emails"; "list_id"; "reason"].

(** A store that holds nothing and whose driver calls succeed. *)
Definition emptyStore (t : Time) : St :=
  {| db := {| collection := []; insertFails := fun _ => false;
              updateFails := fun _ => false; insertCalls := 0; updateCalls := 0 |};
     clk := {| readings := fun _ => t; ticks := 0 |} |}.

(** An event none of whose fields is set. *)
Definition blankEvent : WebhookEvent :=
  {| WebhookID := ""; WebhookType := ""; Event := ""; CampaignName := "";
     CampaignID := ""; TagName := ""; DateEvent := ""; Timestamp := 0;
     TimestampEvent := 0; Emails := []; Email := ""; URL := "";
     ListID := JNull; Reason := ""; ClientID := ""; ReceivedAt := 0;
     UpdatedAt := zeroTime; RetryCount := 0; Status := "" |}.

End Storage.

(** ** internal/worker *)

Module Worker.

(** *** float64 arithmetic of the backoff *)

Definition float64_of_Z (z : Z) : spec_float := binary_normalize 53 1024 z 0 false.
Definition fmul : spec_float -> spec_float -> spec_float := SFmul 53 1024.
Definition fadd : spec_float -> spec_float -> spec_float := SFadd 53 1024.

(** [math.Pow(2, float64(k))] for an integer [k]. *)
Definition pow2 (k : Z) : spec_float := SFldexp 53 1024 (SFone 53 1024) k.

Definition half : spec_float := pow2 (-1).

(** [rand.Float64()] of math/rand/v2 from the generator's 64-bit output:
    [float64(u<<11>>11) / (1<<53)]. *)
Definition Float64 (u : N) : spec_float :=
  binary_normalize 53 1024 (Z.of_N u mod 2 ^ 53) (-53) false.

Record Worker := { maxRetries : Z; baseDelay : Duration }.

Definition NewWorker : Worker :=
  {| maxRetries := 3; baseDelay := 10 * Second |}.

Definition calculateBackoff (w : Worker) (retryCount : Z) (u : N) : Duration :=
  let backoff := fmul (float64_of_Z (baseDelay w)) (pow2 (wrap64 (retryCount - 1))) in
  let jitter := fadd (fmul (Float64 u) half) half in
  toInt64 (fmul backoff jitter).

(** *** Deliveries and the process state *)

Record Delivery := {
  Body : Payload;
  Headers : option (gmap string JSON)     (* amqp.Table; [None] is nil *)
}.

(** The acknowledgement a delivery receives: [msg.Ack(false)] or
    [msg.Nack(false, requeue)]. *)
Inductive Settlement :=
| Ack
| Nack (requeue : bool).

(** The generator behind [rand.Float64]. *)
Record Rand := { outputs : nat -> N; drawn : nat }.

Record World := {
  store : Storage.St;
  rng : Rand;
  slept : list Duration      (* arguments of time.Sleep, oldest first *)
}.

Definition onStore {A} (c : M Storage.St A) : M World A :=
  zoom store (fun st w => {| store := st; rng := rng w; slept := slept w |}) c.

Definition time_Now : M World Time := onStore Storage.time_Now.

Definition rand_Uint64 : M World N :=
  fun w => (outputs (rng w) (drawn (rng w)),
            {| store := store w;
               rng := {| outputs := outputs (rng w); drawn := S (drawn (rng w)) |};
               slept := slept w |}).

Definition Sleep (d : Duration) : M World unit :=
  modify (fun w => {| store := store w; rng := rng w; slept := slept w ++ [d] |}).

Section Loop.

(** [json.Unmarshal] of a valid JSON text into a [*models.WebhookEvent]
    that already holds [e]: the event with the tagged fields filled in, or
    [None] on a type mismatch. *)
Variable decodeEvent : JSON -> WebhookEvent -> option WebhookEvent.

Definition Unmarshal (body : Payload) (e : WebhookEvent) : option WebhookEvent :=
  match body with
  | None => None
  | Some v => decodeEvent v e
  end.

Variable w : Worker.

Definition processEvent (event : WebhookEvent) : M World (bool * WebhookEvent) :=
  do r <- onStore (Storage.InsertEvent event);
  let (ok, event) := r : bool * WebhookEvent in
  if negb ok then ret (false, event)
  else
    do ok <- onStore (Storage.UpdateEventStatus event EventStatusProcessed);
    ret (ok, event).

Definition handleError (event : WebhookEvent) : M World Settlement :=
  let event := set_RetryCount event (incr (RetryCount event)) in
  if maxRetries w <=? RetryCount event then
    (* Max retries reached, mark as failed *)
    do_ onStore (Storage.UpdateEventStatus event EventStatusFailed);
    ret Ack
  else
    do u <- rand_Uint64;
    let delay := calculateBackoff w (RetryCount event) u in
    do_ onStore (Storage.UpdateEventStatus event EventStatusRetrying);
    do_ Sleep delay;
    ret (Nack true).

Definition headerString (headers : gmap string JSON) (k : string) : string :=
  default "" (asString (headers !! k)).

Definition withHeaders (event : WebhookEvent) (headers : option (gmap string JSON))
  : WebhookEvent :=
  match headers with
  | None => event
  | Some headers =>
      let webhookID := headerString headers "webhook_id" in
      let webhookType := headerString headers "webhook_type" in
      let clientID := headerString headers "client_id" in
      set_metadata event
        (if negb (webhookID =? "")%string then webhookID else WebhookID event)
        (if negb (webhookType =? "")%string then webhookType else WebhookType event)
        (if negb (clientID =? "")%string then clientID else ClientID event)
  end.

Definition newEvent (receivedAt : Time) : WebhookEvent :=
  {| WebhookID := ""; WebhookType := ""; Event := ""; CampaignName := "";
     CampaignID := ""; TagName := ""; DateEvent := ""; Timestamp := 0;
     TimestampEvent := 0; Emails := []; Email := ""; URL := "";
     ListID := JNull; Reason := ""; ClientID := ""; ReceivedAt := receivedAt;
     UpdatedAt := zeroTime; RetryCount := 0; Status := EventStatusPending |}.

(** One iteration of the consumer loop of [Start]. *)
Definition handle (msg : Delivery) : M World Settlement :=
  do now <- time_Now;
  match Unmarshal (Body msg) (newEvent now) with
  | None => ret (Nack false)
  | Some event =>
      let event := withHeaders event (Headers msg) in
      do start <- time_Now;
      do r <- processEvent event;
      let (ok, event) := r : bool * WebhookEvent in
      if negb ok then handleError event
      else (do_ time_Now; ret Ack)
  end.

(** The consumer loop against the queue, [n] iterations of it.  A
    delivery nacked with requeue goes back to the queue and is delivered
    again after the deliveries already sent to this consumer; an acked or
    dropped one leaves the queue.  The result is the queue left and the
    settlements made, oldest first. *)
Fixpoint consume (n : nat) (queue : list Delivery)
  : M World (list Delivery * list Settlement) :=
  match n, queue with
  | S n', msg :: rest =>
      do s <- handle msg;
      let queue' := match s with
                    | Nack true => (rest ++ [msg])%list
                    | _ => rest
                    end in
      do r <- consume n' queue';
      ret (fst r, s :: snd r)
  | _, _ => ret (queue, [])
  end.

End Loop.

(** A decoder instance for sample runs: what [json.Unmarshal] does with
    [null] and with objects that carry none of the tagged keys. *)
Definition decodeUntagged (v : JSON) (e : WebhookEvent) : option WebhookEvent :=
  match v with
  | JNull | JObject _ => Some e
  | _ => None
  end.

(** A worker process whose store refuses every insertion. *)
Definition failingStore : World :=
  {| store := {| Storage.db :=
                   {| Storage.collection := [];
                      Storage.insertFails := fun _ => true;
                      Storage.updateFails := fun _ => false;
                      Storage.insertCalls := 0; Storage.updateCalls := 0 |};
                 Storage.clk := {| readings := fun _ => 1700000000 * Second;
                                   ticks := 0 |} |};
     rng := {| outputs := fun _ => 0%N; drawn := 0 |};
     slept := [] |}.

Definition emptyObject : Delivery := {| Body := Some (JObject ∅); Headers := None |}.
Definition garbage : Delivery := {| Body := None; Headers := None |}.

End Worker.

(** *** Rounding in float64, written out on integers *)

Module Rounding.
Import Worker.

(** What [k] steps of the shift of a non-negative mantissa leave: the
    quotient, the last bit shifted out and whether a lower one was set. *)
Definition shifted (m k : Z) : shr_record :=
  {| shr_m := m / 2 ^ k;
     shr_r := Z.testbit m (k - 1);
     shr_s := negb (m mod 2 ^ (k - 1) =? 0) |}.

(** The mantissa after rounding to nearest, ties to even. *)
Definition nearest (m k : Z) : Z :=
  round_nearest_even (m / 2 ^ k) (loc_of_shr_record (shifted m k)).

(** The float with the 53-digit mantissa [m] and the exponent [e]; a
    mantissa rounded up to [2^53] needs one digit less. *)
Definition float53 (s : bool) (m e : Z) : spec_float :=
  if m =? 2 ^ 53 then S754_finite s (Z.to_pos (2 ^ 52)) (e + 1)
  else S754_finite s (Z.to_pos m) e.

(** The mantissa of [float64(10 * time.Second)]. *)
Definition baseMantissa : Z := 10 * Second * 2 ^ 19.

(** The low 53 bits of a draw, and the mantissa of the jitter they give:
    [(2^53 + bits) / 2] rounded to nearest, ties to even. *)
Definition drawBits (u : N) : Z := Z.of_N u mod 2 ^ 53.

Definition jitterMantissa (u : N) : Z :=
  Z.of_N (roundHalfEven (Z.to_pos (2 ^ 53 + drawBits u)) (-1)).

(** [rand.Float64()*0.5 + 0.5]. *)
Definition jitter (u : N) : spec_float := fadd (fmul (Float64 u) half) half.

End Rounding.

(** ** Strings without a given byte *)

(** The byte [c] occurs nowhere in [s]. *)
Fixpoint free (c : ascii) (s : string) : Prop :=
  match s with
  | EmptyString => True
  | String a r => a <> c /\ free c r
  end.

(** A non-empty string without a space. *)
Definition word (s : string) : Prop := s <> "" /\ free " " s.

(** ** api/handlers: client attribution of the debug handler *)

Module DebugHandler.

Definition clientFields : list string :=
  ["client_id"; "customer_id"; "account_id"; "user_id"; "tenant_id"; "sender_id"].

Section Handler.

Variable webhookMapper : option (gmap string string).

Definition extractClientID (c : Context) (data : gmap string JSON) : string :=
  let webhookID := GetHeader c "Webhook-Id" in
  let mapped :=
    match webhookMapper with
    | Some m => if negb (webhookID =? "")%string
                then GetClientForWebhook m webhookID else None
    | None => None
    end in
  match mapped with
  | Some clientID => clientID
  | None =>
      (* Fallback 1: Use webhook ID as client identifier if available *)
      if negb (webhookID =? "")%string then webhookID
      else
        (* Fallback 2: explicit client identification fields in payload *)
        match firstID data clientFields with
        | Some val => val
        | None => "unknown"
        end
  end.

End Handler.

End DebugHandler.

(** Sample inputs: a process whose broker is down, and two bodies that
    differ in the field that carries the same value. *)
Definition downWorld : World :=
  {| clock := clock quietWorld;
     rateLimiter := RateLimit.NewRateLimiter;
     brokerUp := false;
     published := [] |}.

Definition byEmail : gmap string JSON := {[ "email" := JString "x" ]}.
Definition byCampaign : gmap string JSON := {[ "campaign_id" := JString "x" ]}.

(** ** internal/storage: reading failed events back *)

Module StorageRead.
Import Storage.

Section Query.

(** The driver's decoding of one stored document into a
    [models.WebhookEvent] (by the [bson] tags); [None] is a decoding error. *)
Variable decodeDoc : gmap string BSON -> option WebhookEvent.

(** The filter [{client_id: clientID, status: "failed"}] on the documents
    this adapter writes, where both fields are strings. *)
Definition failedOf (clientID : string) (d : gmap string BSON) : bool :=
  match d !! "client_id", d !! "status" with
  | Some (BString c), Some (BString s) =>
      (c =? clientID)%string && (s =? EventStatusFailed)%string
  | _, _ => false
  end.

(** [cursor.All]: every document decodes, or the call fails. *)
Fixpoint decodeAll (docs : list (gmap string BSON)) : option (list WebhookEvent) :=
  match docs with
  | [] => Some []
  | d :: r =>
      match decodeDoc d, decodeAll r with
      | Some e, Some es => Some (e :: es)
      | _, _ => None
      end
  end.

(** [GetFailedEvents]; [findFails] tells whether [Find] returns an error.
    [None] stands for an error. *)
Definition GetFailedEvents (findFails : bool) (clientID : string)
  : M St (option (list WebhookEvent)) :=
  fun s =>
    if findFails then (None, s)
    else (decodeAll (filter (fun d => failedOf clientID d = true) (collection (db s))), s).

End Query.

(** The update [UpdateEventStatus] applies to the document it matches;
    the instant is stored to the millisecond. *)
Definition statusUpdate (event : WebhookEvent) (status : string) (now : Time)
    (d : gmap string BSON) : gmap string BSON :=
  <["updated_at" := BDateTime (truncMs now)]>
    (<["retry_count" := BInt (RetryCount event)]>
       (<["status" := BString status]> d)).

(** No document carries the given [webhook_id]. *)
Definition unknownID (id : string) (docs : list (gmap string BSON)) : Prop :=
  Forall (fun d => d !! "webhook_id" <> Some (BString id)) docs.

End StorageRead.

(** ** internal/worker: what a delivery is stored as *)

Module Deliveries.
Import Worker Storage.

(** The event a delivery is stored as: decoded, with the header metadata
    and the default status. *)
Definition storedEvent (e0 : WebhookEvent) (msg : Delivery) : WebhookEvent :=
  let e := withHeaders e0 (Headers msg) in
  if (Status e =? "")%string then set_Status e EventStatusPending else e.

Definition clockOf (world : World) : Clock := Storage.clk (store world).
Definition dbOf (world : World) : MongoDB := Storage.db (store world).

(** The decoder honours the [json:"-"] tags of the status and the retry
    count. *)
Definition keepsUntagged (decodeEvent : JSON -> WebhookEvent -> option WebhookEvent)
  : Prop :=
  forall v e e', decodeEvent v e = Some e' ->
    Status e' = Status e /\ RetryCount e' = RetryCount e.

Definition notFailed (d : gmap string BSON) : Prop :=
  d !! "status" <> Some (BString EventStatusFailed).

(** Sample processes and deliveries. *)
Definition healthyWorld : World :=
  {| store := Storage.emptyStore 0; rng := rng failingStore; slept := [] |}.

(** A store that takes insertions and refuses every update. *)
Definition staleStore : World :=
  {| store := {| Storage.db :=
                   {| Storage.collection := [];
                      Storage.insertFails := fun _ => false;
                      Storage.updateFails := fun _ => true;
                      Storage.insertCalls := 0; Storage.updateCalls := 0 |};
                 Storage.clk := {| readings := fun _ => 0; ticks := 0 |} |};
     rng := rng failingStore;
     slept := [] |}.

(** A delivery as the publisher sends it, and a store that has seen its
    identity before. *)
Definition tagged : Delivery :=
  {| Body := Some (JObject ∅);
     Headers := Some {[ "webhook_id" := JString "w1" ]} |}.

Definition seenBefore : World :=
  {| store := {| Storage.db :=
                   {| Storage.collection :=
                        [ <["_id" := BObjectID 0]> {[ "webhook_id" := BString "w1" ]} ];
                      Storage.insertFails := fun _ => false;
                      Storage.updateFails := fun _ => false;
                      Storage.insertCalls := 1; Storage.updateCalls := 0 |};
                 Storage.clk := {| readings := fun _ => 0; ticks := 0 |} |};
     rng := rng failingStore;
     slept := [] |}.

(** Valid JSON that is no object. *)
Definition mistyped : Delivery := {| Body := Some (JString "x"); Headers := None |}.

End Deliveries.

(** ** internal/mapping: the webhook-to-client registry *)

Module Mapping.

(** [strings.Split(s, sep)] for a one-byte separator. *)
Fixpoint splitOn (sep : ascii) (s : string) : list string :=
  match s with
  | EmptyString => [""]
  | String c r =>
      if (c =? sep)%char then "" :: splitOn sep r
      else match splitOn sep r with
           | x :: xs => String c x :: xs
           | [] => [String c ""]
           end
  end.

(** The two tables of the service; [LastUpdated] only feeds the
    statistics and is left out. *)
Record WebhookMapping := {
  WebhookToClient : gmap string string;
  ClientToAPIKey : gmap string string
}.

Definition NewWebhookMappingService : WebhookMapping :=
  {| WebhookToClient := ∅; ClientToAPIKey := ∅ |}.

Record MailerCloudWebhook := { ID : string; Name : string; URL_ : string }.

(** One [client:key] entry; anything that does not split into exactly
    two parts is skipped. *)
Definition parseConfig (config : string) : option (string * string) :=
  match splitOn ":" config with
  | [clientID; apiKey] => Some (clientID, apiKey)
  | _ => None
  end.

Definition addClient (acc : gmap string string) (config : string) : gmap string string :=
  match parseConfig config with
  | Some (clientID, apiKey) => <[clientID := apiKey]> acc
  | None => acc
  end.

Definition bindWebhooks (clientID : string) (acc : gmap string string)
    (webhook : MailerCloudWebhook) : gmap string string :=
  <[ID webhook := clientID]> acc.

(** The clients of the packed string: the local map [clients] of
    [LoadMappingFromEnvironment]. *)
Definition configured (apiKeysEnv : string) : gmap string string :=
  fold_left addClient (splitOn "," apiKeysEnv) ∅.

Section Load.

(** [fetchWebhooksForClient]: what the ESP lists for a client; [None] is
    an error (transport, status or decoding). *)
Variable fetchWebhooksForClient : string -> string -> option (list MailerCloudWebhook).

(** The order in which the runtime ranges over a map. *)
Variable range : gmap string string -> list (string * string).

Definition addWebhooks (acc : gmap string string) (client : string * string)
  : gmap string string :=
  match fetchWebhooksForClient (fst client) (snd client) with
  | None => acc
  | Some webhooks => fold_left (bindWebhooks (fst client)) webhooks acc
  end.

(** [LoadMappingFromEnvironment] on the value of MAILERCLOUD_API_KEYS;
    [false] stands for the error. *)
Definition LoadMappingFromEnvironment (apiKeysEnv : string) (m : WebhookMapping)
  : bool * WebhookMapping :=
  if (apiKeysEnv =? "")%string then (false, m)
  else
    let configs := splitOn "," apiKeysEnv in
    let clients := configured apiKeysEnv in
    let keys := fold_left addClient configs (ClientToAPIKey m) in
    (true,
     {| WebhookToClient := fold_left addWebhooks (range clients) (WebhookToClient m);
        ClientToAPIKey := keys |}).

(** [router.Setup]: the service is created and loaded, an error of the
    load is logged and ignored, and the service is handed to the handler. *)
Definition setupMapper (apiKeysEnv : string) : option (gmap string string) :=
  Some (WebhookToClient
          (snd (LoadMappingFromEnvironment apiKeysEnv NewWebhookMappingService))).

(** The client's fetch succeeds and lists the webhook. *)
Definition lists (webhookID : string) (client : string * string) : bool :=
  match fetchWebhooksForClient (fst client) (snd client) with
  | Some webhooks => bool_decide (webhookID ∈ map ID webhooks)
  | None => false
  end.

End Load.

Definition GetClientForWebhook (m : WebhookMapping) (webhookID : string)
  : option string := GetClientForWebhook (WebhookToClient m) webhookID.

Definition GetAPIKeyForClient (m : WebhookMapping) (clientID : string)
  : option string := ClientToAPIKey m !! clientID.

(** A packed entry. *)
Definition entry (client : string * string) : string :=
  fst client ++ ":" ++ snd client.

(** A name or key that can be packed: it holds neither separator. *)
Definition plain (s : string) : Prop := free "," s /\ free ":" s.

(** A sample environment: two clients; the ESP lists one webhook for
    the first and fails for the second. *)
Definition sampleClients : list (string * string) := [("t1", "k1"); ("t2", "k2")].

Definition esp (clientID apiKey : string) : option (list MailerCloudWebhook) :=
  if (clientID =? "t1")%string
  then Some [ {| ID := "abc123"; Name := "delivered"; URL_ := "https://example.org/webhook" |} ]
  else None.

End Mapping.


(** * Properties *)

(** ** Formatting and backoff arithmetic on samples *)

Example hexStrings_ex : hexStrings ["c"; "a@b"] = "[63 614062]".
Proof. reflexivity. Qed.
Example formatF0_ex : formatF0 (S754_finite false 1700000000 0) = "1700000000".
Proof. reflexivity. Qed.
Example formatF0_half : formatF0 (S754_finite false 5 (-1)) = "2".
Proof. reflexivity. Qed.

Example backoff_first_low :
  Worker.calculateBackoff Worker.NewWorker 1 0 = 5 * Second.
Proof. vm_compute. reflexivity. Qed.
Example backoff_second_low :
  Worker.calculateBackoff Worker.NewWorker 2 0 = 10 * Second.
Proof. vm_compute. reflexivity. Qed.
Example backoff_first_mid :
  Worker.calculateBackoff Worker.NewWorker 1 (2 ^ 52) = 7500000000.
Proof. vm_compute. reflexivity. Qed.
(** On the largest draw the sum [r*0.5 + 0.5] rounds up to one. *)
Example backoff_first_top :
  Worker.calculateBackoff Worker.NewWorker 1 (2 ^ 53 - 1) = 10 * Second.
Proof. vm_compute. reflexivity. Qed.

(** ** Rate limiter *)

Module RateLimitFacts.
Import RateLimit.

Lemma Sub_day (t u : Time) : (24 * Hour <=? Sub t u) = (24 * Hour <=? t - u).
Proof.
  unfold Sub, minInt64, maxInt64, Hour, Second, Nanosecond.
  destruct (Z.ltb_spec (t - u) (- 2 ^ 63)); [ | destruct (Z.ltb_spec (2 ^ 63 - 1) (t - u)) ].
  all: destruct (Z.leb_spec (24 * (3600 * (1000000000 * 1))) (t - u));
    try reflexivity;
    match goal with |- (?a <=? ?b) = _ => destruct (Z.leb_spec a b) end;
    (reflexivity || lia).
Qed.

Lemma incr_small (x : Z) : 0 <= x < 2 ^ 62 -> incr x = x + 1.
Proof.
  intros Hx. unfold incr, wrap64.
  rewrite Z.mod_small; lia.
Qed.

(** [AllowRequest] on a client that already has an entry. *)
Lemma AllowRequest_existing (c : string) (s : St) (l : clientLimit) :
  limits (rl s) !! c = Some l ->
  let now := readings (clk s) (ticks (clk s)) in
  let l1 := rolled now l in
  AllowRequest c s =
    (accepts (rl s) l1,
     {| rl := with_limits (rl s)
                (<[c := if accepts (rl s) l1 then bumped l1 else l1]> (limits (rl s)));
        clk := ticked (clk s) |}).
Proof.
  intros Hl now l1. destruct s as [[m dl wl pl] k]. simpl in *.
  set (r := Build_RateLimiter m dl wl pl).
  unfold AllowRequest, bind, gets, ret, store, modify, time_Now, clock_now. simpl.
  rewrite Hl. simpl. fold now.
  unfold l1, rolled, accepts, with_limits, ticked, bumped, r.
  destruct (24 * Hour <=? Sub now (lastReset l)) eqn:Hroll; simpl.
  - destruct (isPremium l); simpl.
    + destruct (pl <=? webhookCount l); simpl;
        [ reflexivity | by rewrite insert_insert_eq ].
    + destruct (wl <=? webhookCount l); simpl; [ reflexivity | ].
      destruct (dl <=? 0); simpl;
        [ reflexivity | by rewrite insert_insert_eq ].
  - destruct l as [dc lr wc pr]; simpl in *.
    destruct pr; simpl.
    + destruct (pl <=? wc); simpl;
        [ by rewrite insert_id | reflexivity ].
    + destruct (wl <=? wc); simpl; [ by rewrite insert_id | ].
      destruct (dl <=? dc); simpl;
        [ by rewrite insert_id | reflexivity ].
Qed.

(** [AllowRequest] on a client without an entry: the entry is created
    from one clock reading, then the call goes on as for a known client. *)
Lemma AllowRequest_new (c : string) (s : St) :
  limits (rl s) !! c = None ->
  AllowRequest c s =
    AllowRequest c
      {| rl := with_limits (rl s)
                 (<[c := fresh (readings (clk s) (ticks (clk s)))]> (limits (rl s)));
         clk := ticked (clk s) |}.
Proof.
  intros Hl. destruct s as [[m dl wl pl] k]. simpl in *.
  unfold AllowRequest at 1, bind, gets, ret, store, modify, time_Now, clock_now.
  simpl. rewrite Hl. simpl.
  symmetry. erewrite AllowRequest_existing;
    [ | simpl; apply lookup_insert_eq ].
  simpl. unfold with_limits, ticked, fresh, rolled, accepts, bumped. simpl.
  destruct (24 * Hour <=? Sub _ _) eqn:Hroll; simpl;
    destruct (wl <=? 0); simpl; try (destruct (dl <=? 0); simpl);
    rewrite ?insert_insert_eq; reflexivity.
Qed.

Lemma AllowRequest_eq (c : string) (s : St) :
  AllowRequest c s =
    (let (l, k) := lookupOrCreate s c in
     let l1 := rolled (readings k (ticks k)) l in
     (accepts (rl s) l1,
      {| rl := with_limits (rl s)
                 (<[c := if accepts (rl s) l1 then bumped l1 else l1]> (limits (rl s)));
         clk := ticked k |})).
Proof.
  unfold lookupOrCreate. destruct (limits (rl s) !! c) as [l|] eqn:Hl.
  - by apply AllowRequest_existing.
  - rewrite (AllowRequest_new c s Hl).
    erewrite AllowRequest_existing; [ | simpl; apply lookup_insert_eq ].
    simpl. unfold with_limits. simpl. by rewrite insert_insert_eq.
Qed.

Lemma rolled_fields (now : Time) (l : clientLimit) :
  webhookCount (rolled now l) = webhookCount l /\
  isPremium (rolled now l) = isPremium l /\
  (dailyCount (rolled now l) = 0 \/ dailyCount (rolled now l) = dailyCount l).
Proof.
  unfold rolled. destruct (24 * Hour <=? Sub now (lastReset l)); simpl; auto.
Qed.

Lemma invariant_AllowRequest (c : string) (s : St) :
  invariant s -> invariant (snd (AllowRequest c s)).
Proof.
  intros (Hd & Hw & Hp & Hall). rewrite AllowRequest_eq.
  assert (Hent : let (l, k) := lookupOrCreate s c in
            webhookCount l = 0 /\ isPremium l = false /\ 0 <= dailyCount l <= 10000).
  { unfold lookupOrCreate. destruct (limits (rl s) !! c) eqn:E.
    - by apply Hall in E.
    - simpl. lia. }
  destruct (lookupOrCreate s c) as [l k]. destruct Hent as (Hwc & Hpr & Hdc).
  simpl. split; [ assumption | split; [ assumption | split; [ assumption | ] ] ].
  intros k' l' Hk'. simpl in Hk'.
  apply lookup_insert_Some in Hk' as [[_ <-]|[_ Hk']]; [ | by apply Hall in Hk' ].
  destruct (rolled_fields (readings k (ticks k)) l) as (Rw & Rp & Rd);
    unfold accepts; rewrite Rp, Hpr, Rw, Hwc, Hw, Hd; simpl;
    destruct (Z.leb_spec 10000 (dailyCount (rolled (readings k (ticks k)) l)));
    simpl; rewrite ?Rw, ?Rp; repeat split; try assumption; try lia.
  all: rewrite incr_small; lia.
Qed.

Lemma reachable_invariant (s : St) : reachable s -> invariant s.
Proof.
  induction 1 as [k|s c _ IH|s k _ IH].
  - split; [ reflexivity | split; [ reflexivity | split; [ reflexivity | ] ] ].
    intros k' l' Hk'. simpl in Hk'. by rewrite lookup_empty in Hk'.
  - by apply invariant_AllowRequest.
  - exact IH.
Qed.

(** C10. In every reachable limiter state no entry is premium and every
    entry has a webhook count of zero, so neither the premium branch nor
    the registration-cap rejection of [AllowRequest] can be taken (the
    same holds after any further call, which yields a reachable state),
    and [AllowRequest] answers [false] exactly when the daily count it
    compares, after a possible window reset, has reached 10000. *)
Theorem C10_only_daily_cap_rejects (s : St) (c : string) :
  reachable s ->
  (forall k l, limits (rl s) !! k = Some l ->
     isPremium l = false /\ webhookCount l = 0 /\
     webhookCount l < freePlan_webhookLimit (rl s)) /\
  reachable (snd (AllowRequest c s)) /\
  (fst (AllowRequest c s) = false <-> 10000 <= windowCount s c) /\
  (fst (AllowRequest c s) = false <-> windowCount s c = 10000).
Proof.
  intros Hr. pose proof (reachable_invariant s Hr) as (Hd & Hw & Hp & Hall).
  split; [ | split; [ by constructor | ] ].
  - intros k l Hk. apply Hall in Hk as (? & ? & ?). rewrite Hw.
    repeat split; (assumption || lia).
  - rewrite AllowRequest_eq. unfold windowCount.
    assert (Hent : let (l, k) := lookupOrCreate s c in
              webhookCount l = 0 /\ isPremium l = false /\ 0 <= dailyCount l <= 10000).
    { unfold lookupOrCreate. destruct (limits (rl s) !! c) eqn:E.
      - by apply Hall in E.
      - simpl. lia. }
    destruct (lookupOrCreate s c) as [l k]. destruct Hent as (Hwc & Hpr & Hdc).
    destruct (rolled_fields (readings k (ticks k)) l) as (Rw & Rp & Rd).
    simpl. unfold accepts. rewrite Rp, Hpr, Rw, Hwc, Hw, Hd. simpl.
    destruct (Z.leb_spec 10000 (dailyCount (rolled (readings k (ticks k)) l)));
      simpl; split; split; intros; (reflexivity || discriminate || lia).
Qed.

Lemma rolled_open (now : Time) (l : clientLimit) :
  now - lastReset l < 24 * Hour -> rolled now l = l.
Proof.
  intros H. unfold rolled. rewrite Sub_day.
  destruct (Z.leb_spec (24 * Hour) (now - lastReset l)); [ lia | done ].
Qed.

Lemma rolled_over (now : Time) (l : clientLimit) :
  24 * Hour <= now - lastReset l ->
  rolled now l = {| dailyCount := 0; lastReset := now;
                    webhookCount := webhookCount l; isPremium := isPremium l |}.
Proof.
  intros H. unfold rolled. rewrite Sub_day.
  destruct (Z.leb_spec (24 * Hour) (now - lastReset l)); [ done | lia ].
Qed.

Lemma calls_app (c : string) (n m : nat) (s : St) :
  calls (n + m) c s =
    (let (bs, s1) := calls n c s in
     let (bs', s2) := calls m c s1 in ((bs ++ bs')%list, s2)).
Proof.
  revert s. induction n as [|n IH]; intros s; simpl.
  - unfold ret. by destruct (calls m c s).
  - unfold bind, ret. destruct (AllowRequest c s) as [b s1].
    rewrite IH. destruct (calls n c s1) as [bs s2].
    by destruct (calls m c s2).
Qed.

(** While the window is open and the cap is not reached, every request
    of a default-tier client is accepted and counted. *)
Lemma calls_in_window (c : string) (n : nat) :
  forall (s : St) (l : clientLimit),
    limits (rl s) !! c = Some l ->
    isPremium l = false ->
    webhookCount l < freePlan_webhookLimit (rl s) ->
    0 <= dailyCount l ->
    dailyCount l + Z.of_nat n <= freePlan_dailyLimit (rl s) < 2 ^ 62 ->
    (forall i, (i < n)%nat ->
       readings (clk s) (ticks (clk s) + i) - lastReset l < 24 * Hour) ->
    calls n c s =
      (repeat true n,
       {| rl := with_limits (rl s)
                  (<[c := {| dailyCount := dailyCount l + Z.of_nat n;
                             lastReset := lastReset l;
                             webhookCount := webhookCount l;
                             isPremium := false |}]> (limits (rl s)));
          clk := {| readings := readings (clk s);
                    ticks := ticks (clk s) + n |} |}).
Proof.
  induction n as [|n IH]; intros s l Hl Hpr Hwc Hdc Hcap Hwin.
  - simpl. unfold ret. f_equal.
    destruct s as [[m dl wl pl] [rd tk]], l as [dc lr wc pr]; simpl in *.
    subst pr. unfold with_limits; simpl.
    rewrite Z.add_0_r, Nat.add_0_r. by rewrite insert_id.
  - simpl. unfold bind, ret.
    rewrite (AllowRequest_existing c s l Hl). simpl.
    assert (Hroll : rolled (readings (clk s) (ticks (clk s))) l = l).
    { unfold rolled. rewrite Sub_day.
      specialize (Hwin O ltac:(lia)). rewrite Nat.add_0_r in Hwin.
      destruct (Z.leb_spec (24 * Hour)
                  (readings (clk s) (ticks (clk s)) - lastReset l)); [ lia | done ]. }
    rewrite Hroll.
    assert (Hacc : accepts (rl s) l = true).
    { unfold accepts. rewrite Hpr.
      destruct (Z.leb_spec (freePlan_webhookLimit (rl s)) (webhookCount l)); [ lia | ].
      destruct (Z.leb_spec (freePlan_dailyLimit (rl s)) (dailyCount l)); [ lia | done ]. }
    rewrite Hacc.
    erewrite (IH _ (bumped l)); simpl.
    + f_equal. f_equal; [ | f_equal; lia ].
      unfold with_limits; simpl. rewrite insert_insert_eq.
      do 2 f_equal. rewrite incr_small by lia. f_equal. lia.
    + apply lookup_insert_eq.
    + assumption.
    + assumption.
    + rewrite incr_small by lia. lia.
    + rewrite incr_small by lia. lia.
    + intros i Hi. specialize (Hwin (S i) ltac:(lia)).
      by rewrite Nat.add_succ_r in Hwin.
Qed.

(** The cap as a parameter: [cap] accepted requests, then a refusal, then
    acceptance again once the window has rolled. *)
Lemma cap_run (s : St) (c : string) (cap : nat) :
  freePlan_dailyLimit (rl s) = Z.of_nat cap -> 0 < Z.of_nat cap < 2 ^ 62 ->
  freePlan_webhookLimit (rl s) = 20 ->
  limits (rl s) !! c = None ->
  let t0 := readings (clk s) (ticks (clk s)) in
  (forall i, (i <= cap)%nat ->
     readings (clk s) (S (ticks (clk s)) + i) - t0 < 24 * Hour) ->
  let r := calls (cap + 1) c s in
  let later := readings (clk (snd r)) (ticks (clk (snd r))) in
  fst r = (repeat true cap ++ [false])%list /\
  limits (rl (snd r)) !! c = Some {| dailyCount := Z.of_nat cap; lastReset := t0;
                                     webhookCount := 0; isPremium := false |} /\
  (24 * Hour <= later - t0 ->
   fst (AllowRequest c (snd r)) = true /\
   limits (rl (snd (AllowRequest c (snd r)))) !! c =
     Some {| dailyCount := 1; lastReset := later;
             webhookCount := 0; isPremium := false |}).
Proof.
  intros Hd Hlt Hw Hnone t0 Hwin.
  set (s1 := {| rl := with_limits (rl s) (<[c := fresh t0]> (limits (rl s)));
                clk := ticked (clk s) |}).
  assert (Hnew : calls (cap + 1) c s = calls (cap + 1) c s1).
  { assert (Hcap : (cap + 1)%nat = S cap) by lia. rewrite Hcap. simpl.
    unfold bind. by rewrite (AllowRequest_new c s Hnone). }
  assert (Hrun : calls cap c s1 =
            (repeat true cap,
             {| rl := with_limits (rl s1)
                        (<[c := {| dailyCount := Z.of_nat cap; lastReset := t0;
                                   webhookCount := 0; isPremium := false |}]>
                           (limits (rl s1)));
                clk := {| readings := readings (clk s1);
                          ticks := ticks (clk s1) + cap |} |})).
  { erewrite (calls_in_window c cap s1 (fresh t0)); simpl.
    - reflexivity.
    - apply lookup_insert_eq.
    - reflexivity.
    - rewrite Hw. lia.
    - lia.
    - rewrite Hd. lia.
    - intros i Hi. apply Hwin. lia. }
  intros r later. subst r later. rewrite Hnew, calls_app, Hrun.
  set (l := {| dailyCount := Z.of_nat cap; lastReset := t0;
               webhookCount := 0; isPremium := false |}).
  set (s2 := {| rl := _; clk := _ |}).
  assert (Hl2 : limits (rl s2) !! c = Some l) by apply lookup_insert_eq.
  assert (Hlast : AllowRequest c s2 =
            (false, {| rl := rl s2; clk := ticked (clk s2) |})).
  { rewrite (AllowRequest_existing c s2 l Hl2). simpl.
    rewrite rolled_open
      by (specialize (Hwin cap ltac:(lia)); simpl in Hwin; exact Hwin).
    unfold accepts. simpl. rewrite Hw, Hd. simpl.
    rewrite Z.leb_refl. simpl. f_equal. f_equal. unfold with_limits. simpl.
    rewrite insert_id by apply lookup_insert_eq.
    rewrite insert_insert_eq. reflexivity. }
  simpl. unfold bind, ret. rewrite Hlast. simpl.
  split; [ reflexivity | split; [ apply lookup_insert_eq | ] ].
  intros Hlate.
  set (s3 := {| rl := _; clk := _ |}).
  assert (Hl3 : limits (rl s3) !! c = Some l) by apply lookup_insert_eq.
  rewrite (AllowRequest_existing c s3 l Hl3). simpl.
  rewrite rolled_over by exact Hlate. simpl.
  unfold accepts. simpl. rewrite Hw, Hd. simpl.
  destruct (Z.leb_spec (Z.of_nat cap) 0) as [Hz|Hz]; [ lia | ]; simpl.
  split; [ reflexivity | ]. rewrite lookup_insert_eq. reflexivity.
Qed.

(** The limiter alone: of [10001] calls for a tenant it has not seen,
    all inside the 24 hours that follow the first, the first [10000]
    return [true] and the next one [false], the counter standing at
    10000.  A call made once 24 hours have elapsed since the anchor puts
    the counter back to zero and returns [true] (the counter then reads
    1). *)
Lemma daily_cap_calls (s : St) (c : string) :
  freePlan_dailyLimit (rl s) = 10000 ->
  freePlan_webhookLimit (rl s) = 20 ->
  limits (rl s) !! c = None ->
  let t0 := readings (clk s) (ticks (clk s)) in
  let cap := Z.to_nat 10000 in
  (forall i, (i <= cap)%nat ->
     readings (clk s) (S (ticks (clk s)) + i) - t0 < 24 * Hour) ->
  let r := calls (cap + 1) c s in
  let later := readings (clk (snd r)) (ticks (clk (snd r))) in
  fst r = (repeat true cap ++ [false])%list /\
  limits (rl (snd r)) !! c = Some {| dailyCount := 10000; lastReset := t0;
                                     webhookCount := 0; isPremium := false |} /\
  (24 * Hour <= later - t0 ->
   fst (AllowRequest c (snd r)) = true /\
   limits (rl (snd (AllowRequest c (snd r)))) !! c =
     Some {| dailyCount := 1; lastReset := later;
             webhookCount := 0; isPremium := false |}).
Proof.
  intros Hd Hw Hnone t0 cap Hwin.
  assert (Hcap : Z.of_nat cap = 10000) by (unfold cap; apply Z2Nat.id; lia).
  rewrite <- Hcap in Hd.
  pose proof (cap_run s c cap Hd ltac:(lia) Hw Hnone Hwin) as Hrun.
  rewrite Hcap in Hrun. exact Hrun.
Qed.

(** C10 in the initial state. *)
Lemma C10_only_daily_cap_rejects_witness :
  reachable (idle 0) /\
  (fst (AllowRequest "t1" (idle 0)) = false <-> windowCount (idle 0) "t1" = 10000).
Proof.
  split; [ apply reach_new | ].
  apply (C10_only_daily_cap_rejects (idle 0) "t1"). apply reach_new.
Defined.

(** C5, as stated, fails: a tenant whose first event arrives at noon gets
    a window anchored at noon, not at the preceding UTC midnight; a second
    event at the next midnight, 24 hours after the midnight of the first
    event, does not reset the window. *)
Lemma C5_anchor_is_not_midnight :
  let s1 := snd (AllowRequest "t1" (idle (12 * Hour))) in
  let s2 := snd (AllowRequest "t1"
                   {| rl := rl s1;
                      clk := {| readings := fun _ => 24 * Hour; ticks := 0 |} |}) in
  utcMidnight (12 * Hour) = 0 /\
  lastReset <$> (limits (rl s1) !! "t1") = Some (12 * Hour) /\
  lastReset <$> (limits (rl s1) !! "t1") <> Some (utcMidnight (12 * Hour)) /\
  24 * Hour <= 24 * Hour - utcMidnight (12 * Hour) /\
  limits (rl s2) !! "t1" = Some {| dailyCount := 2; lastReset := 12 * Hour;
                                   webhookCount := 0; isPremium := false |}.
Proof.
  vm_compute. repeat split; try reflexivity; intros H; discriminate H.
Qed.

(** C5, amended. The window a tenant's first event creates is anchored at
    the instant of that event (the clock reading taken when the entry is
    created; should 24 hours pass before the next reading of the same
    call, at that reading).  For a known tenant the window is reset
    exactly when 24 hours or more have elapsed since the anchor: then the
    anchor becomes the current instant and the count restarts from zero;
    otherwise anchor and count carry on. *)
Theorem C5_window_anchor (s : St) (c : string) :
  (limits (rl s) !! c = None ->
   let t0 := readings (clk s) (ticks (clk s)) in
   let now := readings (clk s) (S (ticks (clk s))) in
   lastReset <$> (limits (rl (snd (AllowRequest c s))) !! c)
     = Some (if 24 * Hour <=? now - t0 then now else t0)) /\
  (forall l, limits (rl s) !! c = Some l ->
   let now := readings (clk s) (ticks (clk s)) in
   let ok := fst (AllowRequest c s) in
   let l' := limits (rl (snd (AllowRequest c s))) !! c in
   (24 * Hour <= now - lastReset l ->
      lastReset <$> l' = Some now /\
      dailyCount <$> l' = Some (if ok then incr 0 else 0)) /\
   (now - lastReset l < 24 * Hour ->
      lastReset <$> l' = Some (lastReset l) /\
      dailyCount <$> l' = Some (if ok then incr (dailyCount l) else dailyCount l))).
Proof.
  split.
  - intros Hnone t0 now. rewrite (AllowRequest_new c s Hnone).
    erewrite AllowRequest_existing; [ | simpl; apply lookup_insert_eq ].
    simpl. rewrite lookup_insert_eq. simpl. fold t0 now.
    unfold rolled. rewrite Sub_day. simpl.
    destruct (24 * Hour <=? now - t0); simpl;
      destruct (accepts _ _); reflexivity.
  - intros l Hl now ok l'. subst ok l'.
    rewrite (AllowRequest_existing c s l Hl). simpl. fold now.
    rewrite lookup_insert_eq. simpl. split; intros Hw.
    + rewrite rolled_over by exact Hw.
      destruct (accepts _ _); split; reflexivity.
    + rewrite rolled_open by exact Hw.
      destruct (accepts _ _); split; reflexivity.
Qed.

(** C5 for a first event at noon: the anchor is noon. *)
Lemma C5_window_anchor_witness :
  limits (rl (idle (12 * Hour))) !! "t1" = None /\
  lastReset <$> (limits (rl (snd (AllowRequest "t1" (idle (12 * Hour))))) !! "t1")
    = Some (12 * Hour).
Proof.
  split; [ reflexivity | ].
  exact (proj1 (C5_window_anchor (idle (12 * Hour)) "t1") eq_refl).
Defined.

End RateLimitFacts.

(** ** Ingress *)

Section IngressFacts.

Variable cfg : SecurityConfig.
Variable webhookMapper : option (gmap string string).

(** A bind leaves the method and the headers alone, and of the body what
    its decoder has not read. *)
Lemma ShouldBindJSON_rest (c : Context) :
  Body (snd (ShouldBindJSON c)) = snd (readBody (Body c)) /\
  Method (snd (ShouldBindJSON c)) = Method c /\
  Header (snd (ShouldBindJSON c)) = Header c.
Proof.
  unfold ShouldBindJSON.
  destruct (readBody (Body c)) as [[[]|] rest]; simpl; auto.
Qed.

(** What a bind yields is what its decoder has read. *)
Lemma ShouldBindJSON_object (c : Context) (m : gmap string JSON) :
  fst (readBody (Body c)) = Some (JObject m) -> fst (ShouldBindJSON c) = Some m.
Proof.
  unfold ShouldBindJSON. destruct (readBody (Body c)) as [p rest]. simpl.
  by intros ->.
Qed.

Lemma minimalPayload_true (m : gmap string JSON) :
  (m = ∅ \/ (size m = 1%nat /\ exists v, m !! "test" = Some v /\ v <> JNull)) ->
  minimalPayload m = true.
Proof.
  unfold minimalPayload, indexNotNil. intros [->|(Hs & v & Hv & Hn)].
  - reflexivity.
  - rewrite Hs, Hv. simpl. by destruct v.
Qed.

(** C1, amended. A POST /webhook whose [Webhook-Id] header is
    ["WebhookID"], or whose [User-Agent] is ["MailerCloud"], or whose body
    is (as far as the route's bind reads it) a JSON object that is empty
    or has exactly one field, named ["test"], with a value other than
    [null], is answered 200 with [success: true]; nothing else happens:
    no event is published and the rate limiter is not consulted (the
    state is left as it was). *)
Theorem C1_validation_probe (handler : Context -> M World Response)
    (c : Context) (w : World) :
  (GetHeader c "Webhook-Id" = "WebhookID"
   \/ GetHeader c "User-Agent" = "MailerCloud"
   \/ exists m, fst (readBody (Body c)) = Some (JObject m) /\
        (m = ∅ \/ (size m = 1%nat /\ exists v, m !! "test" = Some v /\ v <> JNull))) ->
  let r := webhookPOST cfg handler c w in
  StatusCode (fst r) = 200 /\
  H (fst r) !! "success" = Some (JBool true) /\
  published (snd r) = published w /\
  rateLimiter (snd r) = rateLimiter w /\
  r = (validationResponse, w).
Proof.
  intros Hprobe r.
  assert (Hr : r = (validationResponse, w)).
  { subst r. unfold webhookPOST.
    destruct (ShouldBindJSON c) as [bound c'] eqn:Hbind.
    destruct Hprobe as [Hid|[Hua|(m & Hbody & Hm)]].
    - rewrite Hid. simpl. by destruct bound as [m|]; [ destruct (minimalPayload m) | ].
    - rewrite Hua. rewrite orb_true_r.
      by destruct bound as [m|]; [ destruct (minimalPayload m) | ].
    - apply ShouldBindJSON_object in Hbody. rewrite Hbind in Hbody.
      simpl in Hbody. subst bound. by rewrite (minimalPayload_true m Hm). }
  rewrite Hr. by vm_compute.
Qed.

End IngressFacts.

(** C1 for a body whose only field, test, is true, without probe headers. *)
Lemma C1_validation_probe_witness :
  let c := post [] (Some (JObject {[ "test" := JBool true ]})) in
  GetHeader c "Webhook-Id" <> "WebhookID" /\
  webhookPOST noKeys (HandleWebhook registry) c quietWorld
    = (validationResponse, quietWorld).
Proof.
  split; [ intros H; vm_compute in H; discriminate H | ].
  apply (C1_validation_probe noKeys (HandleWebhook registry)).
  right; right. exists {[ "test" := JBool true ]}. split; [ reflexivity | ].
  right. split; [ reflexivity | ]. exists (JBool true).
  split; [ reflexivity | intros H; discriminate H ].
Defined.

(** C1, as stated, fails: a body with exactly one field named ["test"]
    whose value is [null] is not taken for a probe.  Without headers the
    request is answered 401; with a vendor [Webhook-Id] it goes to the
    handler. *)
Lemma C1_null_test_field_not_probe :
  let m : gmap string JSON := {[ "test" := JNull ]} in
  let c := post [] (Some (JObject m)) in
  (size m = 1%nat /\ is_Some (m !! "test")) /\
  fst (webhookPOST noKeys (HandleWebhook registry) c quietWorld)
    = respond 401 [("error", JString "Missing API key")] /\
  StatusCode (fst (webhookPOST noKeys (HandleWebhook registry) c quietWorld)) <> 200.
Proof.
  vm_compute. repeat split; try reflexivity; [ by eexists | intros H; discriminate H ].
Qed.

(** *** The vendor webhook branch *)

(** A handler that is handed a request whose body has already been read
    answers 400 and does nothing else. *)
Lemma HandleWebhook_drained (mapper : option (gmap string string))
    (c : Context) (w : World) :
  (Method c =? "GET")%string = false ->
  Body c = Drained ->
  HandleWebhook mapper c w
    = (respond 400 [("error", JString "Invalid JSON payload")], snd (time_Now w)).
Proof.
  intros Hm Hb. unfold HandleWebhook, bind, time_Now. simpl.
  rewrite Hm. unfold ShouldBindJSON. rewrite Hb. reflexivity.
Qed.

(** The body of [vendorRequest] followed by more bytes: the route's bind
    reads the first value only, the handler binds what follows it, and
    the event is accepted and published. *)
Example long_body_reaches_handler :
  let r := webhookPOST noKeys (HandleWebhook registry) longRequest quietWorld in
  StatusCode (fst r) = 200 /\
  H (fst r) !! "message" = Some (JString "Event accepted") /\
  length (published (snd r)) = 1%nat.
Proof. vm_compute. repeat split; reflexivity. Qed.

(** X25. For a request whose body the route's bind reads to its end (a
    body that holds one JSON text, bytes that are none, or nothing), the
    POST route with the production handler publishes nothing and leaves
    the rate limiter alone: the handler binds the body again and finds it
    at end of file. *)
Lemma webhookPOST_never_publishes (cfg : SecurityConfig)
    (mapper : option (gmap string string)) (c : Context) (w : World) :
  (Method c =? "GET")%string = false ->
  snd (readBody (Body c)) = Drained ->
  let r := webhookPOST cfg (HandleWebhook mapper) c w in
  published (snd r) = published w /\
  rateLimiter (snd r) = rateLimiter w /\
  (fst r = validationResponse \/ StatusCode (fst r) = 400 \/ StatusCode (fst r) = 401).
Proof.
  intros Hm Hone r. subst r. unfold webhookPOST.
  pose proof (ShouldBindJSON_rest c) as (Hb & Hm' & _).
  rewrite Hone in Hb.
  destruct (ShouldBindJSON c) as [bound c']. simpl in Hb, Hm'.
  rewrite <- Hm' in Hm.
  match goal with
  | |- context [if ?b then ret validationResponse else _] => destruct b
  end; [ simpl; auto | ].
  destruct (negb _ && negb _).
  { rewrite (HandleWebhook_drained mapper c' w Hm Hb). simpl. auto. }
  destruct (GetHeader c' (APIKeyHeader cfg) =? "")%string; [ simpl; auto | ].
  destruct (negb (existsb _ _)); [ simpl; auto | ].
  rewrite (HandleWebhook_drained mapper c' w Hm Hb). simpl. auto.
Qed.

(** C2. Scenario 3 of the spec run through the POST route: the request
    reaches the handler without an API key being asked for, but the
    handler finds the body already read, answers 400, and no event is
    published. *)
Theorem C2_vendor_webhook_rejected :
  let r := webhookPOST noKeys (HandleWebhook registry) vendorRequest quietWorld in
  fst r = respond 400 [("error", JString "Invalid JSON payload")] /\
  StatusCode (fst r) = 400 /\
  published (snd r) = [] /\
  rateLimiter (snd r) = RateLimit.NewRateLimiter.
Proof. vm_compute. repeat split; reflexivity. Qed.

(** The same request given to the handler with its body still unread
    (what the route's "reset the request body" step is meant to achieve):
    200, one event published, attributed to [t1], with the composite
    identity and the event name of the body. *)
Lemma HandleWebhook_vendor_unread :
  let r := HandleWebhook registry vendorRequest quietWorld in
  StatusCode (fst r) = 200 /\
  exists e, published (snd r) = [e] /\
    ClientID e = "t1" /\
    WebhookID e = "mc_[63 614062 31373030303030303030 64656c697665726564]" /\
    Event e = "delivered" /\
    Timestamp e = 1700000000.
Proof.
  vm_compute. split; [ reflexivity | ].
  eexists. split; [ reflexivity | ]. repeat split; reflexivity.
Qed.

(** A request the limiter refuses is answered 429 and not published. *)
Lemma HandleWebhook_rate_limited (mapper : option (gmap string string))
    (c : Context) (data : gmap string JSON) (w : World) :
  (Method c =? "GET")%string = false ->
  Body c = Unread (Some (JObject data)) ->
  (UserAgent c =? "MailerCloud")%string = false ->
  fst (AllowRequest (extractClientID mapper c data) (snd (time_Now w))) = false ->
  let r := HandleWebhook mapper c w in
  StatusCode (fst r) = 429 /\ published (snd r) = published w.
Proof.
  intros Hm Hb Hua Hno r. subst r.
  unfold HandleWebhook, bind. destruct (time_Now w) as [start w1] eqn:Hw1.
  rewrite Hm. unfold ShouldBindJSON. rewrite Hb. cbn [readBody].
  change (UserAgent {| Method := Method c; Header := Header c; Body := Drained |})
    with (UserAgent c). rewrite Hua.
  change (extractClientID mapper
            {| Method := Method c; Header := Header c; Body := Drained |} data)
    with (extractClientID mapper c data).
  simpl in Hno.
  destruct (AllowRequest (extractClientID mapper c data) w1) as [ok w2] eqn:Hal.
  simpl in Hno. subst ok. simpl. split; [ reflexivity | ].
  unfold AllowRequest, zoom in Hal.
  destruct (RateLimit.AllowRequest _ _) as [b st] in Hal.
  injection Hal as _ <-. simpl.
  unfold time_Now in Hw1. destruct (clock_now (clock w)). by injection Hw1 as _ <-.
Qed.


(** *** The daily cap, seen from the handler *)

Section DailyCap.

Variable mapper : option (gmap string string).

(** [AllowRequest] of the handler's limiter, on the process state. *)
Lemma AllowRequest_world (t : string) (w : World) :
  AllowRequest t w =
    (let (l, k) := RateLimit.lookupOrCreate
                     {| RateLimit.rl := rateLimiter w; RateLimit.clk := clock w |} t in
     let l1 := RateLimit.rolled (readings k (ticks k)) l in
     (RateLimit.accepts (rateLimiter w) l1,
      {| clock := RateLimit.ticked k;
         rateLimiter :=
           RateLimit.with_limits (rateLimiter w)
             (<[t := if RateLimit.accepts (rateLimiter w) l1
                     then RateLimit.bumped l1 else l1]>
                (RateLimit.limits (rateLimiter w)));
         brokerUp := brokerUp w; published := published w |})).
Proof.
  unfold AllowRequest, zoom. rewrite RateLimitFacts.AllowRequest_eq.
  destruct (RateLimit.lookupOrCreate _ t) as [l k]. reflexivity.
Qed.

Lemma generateWebhookID_state (data : gmap string JSON) (w : World) :
  snd (generateWebhookID data w) = w \/
  snd (generateWebhookID data w) = snd (time_Now w).
Proof.
  unfold generateWebhookID. destruct (firstID data idFields); [ by left | ].
  destruct (components data); [ right | by left ].
  unfold bind, ret. by destruct (time_Now w).
Qed.

(** One event request: the limiter is asked once, after one reading of
    the clock; the request is accepted and published, or refused with 429. *)
Lemma HandleWebhook_event (t : string) (c : Context) (w : World) :
  eventOf mapper t c -> brokerUp w = true ->
  let a := AllowRequest t (snd (time_Now w)) in
  let r := HandleWebhook mapper c w in
  readings (clock (snd r)) = readings (clock (snd a)) /\
  (ticks (clock (snd a)) <= ticks (clock (snd r)))%nat /\
  brokerUp (snd r) = true /\
  rateLimiter (snd r) = rateLimiter (snd a) /\
  if fst a
  then exists e, fst r = eventAccepted (WebhookID e) t /\
                 published (snd r) = (published w ++ [e])%list /\ ClientID e = t
  else fst r = rateLimitExceeded /\ published (snd r) = published w.
Proof.
  intros (Hm & Hua & data & Hdata & Hcid) Hup a r. subst a r.
  unfold HandleWebhook, bind.
  destruct (time_Now w) as [start w1] eqn:Hw1. cbn [snd].
  assert (Hw1' : published w1 = published w /\ brokerUp w1 = true).
  { unfold time_Now in Hw1. destruct (clock_now (clock w)).
    injection Hw1 as _ <-. by split. }
  destruct Hw1' as (Hp1 & Hb1).
  rewrite Hm.
  pose proof (ShouldBindJSON_rest c) as (_ & _ & Hh).
  destruct (ShouldBindJSON c) as [bound c'] eqn:Hbind. cbn [fst snd] in Hdata, Hh.
  subst bound.
  assert (Hua' : UserAgent c' = UserAgent c) by (unfold UserAgent, GetHeader; by rewrite Hh).
  assert (Hcid' : extractClientID mapper c' data = t)
    by (rewrite <- Hcid; unfold extractClientID, GetHeader; by rewrite Hh).
  rewrite Hua', Hua, Hcid'.
  rewrite (AllowRequest_world t w1).
  destruct (RateLimit.lookupOrCreate _ t) as [l k]. cbv zeta.
  destruct (RateLimit.accepts (rateLimiter w1) _) eqn:Hacc; cbn [fst snd negb].
  2: { unfold ret. cbn [fst snd clock brokerUp rateLimiter published].
       repeat split; auto. }
  set (w2 := {| clock := RateLimit.ticked k; rateLimiter := _;
                brokerUp := brokerUp w1; published := published w1 |}).
  assert (Hgen : exists n,
            clock (snd (generateWebhookID data w2))
              = {| readings := readings (clock w2); ticks := ticks (clock w2) + n |} /\
            rateLimiter (snd (generateWebhookID data w2)) = rateLimiter w2 /\
            brokerUp (snd (generateWebhookID data w2)) = brokerUp w2 /\
            published (snd (generateWebhookID data w2)) = published w2).
  { destruct (generateWebhookID_state data w2) as [->| ->].
    - exists O. rewrite Nat.add_0_r. by destruct (clock w2).
    - exists 1%nat. unfold time_Now, clock_now. cbn. rewrite Nat.add_1_r. auto. }
  destruct Hgen as (n & Hc3 & Hr3 & Hb3 & Hp3).
  destruct (generateWebhookID data w2) as [wid w3]. subst w2.
  cbn [snd clock rateLimiter brokerUp published] in Hc3, Hr3, Hb3, Hp3.
  unfold time_Now at 1, clock_now. cbn [fst snd].
  unfold Publish. cbn [brokerUp]. rewrite Hb3, Hb1.
  unfold bind, ret, time_Now, clock_now.
  cbn [fst snd negb clock rateLimiter brokerUp published readings ticks].
  rewrite ?Hb3, ?Hb1.
  cbn [fst snd negb clock rateLimiter brokerUp published readings ticks].
  rewrite Hc3, Hr3, Hp3. cbn [readings ticks clock rateLimiter published].
  destruct (negb _ && negb _);
    cbn [fst snd negb clock rateLimiter brokerUp published readings ticks];
    (split; [ reflexivity | ]); (split; [ lia | ]); (split; [ reflexivity | ]);
    (split; [ reflexivity | ]);
    eexists; (split; [ reflexivity | ]); rewrite Hp1; split; reflexivity.
Qed.

(** The limiter's verdict on a client it knows, one reading of the clock
    after the handler's own. *)
Lemma allow_counting (t : string) (w : World) (k : Z) (t0 : Time) :
  RateLimit.limits (rateLimiter w) !! t = Some (RateLimit.counting k t0) ->
  RateLimit.freePlan_dailyLimit (rateLimiter w) = 10000 ->
  RateLimit.freePlan_webhookLimit (rateLimiter w) = 20 ->
  let now := readings (clock w) (S (ticks (clock w))) in
  let a := AllowRequest t (snd (time_Now w)) in
  clock (snd a) = {| readings := readings (clock w);
                     ticks := S (S (ticks (clock w))) |} /\
  brokerUp (snd a) = brokerUp w /\
  RateLimit.freePlan_dailyLimit (rateLimiter (snd a)) = 10000 /\
  RateLimit.freePlan_webhookLimit (rateLimiter (snd a)) = 20 /\
  (now - t0 < 24 * Hour -> 0 <= k < 10000 ->
     fst a = true /\
     RateLimit.limits (rateLimiter (snd a)) !! t = Some (RateLimit.counting (k + 1) t0)) /\
  (now - t0 < 24 * Hour -> k = 10000 ->
     fst a = false /\ rateLimiter (snd a) = rateLimiter w) /\
  (24 * Hour <= now - t0 -> 0 < 10000 ->
     fst a = true /\
     RateLimit.limits (rateLimiter (snd a)) !! t = Some (RateLimit.counting 1 now)).
Proof.
  intros Hl Hd Hw now a. subst now a.
  rewrite AllowRequest_world.
  unfold time_Now, clock_now. cbn [snd clock rateLimiter brokerUp published].
  unfold RateLimit.lookupOrCreate. cbn [RateLimit.rl RateLimit.clk]. rewrite Hl.
  cbv zeta. cbn [fst snd clock rateLimiter brokerUp readings ticks].
  unfold RateLimit.ticked. cbn [readings ticks].
  split; [ reflexivity | ]. split; [ reflexivity | ].
  split; [ exact Hd | ]. split; [ exact Hw | ].
  split; [ | split ].
  - intros Hopen Hk.
    rewrite RateLimitFacts.rolled_open by exact Hopen.
    unfold RateLimit.accepts. cbn [RateLimit.counting RateLimit.isPremium
      RateLimit.webhookCount RateLimit.dailyCount]. rewrite Hw, Hd.
    destruct (Z.leb_spec 10000 k); [ lia | ]. cbn [negb andb Z.leb].
    change (20 <=? 0) with false. cbn [negb andb].
    split; [ reflexivity | ]. cbn [RateLimit.with_limits RateLimit.limits].
    rewrite lookup_insert_eq. unfold RateLimit.bumped, RateLimit.counting.
    cbn [RateLimit.dailyCount RateLimit.lastReset RateLimit.webhookCount
         RateLimit.isPremium].
    rewrite RateLimitFacts.incr_small by lia. reflexivity.
  - intros Hopen ->.
    rewrite RateLimitFacts.rolled_open by exact Hopen.
    unfold RateLimit.accepts. cbn [RateLimit.counting RateLimit.isPremium
      RateLimit.webhookCount RateLimit.dailyCount]. rewrite Hw, Hd.
    change (20 <=? 0) with false. change (10000 <=? 10000) with true.
    cbn [negb andb]. split; [ reflexivity | ].
    rewrite insert_id by exact Hl.
    by destruct (rateLimiter w).
  - intros Hover _.
    rewrite RateLimitFacts.rolled_over by exact Hover.
    unfold RateLimit.accepts. cbn [RateLimit.counting RateLimit.isPremium
      RateLimit.webhookCount RateLimit.dailyCount RateLimit.lastReset]. rewrite Hw, Hd.
    change (20 <=? 0) with false. change (10000 <=? 0) with false.
    cbn [negb andb]. split; [ reflexivity | ].
    cbn [RateLimit.with_limits RateLimit.limits].
    rewrite lookup_insert_eq. reflexivity.
Qed.

(** The limiter's verdict on a client it does not know yet: the window
    is anchored at the reading taken for the new entry. *)
Lemma allow_first (t : string) (w : World) :
  RateLimit.limits (rateLimiter w) !! t = None ->
  RateLimit.freePlan_dailyLimit (rateLimiter w) = 10000 ->
  RateLimit.freePlan_webhookLimit (rateLimiter w) = 20 ->
  let t0 := readings (clock w) (S (ticks (clock w))) in
  let now := readings (clock w) (S (S (ticks (clock w)))) in
  let a := AllowRequest t (snd (time_Now w)) in
  clock (snd a) = {| readings := readings (clock w);
                     ticks := S (S (S (ticks (clock w)))) |} /\
  brokerUp (snd a) = brokerUp w /\
  RateLimit.freePlan_dailyLimit (rateLimiter (snd a)) = 10000 /\
  RateLimit.freePlan_webhookLimit (rateLimiter (snd a)) = 20 /\
  (now - t0 < 24 * Hour ->
     fst a = true /\
     RateLimit.limits (rateLimiter (snd a)) !! t = Some (RateLimit.counting 1 t0)).
Proof.
  intros Hl Hd Hw t0 now a. subst t0 now a.
  rewrite AllowRequest_world.
  unfold time_Now, clock_now. cbn [snd clock rateLimiter brokerUp published].
  unfold RateLimit.lookupOrCreate. cbn [RateLimit.rl RateLimit.clk]. rewrite Hl.
  cbv zeta. cbn [fst snd clock rateLimiter brokerUp readings ticks].
  unfold RateLimit.ticked. cbn [readings ticks].
  split; [ reflexivity | ]. split; [ reflexivity | ].
  split; [ exact Hd | ]. split; [ exact Hw | ].
  intros Hopen.
  rewrite RateLimitFacts.rolled_open by exact Hopen.
  unfold RateLimit.accepts, RateLimit.fresh.
  cbn [RateLimit.isPremium RateLimit.webhookCount RateLimit.dailyCount]. rewrite Hw, Hd.
  change (20 <=? 0) with false. change (10000 <=? 0) with false.
  cbn [negb andb]. split; [ reflexivity | ].
  cbn [RateLimit.with_limits RateLimit.limits].
  rewrite lookup_insert_eq. reflexivity.
Qed.

(** The clock after one event request, whatever the limiter says. *)
Lemma HandleWebhook_clock (t : string) (c : Context) (w : World) :
  eventOf mapper t c -> brokerUp w = true ->
  let r := HandleWebhook mapper c w in
  readings (clock (snd r)) = readings (clock w) /\
  (S (S (ticks (clock w))) <= ticks (clock (snd r)))%nat /\
  brokerUp (snd r) = true.
Proof.
  intros Hc Hup r. subst r.
  destruct (HandleWebhook_event t c w Hc Hup) as (Hrd & Htk & Hb & _).
  rewrite AllowRequest_world in Hrd, Htk.
  unfold time_Now, clock_now, RateLimit.lookupOrCreate in Hrd, Htk.
  cbn [snd clock rateLimiter RateLimit.rl RateLimit.clk] in Hrd, Htk.
  destruct (RateLimit.limits (rateLimiter w) !! t);
    cbn [fst snd clock readings ticks RateLimit.ticked] in Hrd, Htk;
    (split; [ exact Hrd | split; [ lia | exact Hb ] ]).
Qed.

Lemma serve_clock (t : string) (reqs : list Context) :
  forall w, Forall (eventOf mapper t) reqs -> brokerUp w = true ->
    let r := serve mapper reqs w in
    readings (clock (snd r)) = readings (clock w) /\
    (ticks (clock w) <= ticks (clock (snd r)))%nat /\
    brokerUp (snd r) = true.
Proof.
  induction reqs as [|c rest IH]; intros w Hall Hup; cbn [serve].
  - unfold ret. cbn. auto.
  - apply Forall_cons_iff in Hall as [Hc Hrest]. unfold bind, ret.
    destruct (HandleWebhook_clock t c w Hc Hup) as (Hrd & Htk & Hb).
    destruct (HandleWebhook mapper c w) as [r1 w1]. cbn [snd] in Hrd, Htk, Hb.
    destruct (IH w1 Hrest Hb) as (Hrd' & Htk' & Hb').
    destruct (serve mapper rest w1) as [rs w2]. cbn [snd] in *.
    split; [ congruence | split; [ lia | exact Hb' ] ].
Qed.

(** While the window is open and the cap is not reached, every event
    request of the client is accepted, published and counted. *)
Lemma serve_counting (t : string) (t0 : Time) (reqs : list Context) :
  forall (w : World) (k : Z),
    Forall (eventOf mapper t) reqs ->
    brokerUp w = true ->
    RateLimit.freePlan_dailyLimit (rateLimiter w) = 10000 ->
    RateLimit.freePlan_webhookLimit (rateLimiter w) = 20 ->
    RateLimit.limits (rateLimiter w) !! t = Some (RateLimit.counting k t0) ->
    0 <= k -> k + Z.of_nat (length reqs) <= 10000 ->
    (forall i, (ticks (clock w) <= i < ticks (clock (snd (serve mapper reqs w))))%nat ->
       readings (clock w) i - t0 < 24 * Hour) ->
    let r := serve mapper reqs w in
    Forall (fun resp => exists id, resp = eventAccepted id t) (fst r) /\
    length (fst r) = length reqs /\
    length (published (snd r)) = (length (published w) + length reqs)%nat /\
    RateLimit.freePlan_dailyLimit (rateLimiter (snd r)) = 10000 /\
    RateLimit.freePlan_webhookLimit (rateLimiter (snd r)) = 20 /\
    RateLimit.limits (rateLimiter (snd r)) !! t
      = Some (RateLimit.counting (k + Z.of_nat (length reqs)) t0).
Proof.
  induction reqs as [|c rest IH]; intros w k Hall Hup Hd Hw Hl Hk Hcap Hwin.
  - cbn. unfold ret. cbn. rewrite Z.add_0_r, Nat.add_0_r. repeat split; auto.
  - apply Forall_cons_iff in Hall as [Hc Hrest].
    cbn [serve] in Hwin |- *. unfold bind, ret in Hwin |- *.
    destruct (HandleWebhook_clock t c w Hc Hup) as (Hrd & Htk & Hb).
    destruct (HandleWebhook_event t c w Hc Hup) as (_ & _ & _ & Hrl & Hres).
    destruct (allow_counting t w k t0 Hl Hd Hw)
      as (_ & _ & Hd1 & Hw1 & Hacc & _ & _).
    destruct (HandleWebhook mapper c w) as [r1 w1]. cbn [fst snd] in *.
    pose proof (serve_clock t rest w1 Hrest Hb) as (Hrd2 & Htk2 & _).
    cbn [length] in Hcap. rewrite Nat2Z.inj_succ in Hcap.
    destruct (serve mapper rest w1) as [rs w2] eqn:Hserve. cbn [fst snd] in *.
    assert (Hopen : readings (clock w) (S (ticks (clock w))) - t0 < 24 * Hour)
      by (apply Hwin; lia).
    destruct (Hacc Hopen ltac:(lia)) as (Hok & Hl1).
    rewrite Hok in Hres. destruct Hres as (e & -> & Hpub & _).
    rewrite <- Hrl in Hd1, Hw1, Hl1.
    assert (Hwin1 : forall i,
              (ticks (clock w1) <= i < ticks (clock (snd (serve mapper rest w1))))%nat ->
              readings (clock w1) i - t0 < 24 * Hour).
    { intros i Hi. rewrite Hserve in Hi. cbn [snd] in Hi. rewrite Hrd.
      apply Hwin. lia. }
    pose proof (IH w1 (k + 1) Hrest Hb Hd1 Hw1 Hl1 ltac:(lia) ltac:(lia) Hwin1)
      as Hrest'.
    rewrite Hserve in Hrest'. cbn [fst snd] in Hrest'.
    destruct Hrest' as (Hall' & Hlen' & Hpub' & Hd2 & Hw2 & Hl2).
    split; [ constructor; [ by eexists | exact Hall' ] | ].
    split; [ cbn [length]; by rewrite Hlen' | ].
    split; [ rewrite Hpub', Hpub, length_app; cbn [length]; lia | ].
    split; [ exact Hd2 | ]. split; [ exact Hw2 | ].
    rewrite Hl2. cbn [length]. rewrite Nat2Z.inj_succ. do 2 f_equal. lia.
Qed.

(** C4. A tenant the limiter has not seen yet (every tenant starts on
    the default tier) sends 10000 event requests, all inside the 24 hours
    that follow the anchor, the instant read for its new entry: every one
    of them is accepted and published, and the counter stands at 10000.
    While the window is still open, the 10001st request is refused: the
    call to [AllowRequest] returns [false], the handler answers 429 "Rate
    limit exceeded", publishes nothing and leaves the limiter as it was.
    Once 24 hours have elapsed since the anchor, the same request rolls
    the window: [AllowRequest] returns [true], the request is accepted
    and published, and the counter reads 1 in a window anchored at the
    instant of that request. *)
Theorem C4_daily_cap (t : string) (reqs : list Context) (c : Context) (w : World) :
  RateLimit.freePlan_dailyLimit (rateLimiter w) = 10000 ->
  RateLimit.freePlan_webhookLimit (rateLimiter w) = 20 ->
  RateLimit.limits (rateLimiter w) !! t = None ->
  brokerUp w = true ->
  Forall (eventOf mapper t) reqs -> eventOf mapper t c ->
  length reqs = Z.to_nat 10000 ->
  let r := serve mapper reqs w in
  let w1 := snd r in
  let t0 := readings (clock w) (S (ticks (clock w))) in
  (forall i, (ticks (clock w) <= i < ticks (clock w1))%nat ->
     readings (clock w) i - t0 < 24 * Hour) ->
  let now := readings (clock w) (S (ticks (clock w1))) in
  let r' := HandleWebhook mapper c w1 in
  (Forall (fun resp => exists id, resp = eventAccepted id t) (fst r) /\
   length (fst r) = Z.to_nat 10000 /\
   length (published w1) = (length (published w) + Z.to_nat 10000)%nat /\
   RateLimit.limits (rateLimiter w1) !! t = Some (RateLimit.counting 10000 t0)) /\
  (now - t0 < 24 * Hour ->
     fst (AllowRequest t (snd (time_Now w1))) = false /\
     fst r' = rateLimitExceeded /\
     StatusCode (fst r') = 429 /\
     published (snd r') = published w1 /\
     rateLimiter (snd r') = rateLimiter w1) /\
  (24 * Hour <= now - t0 ->
     fst (AllowRequest t (snd (time_Now w1))) = true /\
     (exists id, fst r' = eventAccepted id t) /\
     StatusCode (fst r') = 200 /\
     length (published (snd r')) = S (length (published w1)) /\
     RateLimit.limits (rateLimiter (snd r')) !! t = Some (RateLimit.counting 1 now)).
Proof.
  intros Hd Hw Hnone Hup Hall Hc Hlen r w1 t0 Hwin now r'.
  destruct reqs as [|c0 rest]; [ discriminate Hlen | ].
  apply Forall_cons_iff in Hall as [Hc0 Hrest].
  (* the first request creates the entry *)
  assert (Hrun :
    Forall (fun resp => exists id, resp = eventAccepted id t) (fst r) /\
    length (fst r) = Z.to_nat 10000 /\
    length (published w1) = (length (published w) + Z.to_nat 10000)%nat /\
    RateLimit.freePlan_dailyLimit (rateLimiter w1) = 10000 /\
    RateLimit.freePlan_webhookLimit (rateLimiter w1) = 20 /\
    RateLimit.limits (rateLimiter w1) !! t = Some (RateLimit.counting 10000 t0) /\
    readings (clock w1) = readings (clock w) /\ brokerUp w1 = true).
  { subst r w1 r' now. cbn [serve] in Hwin |- *. unfold bind, ret in Hwin |- *.
    destruct (HandleWebhook_clock t c0 w Hc0 Hup) as (Hrd & Htk & Hb).
    destruct (HandleWebhook_event t c0 w Hc0 Hup) as (Hrda & Htka & _ & Hrl & Hres).
    destruct (allow_first t w Hnone Hd Hw) as (Hck & _ & Hd1 & Hw1 & Hacc).
    rewrite Hck in Htka. cbn [ticks] in Htka.
    destruct (HandleWebhook mapper c0 w) as [r1 w2]. cbn [fst snd] in *.
    pose proof (serve_clock t rest w2 Hrest Hb) as (Hrd2 & Htk2 & Hb2).
    destruct (serve mapper rest w2) as [rs w3] eqn:Hserve. cbn [fst snd] in *.
    assert (Hopen : readings (clock w) (S (S (ticks (clock w)))) - t0 < 24 * Hour)
      by (apply Hwin; lia).
    destruct (Hacc Hopen) as (Hok & Hl1).
    rewrite Hok in Hres. destruct Hres as (e & -> & Hpub & _).
    rewrite <- Hrl in Hd1, Hw1, Hl1.
    assert (Hwin1 : forall i,
              (ticks (clock w2) <= i < ticks (clock (snd (serve mapper rest w2))))%nat ->
              readings (clock w2) i - t0 < 24 * Hour).
    { intros i Hi. rewrite Hserve in Hi. cbn [snd] in Hi. rewrite Hrd.
      apply Hwin. lia. }
    cbn [length] in Hlen.
    assert (Hn : 1 + Z.of_nat (length rest) = 10000) by lia.
    pose proof (serve_counting t t0 rest w2 1 Hrest Hb Hd1 Hw1 Hl1
                  ltac:(lia) ltac:(lia) Hwin1) as Hrun.
    rewrite Hserve in Hrun. cbn [fst snd] in Hrun.
    destruct Hrun as (Hall' & Hlen' & Hpub' & Hd2 & Hw2 & Hl2).
    rewrite Hn in Hl2.
    split; [ constructor; [ by eexists | exact Hall' ] | ].
    split; [ cbn [length]; rewrite Hlen'; exact Hlen | ].
    split; [ rewrite Hpub', Hpub, length_app; cbn [length]; lia | ].
    split; [ exact Hd2 | ]. split; [ exact Hw2 | ]. split; [ exact Hl2 | ].
    split; [ congruence | exact Hb2 ]. }
  destruct Hrun as (Hacc & Hlen1 & Hpub1 & Hd1 & Hw1 & Hl1 & Hrd1 & Hb1).
  split; [ auto | ].
  destruct (HandleWebhook_event t c w1 Hc Hb1) as (_ & _ & _ & Hrl & Hres).
  destruct (allow_counting t w1 10000 t0 Hl1 Hd1 Hw1)
    as (_ & _ & _ & _ & _ & Hfull & Hroll).
  rewrite Hrd1 in Hfull, Hroll. fold now in Hfull, Hroll. fold r' in Hrl, Hres.
  split.
  - intros Hopen. destruct (Hfull Hopen eq_refl) as (Hno & Hsame).
    rewrite Hno in Hres. destruct Hres as (Hresp & Hpub).
    split; [ exact Hno | ]. split; [ exact Hresp | ].
    split; [ by rewrite Hresp | ]. split; [ exact Hpub | congruence ].
  - intros Hover. destruct (Hroll Hover ltac:(lia)) as (Hyes & Hl2).
    rewrite Hyes in Hres. destruct Hres as (e & Hresp & Hpub & _).
    split; [ exact Hyes | ]. split; [ by eexists | ].
    split; [ by rewrite Hresp | ].
    split; [ rewrite Hpub, length_app; cbn [length]; lia | congruence ].
Qed.

End DailyCap.

(** C4 for 10000 copies of the vendor request and one more, the clock
    standing still. *)
Lemma C4_daily_cap_witness :
  RateLimit.limits (rateLimiter quietWorld) !! "t1" = None /\
  let w1 := snd (serve registry (repeat vendorRequest (Z.to_nat 10000)) quietWorld) in
  StatusCode (fst (HandleWebhook registry vendorRequest w1)) = 429 /\
  published (snd (HandleWebhook registry vendorRequest w1)) = published w1.
Proof.
  split; [ reflexivity | ].
  assert (Hev : eventOf registry "t1" vendorRequest).
  { split; [ reflexivity | split; [ reflexivity | ] ].
    exists deliveredBody. split; reflexivity. }
  pose proof (C4_daily_cap registry "t1" (repeat vendorRequest (Z.to_nat 10000))
                vendorRequest quietWorld eq_refl eq_refl eq_refl eq_refl) as Hcap.
  specialize (Hcap ltac:(apply Forall_forall; intros x Hx;
                         apply list_elem_of_In, repeat_spec in Hx;
                         subst x; exact Hev)
                   Hev (repeat_length _ _)).
  cbv zeta in Hcap.
  specialize (Hcap ltac:(intros i _; reflexivity)).
  destruct Hcap as (_ & Hfull & _).
  destruct (Hfull ltac:(reflexivity)) as (_ & _ & Hcode & Hpub & _).
  intros w1. split; [ exact Hcode | exact Hpub ].
Defined.

(** *** Identity assignment *)

Lemma firstID_split (data : gmap string JSON) (pre post : list string)
    (f v : string) :
  (forall g, In g pre -> nonEmptyString (data !! g) = []) ->
  asString (data !! f) = Some v -> v <> "" ->
  firstID data (pre ++ f :: post) = Some v.
Proof.
  intros Hpre Hf Hv. induction pre as [|g pre IH]; simpl.
  - rewrite Hf. destruct (String.eqb_spec v ""); [ contradiction | reflexivity ].
  - assert (Hg := Hpre g (or_introl eq_refl)). unfold nonEmptyString in Hg.
    destruct (asString (data !! g)) as [x|].
    + destruct (negb (x =? "")%string); [ discriminate Hg | ].
      apply IH. intros g' Hg'. apply Hpre. by right.
    + apply IH. intros g' Hg'. apply Hpre. by right.
Qed.

Lemma firstID_none (data : gmap string JSON) (fields : list string) :
  (forall g, In g fields -> nonEmptyString (data !! g) = []) ->
  firstID data fields = None.
Proof.
  intros Hall. induction fields as [|g fields IH]; simpl; [ reflexivity | ].
  assert (Hg := Hall g (or_introl eq_refl)). unfold nonEmptyString in Hg.
  destruct (asString (data !! g)) as [x|].
  - destruct (negb (x =? "")%string); [ discriminate Hg | ].
    apply IH. intros g' Hg'. apply Hall. by right.
  - apply IH. intros g' Hg'. apply Hall. by right.
Qed.

(** C6, as stated, fails: the timestamp enters the composite rounded to
    the nearest integer (ties to even), not rounded down.  For the body
    [{"ts": 1.5}] the identity is built from ["2"], the spec's from ["1"]. *)
Lemma C6_ts_rounded_not_floored :
  let data : gmap string JSON := {[ "ts" := JNumber (S754_finite false 3 (-1)) ]} in
  spec_floor (S754_finite false 3 (-1)) = 1 /\
  fst (generateWebhookID data quietWorld) = "mc_[32]" /\
  spec_composite data = "mc_[31]" /\
  fst (generateWebhookID data quietWorld) <> spec_composite data.
Proof.
  vm_compute. repeat split; try reflexivity. intros H; discriminate H.
Qed.

(** C6, amended. If one of [webhook_id], [message_id], [event_id],
    [delivery_id], [tracking_id] is a non-empty string, the first such
    field in that order is the identity, verbatim.  Otherwise, if
    [campaign_id], [email] or [event] is a non-empty string or [ts] is a
    number, the identity is ["mc_"] followed by the hexadecimal rendering
    of the list [campaign_id, email, ts, event], where empty or missing
    components are left out and [ts] is printed as the nearest integer
    (ties to even).  In both cases the identity depends on the body
    alone: no clock is read and the state is untouched. *)
Theorem C6_identity_assignment (data : gmap string JSON) (w : World) :
  (forall pre f post v,
     idFields = (pre ++ f :: post)%list ->
     (forall g, In g pre -> nonEmptyString (data !! g) = []) ->
     asString (data !! f) = Some v -> v <> "" ->
     generateWebhookID data w = (v, w)) /\
  ((forall g, In g idFields -> nonEmptyString (data !! g) = []) ->
   components data <> [] ->
   generateWebhookID data w = ("mc_" ++ hexStrings (components data), w) /\
   components data =
     (nonEmptyString (data !! "campaign_id")
      ++ nonEmptyString (data !! "email")
      ++ match asFloat64 (data !! "ts") with
         | Some val => [formatF0 val]
         | None => []
         end
      ++ nonEmptyString (data !! "event"))%list).
Proof.
  split.
  - intros pre f post v Hsplit Hpre Hf Hv. unfold generateWebhookID.
    rewrite Hsplit. by rewrite (firstID_split data pre post f v Hpre Hf Hv).
  - intros Hnone Hcomp. split; [ | reflexivity ]. unfold generateWebhookID.
    rewrite (firstID_none data idFields Hnone).
    destruct (components data); [ contradiction | reflexivity ].
Qed.

(** C6 on a body with a message id and on the body of scenario 3. *)
Lemma C6_identity_assignment_witness :
  generateWebhookID {[ "message_id" := JString "m-1" ]} quietWorld = ("m-1", quietWorld)
  /\ generateWebhookID deliveredBody quietWorld
     = ("mc_[63 614062 31373030303030303030 64656c697665726564]", quietWorld).
Proof.
  split.
  - apply (proj1 (C6_identity_assignment {[ "message_id" := JString "m-1" ]} quietWorld)
             ["webhook_id"] "message_id" ["event_id"; "delivery_id"; "tracking_id"]).
    + reflexivity.
    + intros g [<-|[]]. reflexivity.
    + reflexivity.
    + intros H; discriminate H.
  - refine (proj1 (proj2 (C6_identity_assignment deliveredBody quietWorld) _ _)).
    + intros g Hg. simpl in Hg.
      destruct Hg as [<-|[<-|[<-|[<-|[<-|[]]]]]]; reflexivity.
    + intros H; vm_compute in H; discriminate H.
Defined.

(** On whole-number timestamps (what the ESP sends) rounding down and
    rounding to nearest agree. *)
Lemma formatF0_whole (m : positive) (e : Z) :
  0 <= e ->
  formatF0 (S754_finite false m e) = decimalZ (spec_floor (S754_finite false m e)).
Proof.
  intros He. unfold formatF0, spec_floor, roundHalfEven.
  destruct (Z.leb_spec 0 e); [ | lia ]. simpl.
  assert (Hpos : 0 < Z.pos m * 2 ^ e) by (apply Z.mul_pos_pos; [ lia | by apply Z.pow_pos_nonneg ]).
  destruct (Z.pos m * 2 ^ e) as [|p|p] eqn:E; try lia. reflexivity.
Qed.

(** ** Storage adapter *)

Module StorageFacts.
Import Storage.

Lemma lookup_optional_eq (b : bool) (k : string) (v : BSON) (doc : gmap string BSON) :
  optional b k v doc !! k = if b then Some v else doc !! k.
Proof. unfold optional. destruct b; [ apply lookup_insert_eq | reflexivity ]. Qed.

Lemma lookup_optional_ne (b : bool) (k k' : string) (v : BSON) (doc : gmap string BSON) :
  k <> k' -> optional b k v doc !! k' = doc !! k'.
Proof. intros Hne. unfold optional. destruct b; [ by apply lookup_insert_ne | reflexivity ]. Qed.

Lemma optional_is_Some (b : bool) (k k' : string) (v : BSON) (doc : gmap string BSON) :
  is_Some (optional b k v doc !! k') -> k' = k \/ is_Some (doc !! k').
Proof.
  unfold optional. destruct b; [ | by right ].
  destruct (decide (k = k')) as [->|Hne]; [ by left | ].
  rewrite lookup_insert_ne by done. by right.
Qed.

(** Look a concrete key up in [eventDoc]. *)
Ltac lookup_doc :=
  unfold eventDoc;
  repeat (rewrite lookup_optional_ne by (intros Heq; discriminate Heq));
  try rewrite lookup_optional_eq;
  repeat (rewrite lookup_optional_ne by (intros Heq; discriminate Heq));
  try match goal with |- (if ?b then _ else _) = _ => destruct b end;
  reflexivity.

(** The fields of the document built for an event. *)
Lemma eventDoc_fields (e : WebhookEvent) :
  let doc := eventDoc e in
  (doc !! "webhook_id" = Some (BString (WebhookID e)) /\
   doc !! "webhook_type" = Some (BString (WebhookType e)) /\
   doc !! "client_id" = Some (BString (ClientID e)) /\
   doc !! "event" = Some (BString (Event e)) /\
   doc !! "received_at" = Some (BDateTime (ReceivedAt e)) /\
   doc !! "status" = Some (BString (Status e)) /\
   doc !! "retry_count" = Some (BInt (RetryCount e))) /\
  (doc !! "campaign_id"
     = (if nonEmpty (CampaignID e) then Some (BString (CampaignID e)) else None) /\
   doc !! "campaign_name"
     = (if nonEmpty (CampaignName e) then Some (BString (CampaignName e)) else None) /\
   doc !! "tag_name"
     = (if nonEmpty (TagName e) then Some (BString (TagName e)) else None) /\
   doc !! "date_event"
     = (if nonEmpty (DateEvent e) then Some (BString (DateEvent e)) else None) /\
   doc !! "url" = (if nonEmpty (URL e) then Some (BString (URL e)) else None) /\
   doc !! "email" = (if nonEmpty (Email e) then Some (BString (Email e)) else None) /\
   doc !! "emails"
     = (if (0 <? length (Emails e))%nat then Some (BStrings (Emails e)) else None) /\
   doc !! "list_id" = (if notNil (ListID e) then Some (BAny (ListID e)) else None) /\
   doc !! "reason" = (if nonEmpty (Reason e) then Some (BString (Reason e)) else None)) /\
  (forall k, is_Some (doc !! k) -> In k (mandatoryKeys ++ optionalKeys)).
Proof.
  intros doc. subst doc. split; [ | split ].
  - repeat split; lookup_doc.
  - repeat split; lookup_doc.
  - intros k Hk. unfold eventDoc in Hk.
    repeat (apply optional_is_Some in Hk as [->|Hk]; [ simpl; tauto | ]).
    destruct Hk as [x Hx]. apply elem_of_list_to_map_2 in Hx.
    repeat (apply elem_of_cons in Hx as [Hx|Hx]; [ injection Hx as -> _; simpl; tauto | ]).
    by apply elem_of_nil in Hx.
Qed.

(** The stored document: the fields of the [bson.M], encoded, and the
    identifier. *)
Lemma stored_lookup (n : nat) (doc : gmap string BSON) (k : string) :
  k <> "_id" -> stored n doc !! k = encode <$> (doc !! k).
Proof.
  intros Hk. unfold stored.
  destruct ((encode <$> doc) !! "_id"); [ | rewrite lookup_insert_ne by done ];
    apply lookup_fmap.
Qed.

Lemma eventDoc_no_id (e : WebhookEvent) : eventDoc e !! "_id" = None.
Proof.
  destruct (eventDoc e !! "_id") eqn:E; [ | reflexivity ].
  destruct (eventDoc_fields e) as (_ & _ & Hkeys).
  specialize (Hkeys "_id" ltac:(by eexists)).
  simpl in Hkeys. repeat destruct Hkeys as [Hkeys|Hkeys]; try discriminate Hkeys.
  contradiction.
Qed.

Lemma stored_id (n : nat) (e : WebhookEvent) :
  stored n (eventDoc e) !! "_id" = Some (BObjectID n).
Proof.
  unfold stored. rewrite lookup_fmap, eventDoc_no_id. simpl.
  apply lookup_insert_eq.
Qed.

(** C8, as stated, fails: [webhook_id], [webhook_type], [client_id] and
    [event] are written even when they are the empty string. *)
Lemma C8_empty_strings_are_stored :
  Event blankEvent = "" /\ WebhookType blankEvent = "" /\
  exists doc,
    collection (db (snd (InsertEvent blankEvent (emptyStore 0)))) = [doc] /\
    doc !! "event" = Some (BString "") /\
    doc !! "webhook_type" = Some (BString "") /\
    doc !! "webhook_id" = Some (BString "") /\
    doc !! "client_id" = Some (BString "").
Proof.
  split; [ reflexivity | split; [ reflexivity | ] ].
  eexists. split; [ reflexivity | ]. repeat split; reflexivity.
Qed.

(** C8, amended. When the driver accepts the insertion, one document is
    stored.  It carries [webhook_id], [webhook_type], [client_id],
    [event], [received_at], [status] (["pending"] when the event has
    none) and [retry_count], whatever their values.  Each of
    [campaign_id], [campaign_name], [tag_name], [date_event], [url],
    [email] and [reason] is present when it is a non-empty string and
    absent when it is empty, [emails] is present when the sequence is
    non-empty and absent otherwise, and [list_id] is present when the
    value is not nil and absent otherwise. *)
Theorem C8_insert_document (event : WebhookEvent) (st : St) :
  insertFails (db st) (insertCalls (db st)) = false ->
  let r := InsertEvent event st in
  fst (fst r) = true /\
  exists doc,
    collection (db (snd r)) = (collection (db st) ++ [doc])%list /\
    (doc !! "webhook_id" = Some (BString (WebhookID event)) /\
     doc !! "webhook_type" = Some (BString (WebhookType event)) /\
     doc !! "client_id" = Some (BString (ClientID event)) /\
     doc !! "event" = Some (BString (Event event)) /\
     doc !! "received_at" = Some (BDateTime (truncMs (ReceivedAt event))) /\
     doc !! "status" = Some (BString (if (Status event =? "")%string
                                      then EventStatusPending else Status event)) /\
     doc !! "retry_count" = Some (BInt (RetryCount event))) /\
    (doc !! "campaign_id"
       = (if nonEmpty (CampaignID event) then Some (BString (CampaignID event)) else None) /\
     doc !! "campaign_name"
       = (if nonEmpty (CampaignName event) then Some (BString (CampaignName event)) else None) /\
     doc !! "tag_name"
       = (if nonEmpty (TagName event) then Some (BString (TagName event)) else None) /\
     doc !! "date_event"
       = (if nonEmpty (DateEvent event) then Some (BString (DateEvent event)) else None) /\
     doc !! "url" = (if nonEmpty (URL event) then Some (BString (URL event)) else None) /\
     doc !! "email" = (if nonEmpty (Email event) then Some (BString (Email event)) else None) /\
     doc !! "emails"
       = (if (0 <? length (Emails event))%nat then Some (BStrings (Emails event)) else None) /\
     doc !! "list_id" = (if notNil (ListID event) then Some (BAny (ListID event)) else None) /\
     doc !! "reason" = (if nonEmpty (Reason event) then Some (BString (Reason event)) else None)).
Proof.
  intros Hok r. subst r.
  unfold InsertEvent, bind, ret, InsertOne. simpl. rewrite Hok. simpl.
  split; [ reflexivity | ].
  eexists. split; [ reflexivity | ].
  match goal with |- context [eventDoc ?e] => pose proof (eventDoc_fields e) as Hf end.
  destruct Hf as ((M1 & M2 & M3 & M4 & M5 & M6 & M7)
                  & (O1 & O2 & O3 & O4 & O5 & O6 & O7 & O8 & O9) & _).
  rewrite !stored_lookup by discriminate.
  rewrite M1, M2, M3, M4, M5, M6, M7, O1, O2, O3, O4, O5, O6, O7, O8, O9.
  destruct (Status event =? "")%string; simpl;
    repeat split;
    match goal with
    | |- encode <$> (if ?b then _ else _) = _ => by destruct b
    | |- _ => reflexivity
    end.
Qed.

(** C8 for the blank event and an empty store. *)
Lemma C8_insert_document_witness :
  insertFails (db (emptyStore 0)) (insertCalls (db (emptyStore 0))) = false /\
  fst (fst (InsertEvent blankEvent (emptyStore 0))) = true.
Proof.
  split; [ reflexivity | ].
  exact (proj1 (C8_insert_document blankEvent (emptyStore 0) eq_refl)).
Defined.

(** Besides the identifier the driver adds, the stored document has no
    field that [InsertEvent] has not put into it. *)
Lemma stored_keys (n : nat) (e : WebhookEvent) (k : string) :
  is_Some (stored n (eventDoc e) !! k) ->
  k = "_id" \/ In k (mandatoryKeys ++ optionalKeys).
Proof.
  intros Hk. destruct (decide (k = "_id")) as [->|Hne]; [ by left | right ].
  rewrite stored_lookup in Hk by exact Hne.
  apply (eventDoc_fields e). by apply fmap_is_Some in Hk.
Qed.

End StorageFacts.

(** ** float64 arithmetic: rounding in the normal range *)

Module FloatFacts.
Import Worker Rounding.

Lemma digits2_size (p : positive) : digits2_pos p = Pos.size p.
Proof. induction p as [p IH|p IH|]; simpl; congruence. Qed.

Lemma Zdigits2_log2 (p : positive) : Zdigits2 (Zpos p) = Z.log2 (Zpos p) + 1.
Proof.
  simpl. rewrite digits2_size. destruct p as [p|p|]; simpl; try lia.
Qed.

(** The number of digits of a positive number between two powers. *)
Lemma Zdigits2_bounds (p : positive) (d : Z) :
  0 < d -> 2 ^ (d - 1) <= Zpos p < 2 ^ d -> Zdigits2 (Zpos p) = d.
Proof.
  intros Hd Hp. rewrite Zdigits2_log2.
  assert (Z.log2 (Zpos p) = d - 1); [ | lia ].
  apply Z.log2_unique; [ lia | ]. replace (Z.succ (d - 1)) with d by lia. exact Hp.
Qed.

Lemma iter_pos_iter {A : Type} (f : A -> A) (p : positive) (x : A) :
  SpecFloat.iter_pos f p x = Pos.iter f x p.
Proof.
  revert x. induction p as [p IH|p IH|]; intros x; simpl.
  - rewrite !IH. by rewrite !Pos.iter_swap.
  - by rewrite !IH.
  - reflexivity.
Qed.


Lemma shr_1_nonneg (m : Z) (r s : bool) :
  0 <= m ->
  shr_1 {| shr_m := m; shr_r := r; shr_s := s |}
    = {| shr_m := m / 2; shr_r := Z.odd m; shr_s := r || s |}.
Proof.
  intros Hm. destruct m as [|p|p]; [ reflexivity | | lia ].
  destruct p as [p|p|]; simpl; f_equal.
  - rewrite Pos2Z.inj_xI. apply Z.div_unique with 1; lia.
  - rewrite Pos2Z.inj_xO. apply Z.div_unique with 0; lia.
Qed.

Lemma shifted_first (m : Z) :
  0 <= m ->
  shr_1 {| shr_m := m; shr_r := false; shr_s := false |} = shifted m 1.
Proof.
  intros Hm. rewrite shr_1_nonneg by exact Hm. unfold shifted.
  change (1 - 1) with 0. change (2 ^ 1) with 2. change (2 ^ 0) with 1.
  rewrite Z.bit0_odd, Z.mod_1_r. reflexivity.
Qed.

Lemma shifted_next (m k : Z) :
  0 <= m -> 1 <= k -> shr_1 (shifted m k) = shifted m (k + 1).
Proof.
  intros Hm Hk. unfold shifted.
  rewrite shr_1_nonneg by (apply Z.div_pos; lia).
  replace (k + 1 - 1) with k by lia.
  assert (Hpow : 2 ^ (k + 1) = 2 ^ k * 2) by (rewrite Z.pow_add_r; lia).
  assert (Hpow' : 2 ^ k = 2 ^ (k - 1) * 2)
    by (replace k with (k - 1 + 1) at 1 by lia; rewrite Z.pow_add_r; lia).
  assert (Hp : 0 < 2 ^ (k - 1)) by (apply Z.pow_pos_nonneg; lia).
  f_equal.
  - rewrite Hpow. rewrite Z.div_div; lia.
  - rewrite Z.testbit_odd, Z.shiftr_div_pow2 by lia. reflexivity.
  - rewrite Z.testbit_odd, Z.shiftr_div_pow2 by lia.
    rewrite Hpow'. rewrite Z.rem_mul_r by lia.
    rewrite Zmod_odd.
    destruct (Z.odd (m / 2 ^ (k - 1))); simpl.
    + symmetry. apply negb_true_iff. apply Z.eqb_neq.
      pose proof (Z.mod_pos_bound m (2 ^ (k - 1)) Hp). lia.
    + replace (m mod 2 ^ (k - 1) + 2 ^ (k - 1) * 0) with (m mod 2 ^ (k - 1)) by lia.
      reflexivity.
Qed.

Lemma iter_shr_1 (p : positive) (m : Z) :
  0 <= m ->
  SpecFloat.iter_pos shr_1 p {| shr_m := m; shr_r := false; shr_s := false |}
    = shifted m (Zpos p).
Proof.
  intros Hm. rewrite iter_pos_iter.
  induction p as [|p IH] using Pos.peano_ind.
  - simpl. by apply shifted_first.
  - rewrite Pos.iter_succ, IH, Pos2Z.inj_succ.
    rewrite shifted_next by lia. f_equal.
Qed.


Lemma nearest_bounds (m k : Z) : m / 2 ^ k <= nearest m k <= m / 2 ^ k + 1.
Proof.
  unfold nearest, shifted. simpl.
  destruct (Z.testbit m (k - 1)), (negb (m mod 2 ^ (k - 1) =? 0)); simpl;
    try destruct (Z.even (m / 2 ^ k)); lia.
Qed.

(** Nothing is lost when the bits shifted out are zero. *)
Lemma nearest_exact (q k : Z) : 1 <= k -> nearest (q * 2 ^ k) k = q.
Proof.
  intros Hk. unfold nearest, shifted. simpl.
  assert (Hp : 0 < 2 ^ k) by (apply Z.pow_pos_nonneg; lia).
  rewrite Z.div_mul by lia.
  rewrite Z.mul_pow2_bits_low by lia.
  assert (Hpow' : 2 ^ k = 2 ^ (k - 1) * 2)
    by (replace k with (k - 1 + 1) at 1 by lia; rewrite Z.pow_add_r; lia).
  assert (Hz : (q * 2 ^ k) mod 2 ^ (k - 1) = 0).
  { rewrite Hpow'. replace (q * (2 ^ (k - 1) * 2)) with (q * 2 * 2 ^ (k - 1)) by lia.
    apply Z.mod_mul. assert (0 < 2 ^ (k - 1)) by (apply Z.pow_pos_nonneg; lia). lia. }
  rewrite Hz. reflexivity.
Qed.


(** No shift for a mantissa of exactly 53 digits. *)
Lemma round_aux_53 (s : bool) (p : positive) (e : Z) :
  2 ^ 52 <= Zpos p < 2 ^ 53 -> -1074 <= e <= 971 ->
  binary_round_aux 53 1024 s (Zpos p) e loc_Exact = S754_finite s p e.
Proof.
  intros Hp He. unfold binary_round_aux, shr_fexp.
  rewrite (Zdigits2_bounds p 53 ltac:(lia) Hp).
  unfold fexp, emin.
  replace (Z.max (53 + e - 53) (3 - 1024 - 53) - e) with 0 by lia.
  cbn [shr shr_record_of_loc shr_m loc_of_shr_record round_nearest_even].
  rewrite (Zdigits2_bounds p 53 ltac:(lia) Hp).
  replace (Z.max (53 + e - 53) (3 - 1024 - 53) - e) with 0 by lia.
  cbn [shr shr_record_of_loc shr_m].
  destruct (Z.leb_spec e (1024 - 53)); [ reflexivity | lia ].
Qed.

(** Rounding a mantissa of [53 + k] digits in the normal range. *)
Lemma round_aux_normal (s : bool) (p : positive) (e k : Z) :
  1 <= k -> 2 ^ (52 + k) <= Zpos p < 2 ^ (53 + k) ->
  -1074 <= e + k -> e + k + 1 <= 971 ->
  binary_round_aux 53 1024 s (Zpos p) e loc_Exact
    = float53 s (nearest (Zpos p) k) (e + k).
Proof.
  intros Hk Hp Hlo Hhi. unfold binary_round_aux, shr_fexp.
  rewrite (Zdigits2_bounds p (53 + k) ltac:(lia)
             ltac:(replace (53 + k - 1) with (52 + k) by lia; exact Hp)).
  unfold fexp, emin.
  replace (Z.max (53 + k + e - 53) (3 - 1024 - 53) - e) with k by lia.
  destruct k as [|pk|pk]; try lia.
  cbn [shr shr_record_of_loc].
  rewrite iter_shr_1 by lia.
  change (round_nearest_even (shr_m (shifted (Zpos p) (Zpos pk)))
            (loc_of_shr_record (shifted (Zpos p) (Zpos pk))))
    with (nearest (Zpos p) (Zpos pk)).
  pose proof (nearest_bounds (Zpos p) (Zpos pk)) as Hn.
  assert (Hq : 2 ^ 52 <= Zpos p / 2 ^ Zpos pk < 2 ^ 53).
  { assert (Hpk : 0 < 2 ^ Zpos pk) by (apply Z.pow_pos_nonneg; lia).
    split.
    - apply Z.div_le_lower_bound; [ lia | ].
      rewrite <- Z.pow_add_r by lia. replace (Zpos pk + 52) with (52 + Zpos pk) by lia. lia.
    - apply Z.div_lt_upper_bound; [ lia | ].
      rewrite <- Z.pow_add_r by lia. replace (Zpos pk + 53) with (53 + Zpos pk) by lia. lia. }
  set (n := nearest (Zpos p) (Zpos pk)) in *.
  unfold float53.
  destruct (Z.eqb_spec n (2 ^ 53)) as [Heq|Hne].
  - rewrite Heq.
    change (Zdigits2 (2 ^ 53)) with 54.
    replace (Z.max (54 + (e + Zpos pk) - 53) (3 - 1024 - 53) - (e + Zpos pk)) with 1 by lia.
    cbn [shr]. change (SpecFloat.iter_pos shr_1 1
                         {| shr_m := 2 ^ 53; shr_r := false; shr_s := false |})
      with {| shr_m := 2 ^ 52; shr_r := false; shr_s := false |}.
    cbn [shr_m]. change (2 ^ 52) with (Zpos (Z.to_pos (2 ^ 52))).
    cbv iota beta.
    destruct (Z.leb_spec (e + Zpos pk + 1) (1024 - 53)); [ reflexivity | lia ].
  - assert (Hn' : 2 ^ 52 <= n < 2 ^ 53) by lia.
    destruct n as [|pn|pn]; try lia.
    rewrite (Zdigits2_bounds pn 53 ltac:(lia) Hn').
    replace (Z.max (53 + (e + Zpos pk) - 53) (3 - 1024 - 53) - (e + Zpos pk)) with 0 by lia.
    cbn [shr shr_record_of_loc shr_m].
    destruct (Z.leb_spec (e + Zpos pk) (1024 - 53)); [ reflexivity | lia ].
Qed.



Lemma shl_iter (m d : positive) : Zpos (Pos.iter xO m d) = Zpos m * 2 ^ Zpos d.
Proof.
  induction d as [|d IH] using Pos.peano_ind.
  - simpl. lia.
  - rewrite Pos.iter_succ, Pos2Z.inj_xO, IH, Pos2Z.inj_succ, Z.pow_succ_r by lia. lia.
Qed.

(** [binary_round] on a mantissa of [d <= 53] digits: the mantissa is
    shifted to 53 digits, nothing is rounded. *)
Lemma binary_round_short (s : bool) (p : positive) (e d : Z) :
  1 <= d <= 53 -> 2 ^ (d - 1) <= Zpos p < 2 ^ d ->
  -1074 <= e - (53 - d) -> e - (53 - d) <= 971 ->
  binary_round 53 1024 s p e
    = S754_finite s (Z.to_pos (Zpos p * 2 ^ (53 - d))) (e - (53 - d)).
Proof.
  intros Hd Hp Hlo Hhi. unfold binary_round.
  change (Zpos (digits2_pos p)) with (Zdigits2 (Zpos p)).
  rewrite (Zdigits2_bounds p d ltac:(lia) Hp).
  unfold fexp, emin, shl_align.
  replace (Z.max (d + e - 53) (3 - 1024 - 53)) with (e - (53 - d)) by lia.
  destruct (e - (53 - d) - e) as [|q|q] eqn:Hq; try lia.
  - assert (d = 53) by lia. subst d.
    replace (53 - 53) with 0 by lia. rewrite Z.mul_1_r, Pos2Z.id.
    replace (e - 0) with e by lia.
    apply round_aux_53; [ exact Hp | lia ].
  - assert (Hq' : Zpos q = 53 - d) by lia. rewrite <- Hq'.
    assert (Hm : Zpos (Pos.iter xO p q) = Zpos p * 2 ^ Zpos q) by apply shl_iter.
    rewrite <- Hm, Pos2Z.id.
    apply round_aux_53; [ | lia ].
    rewrite Hm, Hq'.
    assert (H52 : 2 ^ 52 = 2 ^ (d - 1) * 2 ^ (53 - d))
      by (rewrite <- Z.pow_add_r by lia; f_equal; lia).
    assert (H53 : 2 ^ 53 = 2 ^ d * 2 ^ (53 - d))
      by (rewrite <- Z.pow_add_r by lia; f_equal; lia).
    assert (0 < 2 ^ (53 - d)) by (apply Z.pow_pos_nonneg; lia).
    rewrite H52, H53. nia.
Qed.

Lemma pow2_spec (k : Z) :
  -1022 <= k <= 1023 -> pow2 k = S754_finite false (Z.to_pos (2 ^ 52)) (k - 52).
Proof.
  intros Hk. unfold pow2.
  change (SFone 53 1024) with (S754_finite false (Z.to_pos (2 ^ 52)) (-52)).
  unfold SFldexp.
  rewrite (binary_round_short false _ _ 53); try lia.
  f_equal; lia.
Qed.

(** Multiplying by a power of two only moves the exponent. *)
Lemma fmul_pow2 (s : bool) (m : positive) (e k : Z) :
  2 ^ 52 <= Zpos m < 2 ^ 53 -> -1074 <= e + k -> e + k + 1 <= 971 ->
  fmul (S754_finite s m e) (S754_finite false (Z.to_pos (2 ^ 52)) (k - 52))
    = S754_finite s m (e + k).
Proof.
  intros Hm Hlo Hhi. unfold fmul, SFmul.
  replace (xorb s false) with s by (by destruct s).
  assert (Hb : 2 ^ (52 + 52) <= Zpos (m * Z.to_pos (2 ^ 52)) < 2 ^ (53 + 52)).
  { rewrite Pos2Z.inj_mul. change (Zpos (Z.to_pos (2 ^ 52))) with (2 ^ 52).
    change (2 ^ (52 + 52)) with (2 ^ 52 * 2 ^ 52).
    change (2 ^ (53 + 52)) with (2 ^ 53 * 2 ^ 52). nia. }
  rewrite (round_aux_normal s _ _ 52 ltac:(lia) Hb) by lia.
  rewrite Pos2Z.inj_mul. change (Zpos (Z.to_pos (2 ^ 52))) with (2 ^ 52).
  rewrite nearest_exact by lia.
  unfold float53. destruct (Z.eqb_spec (Zpos m) (2 ^ 53)); [ lia | ].
  rewrite Pos2Z.id. f_equal. lia.
Qed.

(** [float64(w.baseDelay) * math.Pow(2, n-1)] for the default worker: ten
    seconds times [2^(n-1)], exactly. *)

Lemma backoff_exact (n : Z) :
  1 <= n <= 900 ->
  fmul (float64_of_Z (baseDelay NewWorker)) (pow2 (wrap64 (n - 1)))
    = S754_finite false (Z.to_pos baseMantissa) (n - 20).
Proof.
  intros Hn.
  assert (Hw : wrap64 (n - 1) = n - 1).
  { unfold wrap64. rewrite Z.mod_small; lia. }
  rewrite Hw, pow2_spec by lia.
  change (float64_of_Z (baseDelay NewWorker))
    with (S754_finite false (Z.to_pos baseMantissa) (-19)).
  assert (Hb : 2 ^ 52 <= Zpos (Z.to_pos baseMantissa) < 2 ^ 53)
    by (change (Zpos (Z.to_pos baseMantissa)) with 5242880000000000; lia).
  rewrite (fmul_pow2 false _ (-19) (n - 1) Hb) by lia.
  f_equal. lia.
Qed.



(** Zeros shifted out first do not matter. *)
Lemma nearest_scaled (a i : Z) : 0 <= i -> nearest (a * 2 ^ i) (i + 1) = nearest a 1.
Proof.
  intros Hi. unfold nearest, shifted.
  assert (Hp : 0 < 2 ^ i) by (apply Z.pow_pos_nonneg; lia).
  replace (i + 1 - 1) with i by lia. change (1 - 1) with 0.
  rewrite Z.pow_add_r by lia. change (2 ^ 1) with 2. change (2 ^ 0) with 1.
  rewrite (Z.mul_comm (2 ^ i) 2).
  rewrite Z.div_mul_cancel_r by lia.
  rewrite Z.mul_pow2_bits by lia. replace (i - i) with 0 by lia.
  rewrite Z.mod_mul by lia. rewrite Z.mod_1_r. reflexivity.
Qed.

(** [nearest _ 1] is the halving that [%.0f] also uses. *)
Lemma nearest_half (p : positive) : nearest (Zpos p) 1 = Z.of_N (roundHalfEven p (-1)).
Proof.
  unfold nearest, shifted, roundHalfEven.
  change (0 <=? -1) with false. change (- -1) with 1.
  change (1 - 1) with 0. change (2 ^ 1) with 2. change (2 ^ 0) with 1.
  cbv iota zeta. rewrite Z.mod_1_r. change (negb (0 =? 0)) with false.
  rewrite Z.bit0_odd. cbn [loc_of_shr_record shr_r shr_s shr_m].
  pose proof (Zmod_odd (Zpos p)) as Hodd.
  assert (Hq : 0 <= Zpos p / 2) by (apply Z.div_pos; lia).
  destruct (Z.odd (Zpos p)); rewrite Hodd; cbn [loc_of_shr_record round_nearest_even].
  - change (2 * 1 <? 2) with false. change (2 <? 2 * 1) with false. cbv iota.
    destruct (Z.even (Zpos p / 2)); rewrite Z2N.id; lia.
  - change (2 * 0 <? 2) with true. cbv iota. rewrite Z2N.id; lia.
Qed.

(** [binary_round] on a mantissa of more than 53 digits. *)
Lemma binary_round_long (s : bool) (p : positive) (e k : Z) :
  1 <= k -> 2 ^ (52 + k) <= Zpos p < 2 ^ (53 + k) ->
  -1074 <= e + k -> e + k + 1 <= 971 ->
  binary_round 53 1024 s p e = float53 s (nearest (Zpos p) k) (e + k).
Proof.
  intros Hk Hp Hlo Hhi. unfold binary_round.
  change (Zpos (digits2_pos p)) with (Zdigits2 (Zpos p)).
  rewrite (Zdigits2_bounds p (53 + k) ltac:(lia)
             ltac:(replace (53 + k - 1) with (52 + k) by lia; exact Hp)).
  unfold fexp, emin, shl_align.
  replace (Z.max (53 + k + e - 53) (3 - 1024 - 53) - e) with k by lia.
  destruct k as [|pk|pk]; try lia.
  by apply round_aux_normal.
Qed.

Lemma half_spec : half = S754_finite false (Z.to_pos (2 ^ 52)) (-53).
Proof. reflexivity. Qed.

(** Adding one half to a float below one half. *)
Lemma fadd_half (mv : positive) (j : Z) :
  2 ^ 52 <= Zpos mv < 2 ^ 53 -> 1 <= j <= 53 ->
  fadd (S754_finite false mv (-53 - j)) half
    = float53 false (nearest (Zpos mv + 2 ^ (52 + j)) j) (-53).
Proof.
  intros Hm Hj. rewrite half_spec. unfold fadd, SFadd.
  replace (Z.min (-53 - j) (-53)) with (-53 - j) by lia.
  unfold shl_align.
  replace (-53 - j - (-53 - j)) with 0 by lia.
  replace (-53 - j - -53) with (- j) by lia.
  destruct j as [|pj|pj]; try lia.
  change (- Zpos pj) with (Zneg pj). cbv iota. cbn [fst cond_Zopp].
  change (Zpos mv + Zpos (Pos.iter xO (Z.to_pos (2 ^ 52)) pj))
    with (Zpos (mv + Pos.iter xO (Z.to_pos (2 ^ 52)) pj)).
  cbn [binary_normalize].
  rewrite (binary_round_long false _ _ (Zpos pj)); try lia.
  - rewrite Pos2Z.inj_add, shl_iter.
    change (Zpos (Z.to_pos (2 ^ 52))) with (2 ^ 52).
    rewrite <- Z.pow_add_r by lia. f_equal. lia.
  - rewrite Pos2Z.inj_add, shl_iter.
    change (Zpos (Z.to_pos (2 ^ 52))) with (2 ^ 52).
    rewrite <- Z.pow_add_r by lia.
    assert (H53 : 2 ^ (53 + Zpos pj) = 2 * 2 ^ (52 + Zpos pj))
      by (replace (53 + Zpos pj) with (Z.succ (52 + Zpos pj)) by lia;
          rewrite Z.pow_succ_r by lia; reflexivity).
    assert (Hlt : 2 ^ 53 <= 2 ^ (52 + Zpos pj)) by (apply Z.pow_le_mono_r; lia).
    lia.
Qed.


Lemma drawBits_range (u : N) : 0 <= drawBits u < 2 ^ 53.
Proof. unfold drawBits. apply Z.mod_pos_bound. lia. Qed.

Lemma jitterMantissa_nearest (u : N) :
  jitterMantissa u = nearest (2 ^ 53 + drawBits u) 1.
Proof.
  unfold jitterMantissa. pose proof (drawBits_range u).
  rewrite <- nearest_half. rewrite Z2Pos.id by lia. reflexivity.
Qed.

Lemma jitterMantissa_range (u : N) : 2 ^ 52 <= jitterMantissa u <= 2 ^ 53.
Proof.
  rewrite jitterMantissa_nearest. pose proof (drawBits_range u) as Hv.
  pose proof (nearest_bounds (2 ^ 53 + drawBits u) 1) as Hn.
  change (2 ^ 1) with 2 in Hn.
  assert (2 ^ 52 <= (2 ^ 53 + drawBits u) / 2 < 2 ^ 53); [ | lia ].
  split.
  - apply Z.div_le_lower_bound; lia.
  - apply Z.div_lt_upper_bound; lia.
Qed.

Lemma jitter_spec (u : N) :
  fadd (fmul (Float64 u) half) half = float53 false (jitterMantissa u) (-53).
Proof.
  rewrite jitterMantissa_nearest.
  pose proof (drawBits_range u) as Hv. unfold drawBits in *. unfold Float64.
  destruct (Z.of_N u mod 2 ^ 53) as [|p|p] eqn:Ep; [ reflexivity | | lia ].
  unfold binary_normalize.
  set (d := Z.log2 (Zpos p) + 1).
  assert (Hd : 2 ^ (d - 1) <= Zpos p < 2 ^ d).
  { unfold d. replace (Z.log2 (Zpos p) + 1 - 1) with (Z.log2 (Zpos p)) by lia.
    replace (Z.log2 (Zpos p) + 1) with (Z.succ (Z.log2 (Zpos p))) by lia.
    apply Z.log2_spec. lia. }
  assert (Hd1 : 1 <= d) by (unfold d; pose proof (Z.log2_nonneg (Zpos p)); lia).
  assert (Hd53 : d <= 53).
  { unfold d. assert (Z.log2 (Zpos p) < 53); [ | lia ].
    apply Z.log2_lt_pow2; lia. }
  rewrite (binary_round_short false p (-53) d) by lia.
  set (mv := Z.to_pos (Zpos p * 2 ^ (53 - d))).
  assert (Hmv : Zpos mv = Zpos p * 2 ^ (53 - d)).
  { unfold mv. rewrite Z2Pos.id; [ reflexivity | ].
    assert (0 < 2 ^ (53 - d)) by (apply Z.pow_pos_nonneg; lia). nia. }
  assert (Hb : 2 ^ 52 <= Zpos mv < 2 ^ 53).
  { rewrite Hmv.
    assert (H52 : 2 ^ 52 = 2 ^ (d - 1) * 2 ^ (53 - d))
      by (rewrite <- Z.pow_add_r by lia; f_equal; lia).
    assert (H53 : 2 ^ 53 = 2 ^ d * 2 ^ (53 - d))
      by (rewrite <- Z.pow_add_r by lia; f_equal; lia).
    assert (0 < 2 ^ (53 - d)) by (apply Z.pow_pos_nonneg; lia).
    rewrite H52, H53. nia. }
  rewrite half_spec at 1.
  replace (-53) with (-1 - 52) at 2 by lia.
  rewrite (fmul_pow2 false mv _ (-1) Hb) by lia.
  replace (-53 - (53 - d) + -1) with (-53 - (54 - d)) by lia.
  rewrite (fadd_half mv (54 - d) Hb) by lia.
  f_equal. rewrite Hmv.
  replace (52 + (54 - d)) with (53 + (53 - d)) by lia.
  rewrite Z.pow_add_r by lia.
  replace (Zpos p * 2 ^ (53 - d) + 2 ^ 53 * 2 ^ (53 - d))
    with ((2 ^ 53 + Zpos p) * 2 ^ (53 - d)) by lia.
  replace (54 - d) with (53 - d + 1) by lia.
  apply nearest_scaled. lia.
Qed.



(** [int64(f)] of a positive float, by way of its mantissa. *)
Lemma toInt64_float53 (R E : Z) :
  2 ^ 52 <= R <= 2 ^ 53 ->
  toInt64 (float53 false R E)
    = (let a := if 0 <=? E then R * 2 ^ E else R / 2 ^ (- E) in
       if (minInt64 <=? a) && (a <=? maxInt64) then a else minInt64).
Proof.
  intros HR. unfold float53.
  destruct (Z.eqb_spec R (2 ^ 53)) as [->|Hne]; unfold toInt64.
  - change (Zpos (Z.to_pos (2 ^ 52))) with (2 ^ 52).
    assert (Ha : (if 0 <=? E + 1 then 2 ^ 52 * 2 ^ (E + 1)
                  else 2 ^ 52 / 2 ^ (- (E + 1)))
                 = (if 0 <=? E then 2 ^ 53 * 2 ^ E else 2 ^ 53 / 2 ^ (- E))).
    { destruct (Z.leb_spec 0 E) as [HE|HE].
      - destruct (Z.leb_spec 0 (E + 1)); [ | lia ].
        rewrite Z.pow_add_r by lia. change (2 ^ 53) with (2 ^ 52 * 2 ^ 1). lia.
      - destruct (Z.leb_spec 0 (E + 1)) as [HE1|HE1].
        + assert (E = -1) by lia. subst E. reflexivity.
        + replace (- E) with (1 + - (E + 1)) by lia.
          rewrite Z.pow_add_r by lia. change (2 ^ 53) with (2 ^ 1 * 2 ^ 52).
          assert (0 < 2 ^ (- (E + 1))) by (apply Z.pow_pos_nonneg; lia).
          rewrite Z.div_mul_cancel_l by lia. reflexivity. }
    rewrite Ha. reflexivity.
  - rewrite Z2Pos.id by lia. reflexivity.
Qed.

Lemma scaled_between (R E L U TL TU : Z) :
  L * 2 ^ Z.max E 0 = TL * 2 ^ Z.max (- E) 0 ->
  U * 2 ^ Z.max E 0 = TU * 2 ^ Z.max (- E) 0 ->
  L <= R <= U ->
  TL <= (if 0 <=? E then R * 2 ^ E else R / 2 ^ (- E)) <= TU.
Proof.
  intros HL HU HR. destruct (Z.leb_spec 0 E) as [HE|HE].
  - rewrite Z.max_l in HL, HU by lia. rewrite Z.max_r in HL, HU by lia.
    change (2 ^ 0) with 1 in HL, HU.
    assert (0 < 2 ^ E) by (apply Z.pow_pos_nonneg; lia). nia.
  - rewrite Z.max_r in HL, HU by lia. rewrite Z.max_l in HL, HU by lia.
    change (2 ^ 0) with 1 in HL, HU.
    assert (0 < 2 ^ (- E)) by (apply Z.pow_pos_nonneg; lia).
    split.
    + apply Z.div_le_lower_bound; nia.
    + apply Z.div_le_upper_bound; nia.
Qed.

(** Powers of two with the exponents added up. *)
Lemma pow2_scale (c a b a' b' : Z) :
  0 <= a -> 0 <= b -> 0 <= a' -> 0 <= b' -> a + b = a' + b' ->
  c * 2 ^ a * 2 ^ b = c * 2 ^ a' * 2 ^ b'.
Proof.
  intros. rewrite <- !Z.mul_assoc, <- !Z.pow_add_r by lia. congruence.
Qed.

Lemma product_range (jm : Z) :
  2 ^ 52 <= jm < 2 ^ 53 ->
  2 ^ 104 <= baseMantissa * jm < 2 ^ 106 /\
  baseMantissa * 2 ^ 52 <= baseMantissa * jm < baseMantissa * 2 ^ 53.
Proof.
  intros Hj. unfold baseMantissa, Second, Nanosecond. lia.
Qed.

(** The sleep of the default worker lies between five and ten seconds
    times [2^(n-1)]. *)
Lemma backoff_value (n : Z) (jm : Z) :
  1 <= n <= 900 -> 2 ^ 52 <= jm <= 2 ^ 53 ->
  exists a,
    toInt64 (fmul (S754_finite false (Z.to_pos baseMantissa) (n - 20))
                  (float53 false jm (-53)))
      = (if (minInt64 <=? a) && (a <=? maxInt64) then a else minInt64) /\
    5 * Second * 2 ^ (n - 1) <= a <= 10 * Second * 2 ^ (n - 1).
Proof.
  intros Hn Hj.
  assert (Hb : 2 ^ 52 <= Zpos (Z.to_pos baseMantissa) < 2 ^ 53)
    by (change (Zpos (Z.to_pos baseMantissa)) with 5242880000000000; lia).
  assert (H5 : 5 * Second = 5 * Second * 2 ^ 0) by lia.
  unfold float53 at 1. destruct (Z.eqb_spec jm (2 ^ 53)) as [Htop|Hlow].
  - (* the jitter is one *)
    replace (-53 + 1) with (0 - 52) by lia.
    rewrite (fmul_pow2 false _ (n - 20) 0 Hb) by lia.
    replace (n - 20 + 0) with (n - 20) by lia.
    assert (Hf : S754_finite false (Z.to_pos baseMantissa) (n - 20)
                 = float53 false baseMantissa (n - 20)) by reflexivity.
    rewrite Hf, toInt64_float53
      by (unfold baseMantissa, Second, Nanosecond; lia).
    cbv zeta. eexists. split; [ reflexivity | ].
    apply (scaled_between _ _ (5 * Second * 2 ^ 19) (10 * Second * 2 ^ 19));
      [ | | unfold baseMantissa, Second, Nanosecond; lia ].
    + apply pow2_scale; lia.
    + apply pow2_scale; lia.
  - assert (Hjm : 2 ^ 52 <= jm < 2 ^ 53) by lia.
    destruct (product_range jm Hjm) as (HP & HP').
    unfold fmul, SFmul. cbn [xorb].
    assert (HZ : Zpos (Z.to_pos baseMantissa * Z.to_pos jm) = baseMantissa * jm).
    { rewrite Pos2Z.inj_mul, (Z2Pos.id jm) by lia. reflexivity. }
    set (P := (Z.to_pos baseMantissa * Z.to_pos jm)%positive) in *.
    destruct (Z.lt_ge_cases (Zpos P) (2 ^ 105)) as [Hk|Hk].
    + (* 105 digits *)
      rewrite (round_aux_normal false P _ 52) by lia.
      pose proof (nearest_bounds (Zpos P) 52) as Hnb.
      assert (Hq : baseMantissa <= Zpos P / 2 ^ 52 < 2 ^ 53).
      { split.
        - apply Z.div_le_lower_bound; lia.
        - apply Z.div_lt_upper_bound; lia. }
      rewrite toInt64_float53
        by (unfold baseMantissa, Second, Nanosecond in Hq; lia).
      cbv zeta. eexists. split; [ reflexivity | ].
      apply (scaled_between _ _ (5 * Second * 2 ^ 20) (10 * Second * 2 ^ 20));
        [ | | unfold baseMantissa, Second, Nanosecond in *; lia ].
      * apply pow2_scale; lia.
      * apply pow2_scale; lia.
    + (* 106 digits *)
      rewrite (round_aux_normal false P _ 53) by lia.
      pose proof (nearest_bounds (Zpos P) 53) as Hnb.
      assert (Hq : 5 * Second * 2 ^ 19 <= Zpos P / 2 ^ 53 < baseMantissa).
      { split.
        - apply Z.div_le_lower_bound; [ lia | ].
          unfold baseMantissa, Second, Nanosecond in *. lia.
        - apply Z.div_lt_upper_bound; lia. }
      assert (Hq2 : 2 ^ 52 <= Zpos P / 2 ^ 53)
        by (apply Z.div_le_lower_bound; lia).
      rewrite toInt64_float53
        by (unfold baseMantissa, Second, Nanosecond in Hq; lia).
      cbv zeta. eexists. split; [ reflexivity | ].
      apply (scaled_between _ _ (5 * Second * 2 ^ 19) (10 * Second * 2 ^ 19));
        [ | | unfold baseMantissa, Second, Nanosecond in *; lia ].
      * apply pow2_scale; lia.
      * apply pow2_scale; lia.
Qed.

Lemma backoff_bounds (n : Z) (u : N) :
  1 <= n <= 30 ->
  5 * Second * 2 ^ (n - 1) <= calculateBackoff NewWorker n u
    <= 10 * Second * 2 ^ (n - 1).
Proof.
  intros Hn. unfold calculateBackoff.
  rewrite backoff_exact by lia. rewrite jitter_spec.
  destruct (backoff_value n (jitterMantissa u) ltac:(lia) (jitterMantissa_range u))
    as (a & -> & Ha).
  assert (Hpow : 1 <= 2 ^ (n - 1) <= 2 ^ 29).
  { split; [ | apply Z.pow_le_mono_r; lia ].
    assert (0 < 2 ^ (n - 1)) by (apply Z.pow_pos_nonneg; lia). lia. }
  assert (Hr : minInt64 <= a <= maxInt64)
    by (unfold minInt64, maxInt64, Second, Nanosecond in *; lia).
  destruct (Z.leb_spec minInt64 a); [ | lia ].
  destruct (Z.leb_spec a maxInt64); [ | lia ]. exact Ha.
Qed.

(** From the 32nd retry on the product is out of the range of [int64],
    whatever the draw. *)
Lemma backoff_overflow (n : Z) (u : N) :
  32 <= n <= 900 -> calculateBackoff NewWorker n u = minInt64.
Proof.
  intros Hn. unfold calculateBackoff.
  rewrite backoff_exact by lia. rewrite jitter_spec.
  destruct (backoff_value n (jitterMantissa u) ltac:(lia) (jitterMantissa_range u))
    as (a & -> & Ha).
  assert (Hpow : 2 ^ 31 <= 2 ^ (n - 1)) by (apply Z.pow_le_mono_r; lia).
  assert (Hr : maxInt64 < a)
    by (unfold maxInt64, Second, Nanosecond in *; lia).
  destruct (Z.leb_spec a maxInt64); [ lia | ].
  by rewrite andb_false_r.
Qed.

(** Ten seconds times [2^(n-1)] is a float64: the conversion of that
    integer rounds nothing. *)
Lemma float64_of_backoff (n : Z) :
  1 <= n <= 900 ->
  float64_of_Z (10 * Second * 2 ^ (n - 1))
    = S754_finite false (Z.to_pos baseMantissa) (n - 20).
Proof.
  intros Hn. unfold float64_of_Z, binary_normalize.
  assert (Hp : 0 < 2 ^ (n - 1)) by (apply Z.pow_pos_nonneg; lia).
  assert (Hz : 2 ^ 33 * 2 ^ (n - 1) <= 10 * Second * 2 ^ (n - 1) < 2 ^ 34 * 2 ^ (n - 1))
    by (unfold Second, Nanosecond; lia).
  rewrite <- !Z.pow_add_r in Hz by lia.
  destruct (10 * Second * 2 ^ (n - 1)) as [|p|p] eqn:Ez; [ lia | | lia ].
  destruct (Z.le_gt_cases n 20) as [Hs|Hl].
  - rewrite (binary_round_short false p 0 (n + 33)); try lia.
    + f_equal; [ | lia ]. f_equal. rewrite <- Ez.
      replace (53 - (n + 33)) with (20 - n) by lia.
      rewrite <- Z.mul_assoc, <- Z.pow_add_r by lia.
      replace (n - 1 + (20 - n)) with 19 by lia. reflexivity.
    + replace (n + 33 - 1) with (33 + (n - 1)) by lia.
      replace (n + 33) with (34 + (n - 1)) by lia. exact Hz.
  - rewrite (binary_round_long false p 0 (n - 20)); try lia.
    + assert (Hb : Zpos p = baseMantissa * 2 ^ (n - 20)).
      { rewrite <- Ez. unfold baseMantissa.
        rewrite <- (Z.mul_assoc (10 * Second) (2 ^ 19)), <- Z.pow_add_r by lia.
        replace (19 + (n - 20)) with (n - 1) by lia. reflexivity. }
      rewrite Hb, nearest_exact by lia.
      unfold float53. change (baseMantissa =? 2 ^ 53) with false.
      f_equal; lia.
    + replace (52 + (n - 20)) with (33 + (n - 1)) by lia.
      replace (53 + (n - 20)) with (34 + (n - 1)) by lia. exact Hz.
Qed.

(** ... and converts back to that integer while it fits. *)
Lemma backoff_integer (n : Z) :
  1 <= n <= 30 ->
  toInt64 (S754_finite false (Z.to_pos baseMantissa) (n - 20))
    = 10 * Second * 2 ^ (n - 1).
Proof.
  intros Hn.
  assert (Hf : S754_finite false (Z.to_pos baseMantissa) (n - 20)
               = float53 false baseMantissa (n - 20)) by reflexivity.
  rewrite Hf, toInt64_float53 by (unfold baseMantissa, Second, Nanosecond; lia).
  cbv zeta.
  assert (Ha : (if 0 <=? n - 20 then baseMantissa * 2 ^ (n - 20)
                else baseMantissa / 2 ^ (- (n - 20)))
               = 10 * Second * 2 ^ (n - 1)).
  { unfold baseMantissa. destruct (Z.leb_spec 0 (n - 20)) as [H|H].
    - rewrite <- (Z.mul_assoc (10 * Second) (2 ^ 19)), <- Z.pow_add_r by lia.
      do 2 f_equal. lia.
    - replace 19 with ((n - 1) + - (n - 20)) by lia.
      rewrite Z.pow_add_r, (Z.mul_assoc (10 * Second)) by lia.
      apply Z.div_mul.
      assert (0 < 2 ^ (- (n - 20))) by (apply Z.pow_pos_nonneg; lia). lia. }
  rewrite Ha.
  assert (Hpow : 1 <= 2 ^ (n - 1) <= 2 ^ 29).
  { split; [ | apply Z.pow_le_mono_r; lia ].
    assert (0 < 2 ^ (n - 1)) by (apply Z.pow_pos_nonneg; lia). lia. }
  destruct (Z.leb_spec minInt64 (10 * Second * 2 ^ (n - 1))) as [_|H];
    [ | unfold minInt64, Second, Nanosecond in H; lia ].
  destruct (Z.leb_spec (10 * Second * 2 ^ (n - 1)) maxInt64) as [_|H];
    [ reflexivity | unfold maxInt64, Second, Nanosecond in H; lia ].
Qed.

(** The jitter lies between one half and one, both included. *)
Lemma jitter_bounds (u : N) :
  SFleb half (jitter u) = true /\ SFleb (jitter u) (SFone 53 1024) = true.
Proof.
  unfold jitter. rewrite jitter_spec.
  pose proof (jitterMantissa_range u) as Hj. unfold float53.
  destruct (Z.eqb_spec (jitterMantissa u) (2 ^ 53)) as [_|Hne];
    [ split; reflexivity | ].
  destruct (jitterMantissa u) as [|jm|jm]; try lia.
  rewrite half_spec. change (SFone 53 1024)
    with (S754_finite false (Z.to_pos (2 ^ 52)) (-52)).
  unfold SFleb, SFcompare. cbv iota beta.
  change (-53 ?= -53) with Eq. change (-53 ?= -52) with Lt. cbv iota.
  split; [ | reflexivity ].
  change (PosDef.Pos.compare_cont Eq (Z.to_pos (2 ^ 52)) (Z.to_pos (Zpos jm)))
    with (2 ^ 52 ?= Zpos jm).
  destruct (Z.compare_spec (2 ^ 52) (Zpos jm)); try reflexivity. lia.
Qed.

(** C7, as stated, fails twice.  On the largest draw the jitter
    [r*0.5 + 0.5] rounds up to 1.0, which the interval [0.5, 1.0) leaves
    out; with it the product for retry 31 is already out of the range of
    [int64].  And retry 32 sleeps less than retry 31 even on the smallest
    jitter: the conversion of its product yields the least [int64]. *)
Lemma C7_jitter_one_and_overflow :
  jitter (2 ^ 53 - 1) = SFone 53 1024 /\
  calculateBackoff NewWorker 31 (2 ^ 53 - 1) = minInt64 /\
  calculateBackoff NewWorker 31 0 = 5 * Second * 2 ^ 30 /\
  calculateBackoff NewWorker 32 0 = minInt64 /\
  calculateBackoff NewWorker 32 0 < calculateBackoff NewWorker 31 0.
Proof. repeat split; vm_compute; reflexivity. Qed.

(** C7. For the worker of [NewWorker], whose base delay is ten seconds, a
    retry number [n] from 1 to 30 and any output [u] of the generator:
    the sleep is [int64 (backoff * jitter)] computed in float64, where
    [backoff], the product of ten seconds and [2^(n-1)], is exact, and
    the jitter [rand.Float64()*0.5 + 0.5] lies between 0.5 and 1.0, both
    bounds included.  The sleep lies between five and ten seconds times
    [2^(n-1)], so that no sleep for retry [n] is shorter than a sleep for
    retry [n-1], whatever the two draws. *)
Theorem C7_backoff_sleep (n : Z) (u u' : N) :
  1 <= n <= 30 ->
  let backoff := fmul (float64_of_Z (baseDelay NewWorker)) (pow2 (n - 1)) in
  baseDelay NewWorker = 10 * Second /\
  calculateBackoff NewWorker n u = toInt64 (fmul backoff (jitter u)) /\
  backoff = float64_of_Z (10 * Second * 2 ^ (n - 1)) /\
  toInt64 backoff = 10 * Second * 2 ^ (n - 1) /\
  SFleb half (jitter u) = true /\
  SFleb (jitter u) (SFone 53 1024) = true /\
  5 * Second * 2 ^ (n - 1) <= calculateBackoff NewWorker n u
    <= 10 * Second * 2 ^ (n - 1) /\
  (2 <= n -> calculateBackoff NewWorker (n - 1) u' <= calculateBackoff NewWorker n u).
Proof.
  intros Hn backoff.
  assert (Hw : wrap64 (n - 1) = n - 1).
  { unfold wrap64. rewrite Z.mod_small; lia. }
  assert (Hb : backoff = S754_finite false (Z.to_pos baseMantissa) (n - 20)).
  { unfold backoff. rewrite <- Hw. apply backoff_exact. lia. }
  split; [ reflexivity | ].
  split; [ unfold calculateBackoff; by rewrite Hw | ].
  split; [ rewrite Hb; symmetry; apply float64_of_backoff; lia | ].
  split; [ rewrite Hb; by apply backoff_integer | ].
  split; [ apply jitter_bounds | ]. split; [ apply jitter_bounds | ].
  split; [ by apply backoff_bounds | ].
  intros H2.
  pose proof (backoff_bounds (n - 1) u' ltac:(lia)) as Hprev.
  pose proof (backoff_bounds n u Hn) as Hthis.
  replace (10 * Second * 2 ^ (n - 1 - 1)) with (5 * Second * 2 ^ (n - 1)) in Hprev;
    [ lia | ].
  replace (n - 1) with (Z.succ (n - 1 - 1)) at 1 by lia.
  rewrite Z.pow_succ_r by lia. lia.
Qed.

(** C7 at the second retry. *)
Lemma C7_backoff_sleep_witness :
  1 <= 2 <= 30 /\
  5 * Second * 2 ^ (2 - 1) <= calculateBackoff NewWorker 2 0
    <= 10 * Second * 2 ^ (2 - 1) /\
  calculateBackoff NewWorker 1 (2 ^ 53 - 1) <= calculateBackoff NewWorker 2 0.
Proof.
  assert (H : 1 <= 2 <= 30) by lia.
  split; [ exact H | ].
  destruct (C7_backoff_sleep 2 0 (2 ^ 53 - 1) H) as (_ & _ & _ & _ & _ & _ & Hb & Hm).
  split; [ exact Hb | apply Hm; lia ].
Defined.

End FloatFacts.

(** ** Worker *)

Module WorkerFacts.
Import Worker.

Section Facts.

Variable decodeEvent : JSON -> WebhookEvent -> option WebhookEvent.

Lemma RetryCount_withHeaders (e : WebhookEvent) (h : option (gmap string JSON)) :
  RetryCount (withHeaders e h) = RetryCount e.
Proof. by destruct h. Qed.

(** One delivery whose insertion fails: the event is rebuilt with a retry
    count of zero, counted to one, and the delivery is requeued. *)
Lemma handle_insert_fails (msg : Delivery) (v : JSON) (world : World) :
  Body msg = Some v ->
  (forall e, exists e', decodeEvent v e = Some e' /\ RetryCount e' = RetryCount e) ->
  Storage.insertFails (Storage.db (store world))
    (Storage.insertCalls (Storage.db (store world))) = true ->
  exists world',
    handle decodeEvent NewWorker msg world = (Nack true, world') /\
    Storage.insertFails (Storage.db (store world'))
      = Storage.insertFails (Storage.db (store world)) /\
    Storage.insertCalls (Storage.db (store world'))
      = S (Storage.insertCalls (Storage.db (store world))) /\
    outputs (rng world') = outputs (rng world) /\
    drawn (rng world') = S (drawn (rng world)) /\
    slept world' =
      (slept world
       ++ [calculateBackoff NewWorker 1 (outputs (rng world) (drawn (rng world)))])%list.
Proof.
  intros Hbody Hdec Hfail.
  unfold handle, bind, time_Now, onStore, zoom, Storage.time_Now, clock_now.
  simpl. rewrite Hbody. simpl.
  destruct (Hdec (newEvent (readings (Storage.clk (store world))
                              (ticks (Storage.clk (store world))))))
    as (e' & He' & Hrc).
  rewrite He'. simpl in Hrc.
  unfold processEvent, bind, onStore, zoom, Storage.InsertEvent, bind, ret,
    Storage.InsertOne. simpl. rewrite Hfail. simpl.
  unfold handleError.
  match goal with
  | |- context [set_RetryCount ?e (incr (RetryCount ?e))] =>
      assert (Hone : RetryCount e = 0)
        by (destruct (Status _ =? "")%string; simpl;
            rewrite ?RetryCount_withHeaders; exact Hrc)
  end.
  rewrite Hone. simpl.
  unfold bind, rand_Uint64, onStore, zoom, Storage.UpdateEventStatus, bind,
    Storage.time_Now, clock_now, Storage.UpdateOne, Sleep, modify, ret. simpl.
  eexists. split; [ reflexivity | ]. simpl. repeat split; reflexivity.
Qed.

(** C3. A delivery whose insertion fails on every attempt never exhausts
    the retry budget: however many times the loop takes it up, each
    attempt ends in a nack with requeue, the delivery is back in the
    queue, it is never acknowledged, and every attempt sleeps the backoff
    of a first retry. *)
Theorem C3_retry_budget_never_reached (msg : Delivery) (v : JSON) (n : nat)
    (world : World) :
  Body msg = Some v ->
  (forall e, exists e', decodeEvent v e = Some e' /\ RetryCount e' = RetryCount e) ->
  (forall k, Storage.insertFails (Storage.db (store world)) k = true) ->
  let r := consume decodeEvent NewWorker n [msg] world in
  fst r = ([msg], repeat (Nack true) n) /\
  ~ In Ack (snd (fst r)) /\
  Storage.insertCalls (Storage.db (store (snd r)))
    = (Storage.insertCalls (Storage.db (store world)) + n)%nat /\
  slept (snd r) =
    (slept world
     ++ map (fun i => calculateBackoff NewWorker 1
                        (outputs (rng world) (drawn (rng world) + i)))
            (seq 0 n))%list.
Proof.
  intros Hbody Hdec. revert world. induction n as [|n IH]; intros world Hfail r; subst r.
  - simpl. unfold ret. simpl. rewrite app_nil_r, Nat.add_0_r. auto.
  - simpl. unfold bind, ret.
    destruct (handle_insert_fails msg v world Hbody Hdec (Hfail _))
      as (world' & Hh & Hf' & Hc' & Ho' & Hd' & Hs').
    rewrite Hh. simpl.
    assert (Hfail' : forall k, Storage.insertFails (Storage.db (store world')) k = true)
      by (intros k; rewrite Hf'; apply Hfail).
    destruct (IH world' Hfail') as (Hq & Hno & Hcalls & Hslept).
    destruct (consume decodeEvent NewWorker n [msg] world') as [[q ss] w2].
    simpl in *. injection Hq as -> ->.
    split; [ reflexivity | ]. split; [ | split ].
    + intros [Hbad|Hbad]; [ discriminate Hbad | contradiction ].
    + rewrite Hcalls, Hc'. lia.
    + rewrite Hslept, Hs'. rewrite <- app_assoc. simpl.
      do 2 f_equal.
      * by rewrite Nat.add_0_r.
      * rewrite <- seq_shift, map_map. apply map_ext. intros i.
        rewrite Ho', Hd'. do 2 f_equal. lia.
Qed.


(** C9. A delivery whose body is not valid JSON is nacked without
    requeue: it leaves the queue, and the store is not touched (no insert,
    no update; the collection and the call counters are as before). *)
Theorem C9_malformed_delivery_dropped (w : Worker) (msg : Delivery)
    (rest : list Delivery) (world : World) :
  Body msg = None ->
  let r := handle decodeEvent w msg world in
  fst r = Nack false /\
  Storage.db (store (snd r)) = Storage.db (store world) /\
  slept (snd r) = slept world /\
  fst (consume decodeEvent w 1 (msg :: rest) world) = (rest, [Nack false]).
Proof.
  intros Hbody r. subst r.
  assert (Hh : handle decodeEvent w msg world = (Nack false, snd (time_Now world))).
  { unfold handle, bind, time_Now, onStore, zoom, Storage.time_Now, clock_now.
    simpl. by rewrite Hbody. }
  rewrite Hh. simpl. repeat split.
  unfold bind, ret. rewrite Hh. simpl. by destruct rest.
Qed.

End Facts.

(** C9 for a delivery that is not JSON. *)
Lemma C9_malformed_delivery_dropped_witness :
  Body garbage = None /\
  fst (handle decodeUntagged NewWorker garbage failingStore) = Nack false /\
  Storage.collection (Storage.db (store (snd (handle decodeUntagged NewWorker
                                                garbage failingStore)))) = [].
Proof.
  pose proof (C9_malformed_delivery_dropped decodeUntagged NewWorker garbage []
                failingStore eq_refl) as (Hn & Hdb & _).
  split; [ reflexivity | ]. split; [ exact Hn | ].
  rewrite Hdb. reflexivity.
Defined.

(** C3 for the delivery [{}] and four turns of the loop. *)
Lemma C3_retry_budget_never_reached_witness :
  Body emptyObject = Some (JObject ∅) /\
  fst (consume decodeUntagged NewWorker 4 [emptyObject] failingStore)
    = ([emptyObject], [Nack true; Nack true; Nack true; Nack true]).
Proof.
  split; [ reflexivity | ].
  refine (proj1 (C3_retry_budget_never_reached decodeUntagged emptyObject
                   (JObject ∅) 4 failingStore eq_refl _ _)).
  - intros e. exists e. split; reflexivity.
  - intros k. reflexivity.
Defined.

(** Scenario 6 of the spec, run: after three failed insertions the
    delivery is still queued, nothing was acknowledged, no document says
    ["failed"], and each pause was that of a first retry. *)
Example scenario6_run :
  let r := consume decodeUntagged NewWorker 3 [emptyObject] failingStore in
  fst r = ([emptyObject], [Nack true; Nack true; Nack true]) /\
  Storage.collection (Storage.db (store (snd r))) = [] /\
  slept (snd r) = [5 * Second; 5 * Second; 5 * Second].
Proof. vm_compute. repeat split; reflexivity. Qed.

(** With a store that works the same delivery is stored, marked
    processed and acknowledged. *)
Example happy_path_run :
  let world := {| store := Storage.emptyStore 0; rng := rng failingStore; slept := [] |} in
  let r := consume decodeUntagged NewWorker 3 [emptyObject] world in
  fst r = ([], [Ack]) /\
  exists doc, Storage.collection (Storage.db (store (snd r))) = [doc] /\
    doc !! "status" = Some (Storage.BString "processed") /\
    doc !! "retry_count" = Some (Storage.BInt 0).
Proof.
  vm_compute. split; [ reflexivity | ].
  eexists. split; [ reflexivity | ]. split; reflexivity.
Qed.

End WorkerFacts.

(** * Further properties *)

(** ** Rate limiter: isolation, charging and growth *)

Module RateLimitMore.
Import RateLimit RateLimitFacts.

(** X1. A request of one tenant leaves the entry of every other tenant,
    and the plan limits, as they were. *)
Theorem AllowRequest_other_tenants (c k : string) (s : St) :
  c <> k ->
  limits (rl (snd (AllowRequest c s))) !! k = limits (rl s) !! k /\
  freePlan_dailyLimit (rl (snd (AllowRequest c s))) = freePlan_dailyLimit (rl s) /\
  freePlan_webhookLimit (rl (snd (AllowRequest c s))) = freePlan_webhookLimit (rl s) /\
  premiumPlan_webhookLimit (rl (snd (AllowRequest c s))) = premiumPlan_webhookLimit (rl s).
Proof.
  intros Hne. rewrite AllowRequest_eq.
  destruct (lookupOrCreate s c) as [l k']. simpl.
  split; [ by apply lookup_insert_ne | auto ].
Qed.

Lemma AllowRequest_other_tenants_witness :
  "t1" <> "t2" /\
  limits (rl (snd (AllowRequest "t1" (snd (AllowRequest "t2" (idle 0)))))) !! "t2"
    = limits (rl (snd (AllowRequest "t2" (idle 0)))) !! "t2".
Proof.
  split; [ intros H; discriminate H | ].
  apply (AllowRequest_other_tenants "t1" "t2"). intros H; discriminate H.
Defined.

(** The entry a call works on, in a reachable state. *)
Lemma reachable_entry (s : St) (c : string) :
  reachable s ->
  let (l, k) := lookupOrCreate s c in
  webhookCount l = 0 /\ isPremium l = false /\ 0 <= dailyCount l <= 10000.
Proof.
  intros Hr. destruct (reachable_invariant s Hr) as (_ & _ & _ & Hall).
  unfold lookupOrCreate. destruct (limits (rl s) !! c) eqn:E.
  - by apply Hall in E.
  - simpl. lia.
Qed.

(** X2. In a reachable state a refused request changes nothing in the
    limiter: the table and the plan limits are as before, and the tenant
    was known already (a first request is never refused). *)
Theorem refused_request_leaves_limiter (s : St) (c : string) :
  reachable s ->
  fst (AllowRequest c s) = false ->
  rl (snd (AllowRequest c s)) = rl s /\ is_Some (limits (rl s) !! c).
Proof.
  intros Hr. pose proof (reachable_invariant s Hr) as (Hd & Hw & Hp & Hall).
  pose proof (reachable_entry s c Hr) as Hent.
  rewrite AllowRequest_eq. unfold lookupOrCreate in *.
  destruct (limits (rl s) !! c) as [l|] eqn:Hl; simpl.
  - destruct Hent as (Hwc & Hpr & Hdc).
    destruct (rolled_fields (readings (clk s) (ticks (clk s))) l) as (Rw & Rp & Rd).
    unfold accepts. rewrite Rp, Hpr, Rw, Hwc, Hw, Hd. simpl.
    destruct (Z.leb_spec 10000 (dailyCount (rolled (readings (clk s) (ticks (clk s))) l)))
      as [Hge|Hlt]; simpl; [ | discriminate ].
    intros _. split; [ | by eexists ].
    assert (Hsame : rolled (readings (clk s) (ticks (clk s))) l = l).
    { unfold rolled in *.
      destruct (24 * Hour <=? Sub (readings (clk s) (ticks (clk s))) (lastReset l));
        [ simpl in Hge; lia | reflexivity ]. }
    rewrite Hsame, insert_id by exact Hl.
    by destruct (rl s).
  - unfold accepts, rolled, fresh. simpl.
    destruct (24 * Hour <=? Sub _ _); simpl; rewrite Hw, Hd; simpl; discriminate.
Qed.

Lemma calls_reachable (n : nat) (c : string) (s : St) :
  reachable s -> reachable (snd (calls n c s)).
Proof.
  revert s. induction n as [|n IH]; intros s Hs; simpl; [ exact Hs | ].
  unfold bind, ret. pose proof (reach_allow s c Hs) as H1.
  destruct (AllowRequest c s) as [b s1]. simpl in H1.
  specialize (IH s1 H1). by destruct (calls n c s1).
Qed.

(** After 10000 accepted requests the next one is refused. *)
Lemma refused_after_cap :
  fst (AllowRequest "t1" (snd (calls (Z.to_nat 10000) "t1" (idle 0)))) = false.
Proof.
  assert (Hcap : Z.of_nat (Z.to_nat 10000) = 10000) by (apply Z2Nat.id; lia).
  assert (Hd : freePlan_dailyLimit (rl (idle 0)) = Z.of_nat (Z.to_nat 10000))
    by exact (eq_sym Hcap).
  assert (Hb : 0 < Z.of_nat (Z.to_nat 10000) < 2 ^ 62) by lia.
  pose proof (cap_run (idle 0) "t1" (Z.to_nat 10000) Hd Hb eq_refl eq_refl) as Hrun.
  cbv zeta in Hrun.
  specialize (Hrun ltac:(intros; reflexivity)). destruct Hrun as (Hrun & _).
  rewrite calls_app in Hrun.
  destruct (calls (Z.to_nat 10000) "t1" (idle 0)) as [bs s1].
  cbn [snd]. cbn [calls] in Hrun. unfold bind, ret in Hrun.
  destruct (AllowRequest "t1" s1) as [b s2]. cbn [fst snd] in *.
  apply app_inj_tail in Hrun. by destruct Hrun.
Qed.

Lemma refused_request_leaves_limiter_witness :
  let s := snd (calls (Z.to_nat 10000) "t1" (idle 0)) in
  reachable s /\ fst (AllowRequest "t1" s) = false /\
  rl (snd (AllowRequest "t1" s)) = rl s.
Proof.
  intros s.
  assert (Hr : reachable s) by (apply calls_reachable, reach_new).
  split; [ exact Hr | ]. split; [ exact refused_after_cap | ].
  exact (proj1 (refused_request_leaves_limiter s "t1" Hr refused_after_cap)).
Defined.

(** X3. In a reachable state every request leaves an entry for its
    tenant whose count is the count the call compared (zero for a new
    tenant or a rolled window) plus one if the request was accepted and
    plus nothing if it was refused; the count stays within the cap. *)
Theorem request_charged_once (s : St) (c : string) :
  reachable s ->
  exists l',
    limits (rl (snd (AllowRequest c s))) !! c = Some l' /\
    dailyCount l' = windowCount s c + (if fst (AllowRequest c s) then 1 else 0) /\
    0 <= dailyCount l' <= 10000.
Proof.
  intros Hr. pose proof (reachable_invariant s Hr) as (Hd & Hw & Hp & Hall).
  pose proof (reachable_entry s c Hr) as Hent.
  rewrite AllowRequest_eq. unfold windowCount.
  destruct (lookupOrCreate s c) as [l k]. destruct Hent as (Hwc & Hpr & Hdc).
  destruct (rolled_fields (readings k (ticks k)) l) as (Rw & Rp & Rd).
  simpl. rewrite lookup_insert_eq. eexists. split; [ reflexivity | ].
  unfold accepts. rewrite Rp, Hpr, Rw, Hwc, Hw, Hd. simpl.
  destruct (Z.leb_spec 10000 (dailyCount (rolled (readings k (ticks k)) l)));
    simpl; [ lia | ].
  rewrite incr_small by lia. lia.
Qed.

Lemma request_charged_once_witness :
  reachable (idle 0) /\
  exists l', limits (rl (snd (AllowRequest "t1" (idle 0)))) !! "t1" = Some l' /\
             dailyCount l' = 1.
Proof.
  split; [ apply reach_new | ].
  destruct (request_charged_once (idle 0) "t1" (reach_new _)) as (l' & Hl & Hc & _).
  exists l'. split; [ exact Hl | exact Hc ].
Defined.

(** X4. A request creates the entry of its tenant if there is none and
    removes no entry: the table only grows, by one entry per distinct
    tenant identifier. *)
Theorem AllowRequest_table_grows (s : St) (c : string) :
  dom (limits (rl (snd (AllowRequest c s)))) = {[ c ]} ∪ dom (limits (rl s)).
Proof.
  rewrite AllowRequest_eq. destruct (lookupOrCreate s c) as [l k]. simpl.
  apply dom_insert_L.
Qed.

(** X5. In every reachable state the limits are those of
    [NewRateLimiter] and every stored daily count lies between 0 and the
    cap of 10000, so the counter never wraps around. *)
Theorem reachable_counts_within_cap (s : St) (k : string) (l : clientLimit) :
  reachable s ->
  limits (rl s) !! k = Some l ->
  0 <= dailyCount l <= freePlan_dailyLimit (rl s) /\
  freePlan_dailyLimit (rl s) = 10000 /\
  freePlan_webhookLimit (rl s) = 20 /\
  premiumPlan_webhookLimit (rl s) = 50.
Proof.
  intros Hr Hl. destruct (reachable_invariant s Hr) as (Hd & Hw & Hp & Hall).
  apply Hall in Hl as (_ & _ & Hdc). rewrite Hd. auto.
Qed.

Lemma reachable_counts_within_cap_witness :
  let s := snd (AllowRequest "t1" (idle 0)) in
  reachable s /\
  exists l, limits (rl s) !! "t1" = Some l /\ 0 <= dailyCount l <= 10000.
Proof.
  intros s.
  assert (Hr : reachable s) by (apply reach_allow, reach_new).
  split; [ exact Hr | ]. eexists. split; [ reflexivity | ].
  pose proof (reachable_counts_within_cap s "t1" _ Hr eq_refl) as (Hb & Hd & _).
  rewrite Hd in Hb. exact Hb.
Defined.

End RateLimitMore.

(** ** Ingress: identities, attribution, publication and the API-key branch *)

Module IngressMore.

Lemma firstID_nonempty (data : gmap string JSON) (fields : list string) (v : string) :
  firstID data fields = Some v -> v <> "".
Proof.
  induction fields as [|f fields IH]; simpl; [ discriminate | ].
  destruct (asString (data !! f)) as [x|]; [ | exact IH ].
  destruct (String.eqb_spec x ""); simpl; [ exact IH | ].
  intros [= <-]. assumption.
Qed.

(** What [generateWebhookID] returns and what it does to the state. *)
Lemma generateWebhookID_cases (data : gmap string JSON) (w : World) :
  let r := generateWebhookID data w in
  fst r <> "" /\
  (firstID data idFields = None -> exists rest, fst r = "mc_" ++ rest) /\
  (snd r = w \/
   (firstID data idFields = None /\ components data = [] /\
    r = ("mc_" ++ decimalZ (readings (clock w) (ticks (clock w))),
         snd (time_Now w)))).
Proof.
  intros r. subst r. unfold generateWebhookID.
  destruct (firstID data idFields) as [v|] eqn:Hid.
  - unfold ret. simpl. split; [ by apply firstID_nonempty in Hid | ].
    split; [ discriminate | by left ].
  - destruct (components data) as [|x xs] eqn:Hc.
    + unfold bind, ret, time_Now, clock_now. simpl.
      split; [ discriminate | ]. split; [ by eexists | right; auto ].
    + unfold ret. simpl. split; [ discriminate | ]. split; [ by eexists | by left ].
Qed.

(** X6. [generateWebhookID] never yields the empty string.  Unless a
    body field supplies the identity it starts with ["mc_"], and only the
    last resort (no identity field, no component) reads the clock; in
    every other case the state is left alone. *)
Theorem generateWebhookID_never_empty (data : gmap string JSON) (w : World) :
  let r := generateWebhookID data w in
  fst r <> "" /\
  (firstID data idFields = None -> exists rest, fst r = "mc_" ++ rest) /\
  (snd r = w \/
   (firstID data idFields = None /\ components data = [] /\
    r = ("mc_" ++ decimalZ (readings (clock w) (ticks (clock w))),
         snd (time_Now w)))).
Proof. exact (generateWebhookID_cases data w). Qed.

Lemma published_time_Now (w : World) :
  published (snd (time_Now w)) = published w /\
  rateLimiter (snd (time_Now w)) = rateLimiter w /\
  brokerUp (snd (time_Now w)) = brokerUp w.
Proof. unfold time_Now. destruct (clock_now (clock w)). simpl. auto. Qed.

Lemma published_AllowRequest (c : string) (w : World) :
  published (snd (AllowRequest c w)) = published w /\
  brokerUp (snd (AllowRequest c w)) = brokerUp w.
Proof.
  unfold AllowRequest, zoom. destruct (RateLimit.AllowRequest c _). simpl. auto.
Qed.

Lemma published_generateWebhookID (data : gmap string JSON) (w : World) :
  published (snd (generateWebhookID data w)) = published w /\
  rateLimiter (snd (generateWebhookID data w)) = rateLimiter w /\
  brokerUp (snd (generateWebhookID data w)) = brokerUp w.
Proof.
  destruct (generateWebhookID_cases data w) as (_ & _ & [->|(_ & _ & ->)]);
    [ auto | ].
  cbn [snd]. apply published_time_Now.
Qed.

Section Handler.

Variable mapper : option (gmap string string).

(** X7. The handler publishes at most one event per request, and it
    answers "Event accepted" exactly when it has published one.  The
    answer then carries the identity and the tenant of that event; the
    event is pending with a retry count of zero, its tenant is the one
    derived from the [Webhook-Id] header, and its type is ["email_event"]
    whatever the [Webhook-Type] header says. *)
Theorem HandleWebhook_accepted_iff_published (c : Context) (w : World) :
  let r := HandleWebhook mapper c w in
  (published (snd r) = published w /\
   H (fst r) !! "message" <> Some (JString "Event accepted"))
  \/
  (exists e data,
     published (snd r) = (published w ++ [e])%list /\
     fst r = respond 200 [("message", JString "Event accepted");
                          ("webhook_id", JString (WebhookID e));
                          ("client_id", JString (ClientID e))] /\
     fst (ShouldBindJSON c) = Some data /\
     ClientID e = extractClientID mapper c data /\
     WebhookID e <> "" /\
     WebhookType e = "email_event" /\
     Status e = EventStatusPending /\
     RetryCount e = 0).
Proof.
  intros r. subst r. unfold HandleWebhook, bind.
  destruct (time_Now w) as [start w1] eqn:Hw1.
  pose proof (published_time_Now w) as (Hp1 & _ & _). rewrite Hw1 in Hp1. simpl in Hp1.
  destruct (Method c =? "GET")%string.
  { left. unfold ret. simpl. split; [ exact Hp1 | ]. vm_compute. discriminate. }
  destruct (ShouldBindJSON c) as [bound c'] eqn:Hbind.
  assert (Hhdr : Header c' = Header c)
    by (pose proof (ShouldBindJSON_rest c) as (_ & _ & Hh); by rewrite Hbind in Hh).
  destruct bound as [data|].
  2: { left. unfold ret. simpl. split; [ exact Hp1 | ]. vm_compute. discriminate. }
  destruct (UserAgent c' =? "MailerCloud")%string.
  { left. unfold ret. simpl. split; [ exact Hp1 | ]. vm_compute. discriminate. }
  assert (Hcid : extractClientID mapper c' data = extractClientID mapper c data)
    by (unfold extractClientID, GetHeader; by rewrite Hhdr).
  rewrite Hcid.
  destruct (AllowRequest (extractClientID mapper c data) w1) as [allowed w2] eqn:Hw2.
  pose proof (published_AllowRequest (extractClientID mapper c data) w1) as (Hp2 & _).
  rewrite Hw2 in Hp2. simpl in Hp2.
  destruct allowed; cbn [negb].
  2: { left. unfold ret. simpl. split; [ congruence | ]. vm_compute. discriminate. }
  destruct (generateWebhookID data w2) as [wid w3] eqn:Hw3.
  pose proof (published_generateWebhookID data w2) as (Hp3 & _ & _).
  pose proof (generateWebhookID_cases data w2) as (Hne & _ & _).
  rewrite Hw3 in Hp3, Hne. simpl in Hp3, Hne.
  destruct (time_Now w3) as [rcv w4] eqn:Hw4.
  pose proof (published_time_Now w3) as (Hp4 & _ & _). rewrite Hw4 in Hp4. simpl in Hp4.
  unfold Publish.
  destruct (brokerUp w4) eqn:Hup.
  - right. eexists. exists data.
    match goal with
    | |- context [if ?b then _ else ret tt] => destruct b
    end; unfold bind, ret, time_Now, clock_now; simpl;
      (split; [ rewrite Hp4, Hp3, Hp2, Hp1; reflexivity | ]);
      repeat split; try reflexivity; assumption.
  - left.
    match goal with
    | |- context [if ?b then _ else ret tt] => destruct b
    end; unfold bind, ret, time_Now, clock_now; simpl;
      (split; [ congruence | vm_compute; discriminate ]).
Qed.

(** X8. A publish that fails is answered 500 and publishes nothing, but
    the request has been charged: the limiter is in the state the
    accepting [AllowRequest] left it in. *)
Theorem publish_failure_still_charged (c : Context) (data : gmap string JSON)
    (w : World) :
  (Method c =? "GET")%string = false ->
  Body c = Unread (Some (JObject data)) ->
  (UserAgent c =? "MailerCloud")%string = false ->
  brokerUp w = false ->
  let clientID := extractClientID mapper c data in
  fst (AllowRequest clientID (snd (time_Now w))) = true ->
  let r := HandleWebhook mapper c w in
  StatusCode (fst r) = 500 /\
  published (snd r) = published w /\
  rateLimiter (snd r) = rateLimiter (snd (AllowRequest clientID (snd (time_Now w)))).
Proof.
  intros Hm Hb Hua Hdown clientID Hok r. subst r clientID.
  unfold HandleWebhook, bind.
  destruct (time_Now w) as [start w1] eqn:Hw1.
  pose proof (published_time_Now w) as (Hp1 & _ & Hb1). rewrite Hw1 in Hp1, Hb1.
  simpl in Hp1, Hb1, Hok.
  rewrite Hm. unfold ShouldBindJSON. rewrite Hb. cbn [readBody].
  change (UserAgent {| Method := Method c; Header := Header c; Body := Drained |})
    with (UserAgent c). rewrite Hua.
  change (extractClientID mapper
            {| Method := Method c; Header := Header c; Body := Drained |} data)
    with (extractClientID mapper c data).
  destruct (AllowRequest (extractClientID mapper c data) w1) as [allowed w2] eqn:Hw2.
  pose proof (published_AllowRequest (extractClientID mapper c data) w1) as (Hp2 & Hb2).
  rewrite Hw2 in Hp2, Hb2. simpl in Hp2, Hb2, Hok. subst allowed. cbn [negb].
  destruct (generateWebhookID data w2) as [wid w3] eqn:Hw3.
  pose proof (published_generateWebhookID data w2) as (Hp3 & Hr3 & Hb3).
  rewrite Hw3 in Hp3, Hr3, Hb3. simpl in Hp3, Hr3, Hb3.
  destruct (time_Now w3) as [rcv w4] eqn:Hw4.
  pose proof (published_time_Now w3) as (Hp4 & Hr4 & Hb4).
  rewrite Hw4 in Hp4, Hr4, Hb4. simpl in Hp4, Hr4, Hb4.
  unfold Publish.
  assert (Hdown4 : brokerUp w4 = false) by congruence. rewrite Hdown4.
  match goal with
  | |- context [if ?b then _ else ret tt] => destruct b
  end; unfold bind, ret, time_Now, clock_now; simpl; rewrite Hw2; simpl;
    (split; [ reflexivity | split; congruence ]).
Qed.

(** X10. Attribution looks at the [Webhook-Id] header only: a bound id
    gives the bound tenant, an unbound one stands for the tenant itself,
    and without the header the production handler says ["unknown"]
    whatever the body holds.  The debug handler agrees whenever the header
    is present; without it, it takes the first non-empty string among the
    client fields of the body before giving up. *)
Theorem attribution_by_header (c : Context) (data : gmap string JSON) :
  let webhookID := GetHeader c "Webhook-Id" in
  (webhookID = "" ->
     extractClientID mapper c data = "unknown" /\
     DebugHandler.extractClientID mapper c data
       = default "unknown" (firstID data DebugHandler.clientFields)) /\
  (webhookID <> "" ->
     DebugHandler.extractClientID mapper c data = extractClientID mapper c data /\
     extractClientID mapper c data
       = default webhookID (mapper ≫= fun m => m !! webhookID)).
Proof.
  intros webhookID. unfold extractClientID, DebugHandler.extractClientID.
  fold webhookID. split.
  - intros ->. destruct mapper; simpl; split; try reflexivity;
      by destruct (firstID data DebugHandler.clientFields).
  - intros Hne. destruct (String.eqb_spec webhookID ""); [ contradiction | ].
    simpl. destruct mapper as [m|]; simpl; [ | auto ].
    unfold GetClientForWebhook. by destruct (m !! webhookID).
Qed.

End Handler.

Section Route.

Variable cfg : SecurityConfig.
Variable handler : Context -> M World Response.

(** X11. A request that is no probe is dispatched on the [Webhook-Id]
    header alone: with the header it goes to the handler and the API key
    is not looked at; without it, a missing (or empty) key is answered 401
    "Missing API key", a key that is not configured 401 "Invalid API
    key", both without touching the state, and only a configured key
    reaches the handler.  The handler receives the request with its
    headers and with what the route's bind has left of the body: nothing,
    when the body held one JSON text. *)
Theorem route_dispatch (c : Context) (w : World) :
  GetHeader c "Webhook-Id" <> "WebhookID" ->
  GetHeader c "User-Agent" <> "MailerCloud" ->
  (forall m, fst (ShouldBindJSON c) = Some m -> minimalPayload m = false) ->
  let apiKey := GetHeader c (APIKeyHeader cfg) in
  let c' := snd (ShouldBindJSON c) in
  let r := webhookPOST cfg handler c w in
  Header c' = Header c /\
  Body c' = snd (readBody (Body c)) /\
  (forall p, Body c = Unread p -> Body c' = Drained) /\
  (GetHeader c "Webhook-Id" <> "" -> r = handler c' w) /\
  (GetHeader c "Webhook-Id" = "" ->
     (apiKey = "" -> r = (respond 401 [("error", JString "Missing API key")], w)) /\
     (apiKey <> "" -> ~ In apiKey (APIKeys cfg) ->
        r = (respond 401 [("error", JString "Invalid API key")], w)) /\
     (apiKey <> "" -> In apiKey (APIKeys cfg) -> r = handler c' w)).
Proof.
  intros Hid Hua Hmin apiKey c' r. subst apiKey c' r.
  pose proof (ShouldBindJSON_rest c) as (Hb & _ & Hh).
  split; [ exact Hh | ]. split; [ exact Hb | ].
  split; [ intros p Hp; rewrite Hb, Hp; reflexivity | ].
  unfold webhookPOST.
  destruct (ShouldBindJSON c) as [bound c'] eqn:Hbind. cbn [fst snd] in *.
  assert (Hget : forall k, GetHeader c' k = GetHeader c k)
    by (intros k; unfold GetHeader; by rewrite Hh).
  destruct (String.eqb_spec (GetHeader c "Webhook-Id") "WebhookID"); [ contradiction | ].
  destruct (String.eqb_spec (GetHeader c "User-Agent") "MailerCloud"); [ contradiction | ].
  cbn [orb].
  assert (Hv : match bound with
               | Some requestBody => if minimalPayload requestBody then true else false
               | None => false
               end = false).
  { destruct bound as [m|]; [ | reflexivity ]. by rewrite (Hmin m eq_refl). }
  rewrite Hv. rewrite Hget.
  destruct (String.eqb_spec (GetHeader c "Webhook-Id") "") as [He|He]; cbn [negb andb].
  - split; [ contradiction | ]. intros _.
    destruct (String.eqb_spec (GetHeader c (APIKeyHeader cfg)) "") as [Hk|Hk].
    + repeat split; intros; (reflexivity || contradiction).
    + destruct (existsb (fun key => (key =? GetHeader c (APIKeyHeader cfg))%string)
                  (APIKeys cfg)) eqn:Hex; cbn [negb].
      * apply existsb_exists in Hex as (key & Hin & Heq).
        apply String.eqb_eq in Heq. subst key.
        repeat split; intros; (reflexivity || contradiction).
      * repeat split; intros; try reflexivity; try contradiction.
        exfalso. apply Bool.not_true_iff_false in Hex. apply Hex.
        apply existsb_exists. eexists. split; [ eassumption | apply String.eqb_refl ].
  - split; [ reflexivity | ]. intros Hc. contradiction.
Qed.

End Route.

Lemma publish_failure_still_charged_witness :
  brokerUp downWorld = false /\
  StatusCode (fst (HandleWebhook registry vendorRequest downWorld)) = 500 /\
  published (snd (HandleWebhook registry vendorRequest downWorld)) = [].
Proof.
  split; [ reflexivity | ].
  pose proof (publish_failure_still_charged registry vendorRequest deliveredBody
                downWorld eq_refl eq_refl eq_refl eq_refl eq_refl) as (Hc & Hp & _).
  split; [ exact Hc | exact Hp ].
Defined.

Lemma route_dispatch_witness :
  GetHeader vendorRequest "Webhook-Id" <> "" /\
  webhookPOST noKeys (HandleWebhook registry) vendorRequest quietWorld
    = HandleWebhook registry (snd (ShouldBindJSON vendorRequest)) quietWorld.
Proof.
  assert (Hid : GetHeader vendorRequest "Webhook-Id" <> "")
    by (vm_compute; discriminate).
  split; [ exact Hid | ].
  refine (proj1 (proj2 (proj2 (proj2
            (route_dispatch noKeys (HandleWebhook registry) vendorRequest
               quietWorld _ _ _)))) Hid).
  - vm_compute. discriminate.
  - vm_compute. discriminate.
  - intros m H. vm_compute in H. injection H as <-. vm_compute. reflexivity.
Defined.

Lemma webhookPOST_never_publishes_witness :
  (Method vendorRequest =? "GET")%string = false /\
  snd (readBody (Body vendorRequest)) = Drained /\
  published (snd (webhookPOST noKeys (HandleWebhook registry) vendorRequest quietWorld))
    = [].
Proof.
  split; [ reflexivity | ]. split; [ reflexivity | ].
  exact (proj1 (webhookPOST_never_publishes noKeys registry vendorRequest quietWorld
                  eq_refl eq_refl)).
Defined.

End IngressMore.

(** ** The composite identity as a code *)

Module IdentityFacts.

Lemma get_digit_inj (i j : nat) :
  (i < 16)%nat -> (j < 16)%nat ->
  String.get i "0123456789abcdef" = String.get j "0123456789abcdef" -> i = j.
Proof.
  intros Hi Hj.
  do 16 (destruct i as [|i]; [ do 16 (destruct j as [|j];
           [ simpl; intros H; (reflexivity || discriminate H) | ]); lia | ]).
  lia.
Qed.

Lemma hexDigit_inj (a b : N) :
  (a < 16)%N -> (b < 16)%N -> hexDigit a = hexDigit b -> a = b.
Proof.
  intros Ha Hb H. apply N2Nat.inj. unfold hexDigit in H.
  assert (Hi : (N.to_nat a < 16)%nat) by lia.
  assert (Hj : (N.to_nat b < 16)%nat) by lia.
  apply get_digit_inj; try assumption.
  revert H. generalize (N.to_nat a) (N.to_nat b) Hi Hj. clear.
  intros i j Hi Hj.
  do 16 (destruct i as [|i]; [ do 16 (destruct j as [|j];
           [ simpl; intros H; (reflexivity || discriminate H || congruence) | ]); lia | ]).
  lia.
Qed.

Lemma hexDigit_not_space (n : N) : hexDigit n <> " "%char.
Proof.
  unfold hexDigit. generalize (N.to_nat n). intros i.
  do 17 (destruct i as [|i]; [ simpl; discriminate | ]).
  simpl. discriminate.
Qed.

Lemma byte_split (a : ascii) :
  (N_of_ascii a / 16 < 16)%N /\ (N_of_ascii a mod 16 < 16)%N.
Proof.
  pose proof (N_ascii_bounded a) as Hb. split.
  - apply N.Div0.div_lt_upper_bound. exact Hb.
  - apply N.mod_lt. discriminate.
Qed.

(** The hexadecimal rendering of a string determines the string. *)
Lemma hexString_inj (s1 s2 : string) : hexString s1 = hexString s2 -> s1 = s2.
Proof.
  revert s2. induction s1 as [|a s1 IH]; intros [|b s2]; simpl; intros H;
    try discriminate H; [ reflexivity | ].
  injection H as H1 H2 H3.
  destruct (byte_split a) as (Ha1 & Ha2), (byte_split b) as (Hb1 & Hb2).
  apply hexDigit_inj in H1; [ | assumption .. ].
  apply hexDigit_inj in H2; [ | assumption .. ].
  f_equal; [ | by apply IH ].
  rewrite <- (ascii_N_embedding a), <- (ascii_N_embedding b). f_equal.
  rewrite (N.div_mod (N_of_ascii a) 16), (N.div_mod (N_of_ascii b) 16) by discriminate.
  by rewrite H1, H2.
Qed.

Lemma hexString_free (s : string) : free " " (hexString s).
Proof.
  induction s as [|a s IH]; simpl; [ exact I | ].
  repeat split; try apply hexDigit_not_space. exact IH.
Qed.

Lemma hexString_nonempty (s : string) : s <> "" -> hexString s <> "".
Proof. destruct s; [ congruence | discriminate ]. Qed.

Lemma free_app_space (x r : string) : ~ free " " (x ++ " " ++ r).
Proof.
  induction x as [|a x IH]; simpl.
  - intros [H _]. by apply H.
  - intros [_ H]. by apply IH.
Qed.

Lemma split_at_space (x y r1 r2 : string) :
  free " " x -> free " " y ->
  (x ++ " " ++ r1 = y ++ " " ++ r2)%string -> x = y /\ r1 = r2.
Proof.
  revert y. induction x as [|a x IH]; intros [|b y] Hx Hy H; simpl in *.
  - injection H as H. simpl in H. auto.
  - injection H as Hb _. destruct Hy as [Hy _]. by contradiction Hy.
  - injection H as Ha _. destruct Hx as [Hx _]. by contradiction Hx.
  - injection H as -> H. destruct Hx as [_ Hx], Hy as [_ Hy].
    destruct (IH y Hx Hy H) as [-> ->]. auto.
Qed.

(** Words joined by single spaces can be told apart again. *)
Lemma joinWith_space_inj (l1 l2 : list string) :
  Forall word l1 -> Forall word l2 ->
  joinWith " " l1 = joinWith " " l2 -> l1 = l2.
Proof.
  revert l2. induction l1 as [|x l1 IH]; intros l2 H1 H2 H.
  - destruct l2 as [|y [|z l2]]; [ reflexivity | | ]; simpl in H.
    + apply Forall_inv in H2 as [Hy _]. congruence.
    + destruct y; discriminate H.
  - apply Forall_cons_iff in H1 as [[Hx Hfx] H1].
    destruct l2 as [|y l2].
    { destruct l1; simpl in H; [ congruence | destruct x; discriminate H ]. }
    apply Forall_cons_iff in H2 as [[Hy Hfy] H2].
    destruct l1 as [|x' l1], l2 as [|y' l2].
    + simpl in H. by subst.
    + change (x = y ++ " " ++ joinWith " " (y' :: l2))%string in H.
      subst x. by apply free_app_space in Hfx.
    + change (x ++ " " ++ joinWith " " (x' :: l1) = y)%string in H.
      subst y. by apply free_app_space in Hfy.
    + change (x ++ " " ++ joinWith " " (x' :: l1)
              = y ++ " " ++ joinWith " " (y' :: l2))%string in H.
      apply split_at_space in H as [-> H]; try assumption.
      f_equal. by apply IH.
Qed.

Lemma append_bracket_inj (a b : string) : (a ++ "]" = b ++ "]")%string -> a = b.
Proof.
  revert b. induction a as [|c a IH]; intros [|d b] H; simpl in H.
  - reflexivity.
  - injection H as _ H. destruct b; discriminate H.
  - injection H as _ H. destruct a; discriminate H.
  - injection H as -> H. f_equal. by apply IH.
Qed.

Lemma map_hexString_inj (l1 l2 : list string) :
  map hexString l1 = map hexString l2 -> l1 = l2.
Proof.
  revert l2. induction l1 as [|x l1 IH]; intros [|y l2] H; simpl in H;
    try discriminate H; [ reflexivity | ].
  injection H as Hx Hl. apply hexString_inj in Hx. subst. f_equal. by apply IH.
Qed.

Lemma hex_words (l : list string) :
  Forall (fun s => s <> "") l -> Forall word (map hexString l).
Proof.
  induction 1 as [|s l Hs _ IH]; simpl; constructor; [ | exact IH ].
  split; [ by apply hexString_nonempty | apply hexString_free ].
Qed.

(** [%x] on a list of non-empty strings loses nothing. *)
Lemma hexStrings_inj (l1 l2 : list string) :
  Forall (fun s => s <> "") l1 -> Forall (fun s => s <> "") l2 ->
  hexStrings l1 = hexStrings l2 -> l1 = l2.
Proof.
  intros H1 H2 H. unfold hexStrings in H. simpl in H. injection H as H.
  simpl in H. apply append_bracket_inj in H.
  apply map_hexString_inj, joinWith_space_inj; try assumption;
    by apply hex_words.
Qed.

Lemma decimalN_nonempty (n : N) : decimalN n <> "".
Proof.
  unfold decimalN. destruct n as [|p]; [ discriminate | ].
  simpl. pose proof (DecimalPos.Unsigned.to_uint_nonnil p) as Hp.
  destruct (Pos.to_uint p); [ contradiction | discriminate .. ].
Qed.

Lemma formatF0_nonempty (f : spec_float) : formatF0 f <> "".
Proof.
  destruct f as [[]|[]| |[] m e]; simpl; try discriminate.
  apply decimalN_nonempty.
Qed.

Lemma nonEmptyString_nonempty (v : option JSON) :
  Forall (fun s => s <> "") (nonEmptyString v).
Proof.
  unfold nonEmptyString. destruct (asString v) as [x|]; [ | constructor ].
  destruct (String.eqb_spec x ""); simpl; constructor; [ assumption | constructor ].
Qed.

Lemma components_nonempty (data : gmap string JSON) :
  Forall (fun s => s <> "") (components data).
Proof.
  unfold components. repeat apply Forall_app_2; try apply nonEmptyString_nonempty.
  destruct (asFloat64 (data !! "ts")); constructor;
    [ apply formatF0_nonempty | constructor ].
Qed.

Lemma append_inv_head (p a b : string) : (p ++ a = p ++ b)%string -> a = b.
Proof.
  induction p as [|c p IH]; simpl; intros H; [ exact H | ].
  injection H as H. by apply IH.
Qed.

(** X9. Among bodies without an identity field and with at least one
    component, two bodies get the same composite identity exactly when
    their lists of components (campaign id, email, printed timestamp,
    event, empties left out) are equal: a redelivered body keeps its
    identity, and bodies that differ in a component never collide. *)
Theorem composite_identity_collision (data1 data2 : gmap string JSON) (w1 w2 : World) :
  firstID data1 idFields = None -> firstID data2 idFields = None ->
  components data1 <> [] -> components data2 <> [] ->
  (fst (generateWebhookID data1 w1) = fst (generateWebhookID data2 w2)
   <-> components data1 = components data2).
Proof.
  intros Hid1 Hid2 Hc1 Hc2. unfold generateWebhookID. rewrite Hid1, Hid2.
  destruct (components data1) as [|x1 l1] eqn:E1; [ contradiction | ].
  destruct (components data2) as [|x2 l2] eqn:E2; [ contradiction | ].
  unfold ret. cbn [fst]. split.
  - intros H. apply append_inv_head in H.
    apply hexStrings_inj in H; [ exact H | | ].
    + rewrite <- E1. apply components_nonempty.
    + rewrite <- E2. apply components_nonempty.
  - intros H. by rewrite H.
Qed.

(** The bodies [{"email":"x"}] and [{"campaign_id":"x"}] have the same
    components, hence the same identity. *)
Lemma composite_identity_collision_witness :
  components byEmail = components byCampaign /\
  fst (generateWebhookID byEmail quietWorld)
    = fst (generateWebhookID byCampaign quietWorld).
Proof.
  split; [ reflexivity | ].
  apply (proj2 (composite_identity_collision byEmail byCampaign quietWorld quietWorld
                  eq_refl eq_refl ltac:(discriminate) ltac:(discriminate))).
  reflexivity.
Defined.

End IdentityFacts.

(** ** Storage adapter: updates and failed insertions *)

Module StorageMore.
Import Storage StorageRead.

(** [updateFirst] changes the first document that carries the id and
    nothing else. *)
Lemma updateFirst_first (id : string) (set : gmap string BSON -> gmap string BSON)
    (docs : list (gmap string BSON)) :
  (unknownID id docs /\ updateFirst id set docs = docs) \/
  (exists pre d post,
     docs = (pre ++ d :: post)%list /\ unknownID id pre /\
     d !! "webhook_id" = Some (BString id) /\
     updateFirst id set docs = (pre ++ set d :: post)%list).
Proof.
  induction docs as [|d docs IH]; simpl.
  - left. split; [ constructor | reflexivity ].
  - assert (Hskip : d !! "webhook_id" <> Some (BString id) ->
        (unknownID id (d :: docs) /\ d :: updateFirst id set docs = d :: docs) \/
        (exists pre d' post,
           d :: docs = (pre ++ d' :: post)%list /\ unknownID id pre /\
           d' !! "webhook_id" = Some (BString id) /\
           d :: updateFirst id set docs = (pre ++ set d' :: post)%list)).
    { intros Hd.
      destruct IH as [[Hu ->]|(pre & d' & post & -> & Hu & Hd' & ->)].
      - left. split; [ by constructor | reflexivity ].
      - right. exists (d :: pre), d', post.
        repeat split; try assumption. by constructor. }
    destruct (d !! "webhook_id") as [[s| | | | |]|] eqn:Hd;
      try (apply Hskip; discriminate).
    destruct (String.eqb_spec s id) as [->|Hne].
    + right. exists [], d, docs. repeat split; [ constructor | exact Hd ].
    + apply Hskip. congruence.
Qed.

Lemma updateFirst_unknown (id : string) (set : gmap string BSON -> gmap string BSON)
    (docs : list (gmap string BSON)) :
  unknownID id docs -> updateFirst id set docs = docs.
Proof.
  induction 1 as [|d docs Hd _ IH]; simpl; [ reflexivity | ].
  destruct (d !! "webhook_id") as [[s| | | | |]|] eqn:E; try (by rewrite IH).
  destruct (String.eqb_spec s id) as [->|]; [ by contradiction Hd | by rewrite IH ].
Qed.

Lemma updateFirst_known (id : string) (set : gmap string BSON -> gmap string BSON)
    (pre post : list (gmap string BSON)) (d : gmap string BSON) :
  unknownID id pre -> d !! "webhook_id" = Some (BString id) ->
  updateFirst id set (pre ++ d :: post) = (pre ++ set d :: post)%list.
Proof.
  induction 1 as [|d0 pre Hd0 _ IH]; intros Hd; simpl.
  - rewrite Hd. by rewrite String.eqb_refl.
  - destruct (d0 !! "webhook_id") as [[s| | | | |]|] eqn:E; try (by rewrite IH).
    destruct (String.eqb_spec s id) as [->|]; [ by contradiction Hd0 | by rewrite IH ].
Qed.

(** X12. [UpdateEventStatus] reports the driver's verdict.  When the
    driver succeeds, either no document carries the event's [webhook_id]
    and the collection is unchanged (no match is not an error), or the
    first such document, and only that one, gets the new [status],
    [retry_count] and [updated_at] (the instant of the call, to the
    millisecond), its other fields being kept; later
    documents with the same id are not touched.  When the driver fails
    the collection is unchanged. *)
Theorem UpdateEventStatus_first_match (event : WebhookEvent) (status : string)
    (st : St) :
  let r := UpdateEventStatus event status st in
  let docs := collection (db st) in
  let docs' := collection (db (snd r)) in
  let now := readings (clk st) (ticks (clk st)) in
  let failed := updateFails (db st) (updateCalls (db st)) in
  fst r = negb failed /\
  (failed = true -> docs' = docs) /\
  (failed = false ->
     (unknownID (WebhookID event) docs /\ docs' = docs) \/
     (exists pre d post,
        docs = (pre ++ d :: post)%list /\
        unknownID (WebhookID event) pre /\
        d !! "webhook_id" = Some (BString (WebhookID event)) /\
        docs' = (pre ++ statusUpdate event status now d :: post)%list /\
        statusUpdate event status now d !! "status" = Some (BString status) /\
        statusUpdate event status now d !! "retry_count"
          = Some (BInt (RetryCount event)) /\
        statusUpdate event status now d !! "updated_at"
          = Some (BDateTime (truncMs now)) /\
        (forall k, k <> "status" -> k <> "retry_count" -> k <> "updated_at" ->
           statusUpdate event status now d !! k = d !! k))).
Proof.
  intros r docs docs' now failed. subst r docs docs' now failed.
  unfold UpdateEventStatus, bind, time_Now, clock_now, UpdateOne. simpl.
  destruct (updateFails (db st) (updateCalls (db st))); simpl.
  - split; [ reflexivity | ]. split; [ reflexivity | discriminate ].
  - split; [ reflexivity | ]. split; [ discriminate | ]. intros _.
    match goal with
    | |- context [updateFirst ?id ?set ?docs] =>
        destruct (updateFirst_first id set docs)
          as [[Hu ->]|(pre & d & post & Hdocs & Hu & Hd & ->)]
    end.
    + left. auto.
    + right. exists pre, d, post. rewrite Hdocs.
      repeat split; try assumption; unfold statusUpdate.
      * by rewrite lookup_insert_ne, lookup_insert_ne, lookup_insert_eq.
      * by rewrite lookup_insert_ne, lookup_insert_eq.
      * by rewrite lookup_insert_eq.
      * intros k H1 H2 H3. by rewrite !lookup_insert_ne.
Qed.

(** X13. [InsertEvent] never alters a stored document: the collection
    afterwards is the old one followed by at most one new document, the
    one built for the event as the driver stores it.  A
    failed insertion adds nothing and is reported, yet the caller's event
    has received the default status all the same; every call counts as one
    driver call. *)
Theorem InsertEvent_appends_only (event : WebhookEvent) (st : St) :
  let r := InsertEvent event st in
  let failed := insertFails (db st) (insertCalls (db st)) in
  fst (fst r) = negb failed /\
  Status (snd (fst r)) <> "" /\
  (Status event <> "" -> snd (fst r) = event) /\
  collection (db (snd r)) =
    (collection (db st) ++
       (if failed then []
        else [stored (insertCalls (db st)) (eventDoc (snd (fst r)))]))%list /\
  insertCalls (db (snd r)) = S (insertCalls (db st)) /\
  updateCalls (db (snd r)) = updateCalls (db st).
Proof.
  intros r failed. subst r failed.
  unfold InsertEvent, bind, ret, InsertOne. simpl.
  destruct (insertFails (db st) (insertCalls (db st))); simpl;
    (split; [ reflexivity | ]);
    (split; [ destruct (String.eqb_spec (Status event) ""); simpl;
              [ discriminate | assumption ] | ]);
    (split; [ intros Hs; destruct (String.eqb_spec (Status event) "");
              [ contradiction | reflexivity ] | ]);
    rewrite ?app_nil_r; auto.
Qed.

End StorageMore.

(** ** Worker: what a delivery does to the collection *)

Module WorkerMore.
Import Worker Storage StorageRead Deliveries StorageFacts StorageMore WorkerFacts.

Section Facts.

Variable decodeEvent : JSON -> WebhookEvent -> option WebhookEvent.

(** A delivery whose insertion and status update both succeed. *)
Lemma handle_stored (w : Worker) (msg : Delivery) (v : JSON) (e0 : WebhookEvent)
    (world : World) :
  Body msg = Some v ->
  decodeEvent v (newEvent (readings (clockOf world) (ticks (clockOf world)))) = Some e0 ->
  insertFails (dbOf world) (insertCalls (dbOf world)) = false ->
  updateFails (dbOf world) (updateCalls (dbOf world)) = false ->
  let es := storedEvent e0 msg in
  let t := readings (clockOf world) (S (S (ticks (clockOf world)))) in
  let r := handle decodeEvent w msg world in
  fst r = Ack /\
  collection (dbOf (snd r)) =
    updateFirst (WebhookID es) (statusUpdate es EventStatusProcessed t)
      (collection (dbOf world)
         ++ [stored (insertCalls (dbOf world)) (eventDoc es)]) /\
  slept (snd r) = slept world.
Proof.
  unfold clockOf, dbOf. intros Hbody Hdec Hins Hupd.
  unfold handle, bind, time_Now, onStore, zoom, Storage.time_Now, clock_now.
  simpl. rewrite Hbody. simpl. rewrite Hdec.
  unfold processEvent, bind, onStore, zoom, Storage.InsertEvent, bind, ret,
    Storage.InsertOne. simpl. rewrite Hins. simpl.
  unfold Storage.UpdateEventStatus, bind, Storage.time_Now, clock_now,
    Storage.UpdateOne. simpl. rewrite Hupd. simpl.
  repeat split.
Qed.

Lemma Status_withHeaders (e : WebhookEvent) (h : option (gmap string JSON)) :
  Status (withHeaders e h) = Status e.
Proof. by destruct h. Qed.

Lemma storedEvent_fields (e0 : WebhookEvent) (msg : Delivery) :
  RetryCount (storedEvent e0 msg) = RetryCount e0 /\
  Status (storedEvent e0 msg)
    = (if (Status e0 =? "")%string then EventStatusPending else Status e0) /\
  WebhookID (storedEvent e0 msg) = WebhookID (withHeaders e0 (Headers msg)).
Proof.
  unfold storedEvent. rewrite Status_withHeaders.
  destruct (Status e0 =? "")%string eqn:E; simpl;
    rewrite ?RetryCount_withHeaders, ?Status_withHeaders; auto.
Qed.

Lemma eventDoc_id (e : WebhookEvent) :
  eventDoc e !! "webhook_id" = Some (BString (WebhookID e)).
Proof. apply (eventDoc_fields e). Qed.

Lemma stored_webhook_id (n : nat) (e : WebhookEvent) :
  stored n (eventDoc e) !! "webhook_id" = Some (BString (WebhookID e)).
Proof. rewrite stored_lookup by done. by rewrite eventDoc_id. Qed.

Lemma stored_status (n : nat) (e : WebhookEvent) :
  stored n (eventDoc e) !! "status" = Some (BString (Status e)).
Proof.
  rewrite stored_lookup by done.
  destruct (eventDoc_fields e) as ((_ & _ & _ & _ & _ & Hs & _) & _).
  by rewrite Hs.
Qed.

(** X14. A delivery that decodes, whose insertion and status update
    succeed and whose [webhook_id] no stored document carries yet, is
    acknowledged and adds exactly one document: the one built for the
    event as the driver stores it (with its [_id], instants to the
    millisecond), marked processed, with the event's retry count and the
    time of the update.  Nothing else in the collection changes and the
    worker does not sleep. *)
Theorem fresh_delivery_processed (w : Worker) (msg : Delivery) (v : JSON)
    (e0 : WebhookEvent) (world : World) :
  Body msg = Some v ->
  decodeEvent v (newEvent (readings (clockOf world) (ticks (clockOf world)))) = Some e0 ->
  insertFails (dbOf world) (insertCalls (dbOf world)) = false ->
  updateFails (dbOf world) (updateCalls (dbOf world)) = false ->
  let es := storedEvent e0 msg in
  unknownID (WebhookID es) (collection (dbOf world)) ->
  let r := handle decodeEvent w msg world in
  fst r = Ack /\
  slept (snd r) = slept world /\
  exists doc,
    collection (dbOf (snd r)) = (collection (dbOf world) ++ [doc])%list /\
    doc !! "status" = Some (BString EventStatusProcessed) /\
    doc !! "retry_count" = Some (BInt (RetryCount e0)) /\
    doc !! "updated_at"
      = Some (BDateTime
                (truncMs (readings (clockOf world) (S (S (ticks (clockOf world))))))) /\
    doc !! "_id" = Some (BObjectID (insertCalls (dbOf world))) /\
    (forall k, k <> "status" -> k <> "retry_count" -> k <> "updated_at" ->
       k <> "_id" -> doc !! k = encode <$> (eventDoc es !! k)).
Proof.
  intros Hbody Hdec Hins Hupd es Hnew r. subst r.
  destruct (handle_stored w msg v e0 world Hbody Hdec Hins Hupd) as (Hack & Hcoll & Hsl).
  split; [ exact Hack | ]. split; [ exact Hsl | ].
  fold es in Hcoll.
  rewrite (updateFirst_known _ _ _ [] _ Hnew (stored_webhook_id _ es)) in Hcoll.
  eexists. split; [ exact Hcoll | ]. unfold statusUpdate.
  destruct (storedEvent_fields e0 msg) as (Hrc & _ & _). fold es in Hrc.
  repeat split.
  - by rewrite lookup_insert_ne, lookup_insert_ne, lookup_insert_eq.
  - by rewrite lookup_insert_ne, lookup_insert_eq, Hrc.
  - by rewrite lookup_insert_eq.
  - rewrite !lookup_insert_ne by done. apply stored_id.
  - intros k H1 H2 H3 H4. rewrite !lookup_insert_ne by done.
    by apply stored_lookup.
Qed.

(** X15. When a stored document already carries the delivery's
    [webhook_id] (a redelivery or a duplicate), the new document is
    appended as the driver stores it, with the status the event had at
    insertion and without [updated_at], and it is the earliest document
    with that id that is marked processed again; the delivery is
    acknowledged all the same. *)
Theorem duplicate_delivery_marks_the_first (w : Worker) (msg : Delivery) (v : JSON)
    (e0 : WebhookEvent) (world : World)
    (pre post : list (gmap string BSON)) (d : gmap string BSON) :
  Body msg = Some v ->
  decodeEvent v (newEvent (readings (clockOf world) (ticks (clockOf world)))) = Some e0 ->
  insertFails (dbOf world) (insertCalls (dbOf world)) = false ->
  updateFails (dbOf world) (updateCalls (dbOf world)) = false ->
  let es := storedEvent e0 msg in
  let t := readings (clockOf world) (S (S (ticks (clockOf world)))) in
  collection (dbOf world) = (pre ++ d :: post)%list ->
  unknownID (WebhookID es) pre ->
  d !! "webhook_id" = Some (BString (WebhookID es)) ->
  let r := handle decodeEvent w msg world in
  let new := stored (insertCalls (dbOf world)) (eventDoc es) in
  fst r = Ack /\
  collection (dbOf (snd r)) =
    (pre ++ statusUpdate es EventStatusProcessed t d :: post ++ [new])%list /\
  new !! "status"
    = Some (BString (if (Status e0 =? "")%string then EventStatusPending
                     else Status e0)) /\
  new !! "updated_at" = None.
Proof.
  intros Hbody Hdec Hins Hupd es t Hdocs Hpre Hd r new. subst r new.
  destruct (handle_stored w msg v e0 world Hbody Hdec Hins Hupd) as (Hack & Hcoll & _).
  split; [ exact Hack | ]. fold es t in Hcoll.
  rewrite Hdocs, <- app_assoc in Hcoll. simpl in Hcoll.
  rewrite (updateFirst_known _ _ _ _ _ Hpre Hd) in Hcoll.
  split; [ exact Hcoll | ].
  destruct (storedEvent_fields e0 msg) as (_ & Hst & _). fold es in Hst.
  split.
  - rewrite <- Hst. apply stored_status.
  - rewrite stored_lookup by done.
    destruct (eventDoc es !! "updated_at") eqn:E; [ | reflexivity ].
    destruct (eventDoc_fields es) as (_ & _ & Hkeys).
    specialize (Hkeys "updated_at" ltac:(by eexists)).
    simpl in Hkeys. repeat destruct Hkeys as [Hkeys|Hkeys]; try discriminate Hkeys.
    contradiction.
Qed.

Lemma notFailed_set (a b : BSON) (status : string) (d : gmap string BSON) :
  status <> EventStatusFailed ->
  notFailed (<["updated_at" := a]> (<["retry_count" := b]>
               (<["status" := BString status]> d))).
Proof.
  intros Hs. unfold notFailed.
  rewrite lookup_insert_ne, lookup_insert_ne, lookup_insert_eq by done.
  congruence.
Qed.

Lemma Forall_updateFirst (P : gmap string BSON -> Prop) (id : string)
    (set : gmap string BSON -> gmap string BSON) (docs : list (gmap string BSON)) :
  (forall d, P (set d)) -> Forall P docs -> Forall P (updateFirst id set docs).
Proof.
  intros Hset Hdocs.
  destruct (updateFirst_first id set docs)
    as [[_ ->]|(pre & d & post & -> & _ & _ & ->)]; [ exact Hdocs | ].
  apply Forall_app in Hdocs as [Hpre Hpost]. apply Forall_cons_iff in Hpost as [_ Hpost].
  apply Forall_app. split; [ exact Hpre | ]. constructor; [ apply Hset | exact Hpost ].
Qed.

(** One turn of the loop of the default worker keeps a collection free
    of failed documents free of them. *)
Lemma handle_never_fails (msg : Delivery) (world : World) :
  keepsUntagged decodeEvent ->
  Forall notFailed (collection (dbOf world)) ->
  Forall notFailed (collection (dbOf (snd (handle decodeEvent NewWorker msg world)))).
Proof.
  unfold dbOf. intros Hkeep Hdocs.
  unfold handle, bind, time_Now, onStore, zoom, Storage.time_Now, clock_now.
  simpl. destruct (Body msg) as [v|]; simpl; [ | exact Hdocs ].
  destruct (decodeEvent v _) as [e0|] eqn:Hdec; simpl; [ | exact Hdocs ].
  apply Hkeep in Hdec as (Hst & Hrc). simpl in Hst, Hrc.
  pose proof (storedEvent_fields e0 msg) as (Hrc' & Hst' & _).
  rewrite Hst in Hst'. simpl in Hst'. rewrite Hrc in Hrc'.
  assert (Hdoc : forall n, notFailed (stored n (eventDoc (storedEvent e0 msg)))).
  { intros n0. unfold notFailed. rewrite stored_status, Hst'. discriminate. }
  unfold processEvent, bind, onStore, zoom, Storage.InsertEvent, bind, ret,
    Storage.InsertOne. simpl.
  fold (storedEvent e0 msg).
  destruct (insertFails _ _); simpl.
  - unfold handleError. rewrite Hrc'. simpl.
    unfold bind, rand_Uint64, onStore, zoom, Storage.UpdateEventStatus, bind,
      Storage.time_Now, clock_now, Storage.UpdateOne, Sleep, modify, ret. simpl.
    destruct (updateFails _ _); simpl; [ exact Hdocs | ].
    apply Forall_updateFirst; [ | exact Hdocs ].
    intros d. apply notFailed_set. discriminate.
  - unfold Storage.UpdateEventStatus, bind, Storage.time_Now, clock_now,
      Storage.UpdateOne. simpl.
    assert (Hall : Forall notFailed
              (collection (Storage.db (store world))
                 ++ [stored (insertCalls (Storage.db (store world)))
                       (eventDoc (storedEvent e0 msg))]))
      by (apply Forall_app; split; [ exact Hdocs | by constructor ]).
    destruct (updateFails _ _); simpl.
    + unfold handleError. rewrite Hrc'. simpl.
      unfold bind, rand_Uint64, onStore, zoom, Storage.UpdateEventStatus, bind,
        Storage.time_Now, clock_now, Storage.UpdateOne, Sleep, modify, ret. simpl.
      destruct (updateFails _ _); simpl; [ exact Hall | ].
      apply Forall_updateFirst; [ | exact Hall ].
      intros d. apply notFailed_set. discriminate.
    + apply Forall_updateFirst; [ | exact Hall ].
      intros d. apply notFailed_set. discriminate.
Qed.

Lemma filter_none (A : Type) (f : A -> bool) (l : list A) :
  Forall (fun x => f x = false) l -> filter (fun x => f x = true) l = [].
Proof.
  induction 1 as [|x l Hx _ IH]; [ reflexivity | ].
  rewrite filter_cons. destruct (decide (f x = true)); [ congruence | exact IH ].
Qed.

(** X16. With the default retry budget the worker never marks a document
    failed: if no stored document is failed, none is after any number of
    turns of the loop, whatever the deliveries and whatever the store's
    failures.  Reading the failed events back then yields the empty list
    for every tenant. *)
Theorem default_worker_never_marks_failed (n : nat) (queue : list Delivery)
    (world : World) :
  keepsUntagged decodeEvent ->
  Forall notFailed (collection (dbOf world)) ->
  let r := consume decodeEvent NewWorker n queue world in
  Forall notFailed (collection (dbOf (snd r))) /\
  forall decodeDoc clientID,
    fst (GetFailedEvents decodeDoc false clientID (store (snd r))) = Some [].
Proof.
  intros Hkeep Hdocs r.
  assert (Hinv : Forall notFailed (collection (dbOf (snd r)))).
  { subst r. revert queue world Hdocs.
    induction n as [|n' IH]; intros queue world Hdocs; simpl; [ exact Hdocs | ].
    destruct queue as [|msg rest]; [ exact Hdocs | ].
    unfold bind, ret.
    pose proof (handle_never_fails msg world Hkeep Hdocs) as Hstep.
    destruct (handle decodeEvent NewWorker msg world) as [s world1]. simpl in Hstep.
    match goal with
    | |- context [consume decodeEvent NewWorker n' ?q world1] =>
        specialize (IH q world1 Hstep);
        destruct (consume decodeEvent NewWorker n' q world1) as [res world2]
    end.
    exact IH. }
  split; [ exact Hinv | ].
  intros decodeDoc clientID. unfold GetFailedEvents. simpl.
  rewrite filter_none; [ reflexivity | ].
  eapply Forall_impl; [ exact Hinv | ].
  intros d Hd. unfold notFailed in Hd. unfold failedOf.
  destruct (d !! "client_id") as [[c| | | | |]|]; try reflexivity.
  destruct (d !! "status") as [[s| | | | |]|]; try reflexivity.
  destruct (String.eqb_spec s EventStatusFailed) as [->|]; [ by contradiction Hd | ].
  apply andb_false_r.
Qed.

(** One delivery stored by a default worker whose status updates fail:
    the document stays, the delivery is requeued. *)
Lemma handle_update_fails (msg : Delivery) (v : JSON) (world : World) :
  keepsUntagged decodeEvent ->
  Body msg = Some v ->
  (forall e, is_Some (decodeEvent v e)) ->
  insertFails (dbOf world) (insertCalls (dbOf world)) = false ->
  (forall k, updateFails (dbOf world) k = true) ->
  exists world' doc,
    handle decodeEvent NewWorker msg world = (Nack true, world') /\
    collection (dbOf world') = (collection (dbOf world) ++ [doc])%list /\
    doc !! "retry_count" = Some (BInt 0) /\
    doc !! "status" = Some (BString EventStatusPending) /\
    insertFails (dbOf world') = insertFails (dbOf world) /\
    updateFails (dbOf world') = updateFails (dbOf world) /\
    insertCalls (dbOf world') = S (insertCalls (dbOf world)).
Proof.
  unfold dbOf. intros Hkeep Hbody Hdec Hins Hupd.
  unfold handle, bind, time_Now, onStore, zoom, Storage.time_Now, clock_now.
  simpl. rewrite Hbody. simpl.
  destruct (Hdec (newEvent (readings (Storage.clk (store world))
                              (ticks (Storage.clk (store world)))))) as [e0 He0].
  rewrite He0. apply Hkeep in He0 as (Hst & Hrc). simpl in Hst, Hrc.
  pose proof (storedEvent_fields e0 msg) as (Hrc' & Hst' & _).
  rewrite Hst in Hst'. simpl in Hst'. rewrite Hrc in Hrc'.
  unfold processEvent, bind, onStore, zoom, Storage.InsertEvent, bind, ret,
    Storage.InsertOne. simpl.
  fold (storedEvent e0 msg). rewrite Hins. simpl.
  unfold Storage.UpdateEventStatus, bind, Storage.time_Now, clock_now,
    Storage.UpdateOne. simpl. rewrite Hupd. simpl.
  unfold handleError. rewrite Hrc'. simpl.
  unfold bind, rand_Uint64, onStore, zoom, Storage.UpdateEventStatus, bind,
    Storage.time_Now, clock_now, Storage.UpdateOne, Sleep, modify, ret. simpl.
  rewrite Hupd. simpl.
  eexists. exists (stored (insertCalls (Storage.db (store world)))
                     (eventDoc (storedEvent e0 msg))).
  split; [ reflexivity | ]. simpl.
  rewrite stored_status, stored_lookup by done.
  destruct (eventDoc_fields (storedEvent e0 msg))
    as ((_ & _ & _ & _ & _ & _ & Hr) & _).
  rewrite Hr, Hst', Hrc'. repeat split.
Qed.

(** X17. When insertions succeed but status updates keep failing, every
    redelivery stores one more copy: after [n] turns of the loop the
    delivery is still queued and has never been acknowledged, and the
    collection holds [n] more documents, all pending with a retry count
    of zero. *)
Theorem failed_updates_pile_up_copies (msg : Delivery) (v : JSON) (n : nat)
    (world : World) :
  keepsUntagged decodeEvent ->
  Body msg = Some v ->
  (forall e, is_Some (decodeEvent v e)) ->
  (forall k, insertFails (dbOf world) k = false) ->
  (forall k, updateFails (dbOf world) k = true) ->
  let r := consume decodeEvent NewWorker n [msg] world in
  fst r = ([msg], repeat (Nack true) n) /\
  exists docs,
    collection (dbOf (snd r)) = (collection (dbOf world) ++ docs)%list /\
    length docs = n /\
    Forall (fun d => d !! "retry_count" = Some (BInt 0) /\
                     d !! "status" = Some (BString EventStatusPending)) docs.
Proof.
  intros Hkeep Hbody Hdec. revert world.
  induction n as [|n IH]; intros world Hins Hupd r; subst r.
  - simpl. split; [ reflexivity | ]. exists []. by rewrite app_nil_r.
  - simpl. unfold bind, ret.
    destruct (handle_update_fails msg v world Hkeep Hbody Hdec (Hins _) Hupd)
      as (world' & doc & Hh & Hc & Hrc & Hst & Hi' & Hu' & _).
    rewrite Hh. simpl.
    assert (Hins' : forall k, insertFails (dbOf world') k = false)
      by (intros k; rewrite Hi'; apply Hins).
    assert (Hupd' : forall k, updateFails (dbOf world') k = true)
      by (intros k; rewrite Hu'; apply Hupd).
    destruct (IH world' Hins' Hupd') as (Hq & docs & Hdocs & Hlen & Hall).
    destruct (consume decodeEvent NewWorker n [msg] world') as [[q ss] w2].
    simpl in *. injection Hq as -> ->.
    split; [ reflexivity | ]. exists (doc :: docs).
    rewrite Hdocs, Hc, <- app_assoc. simpl.
    repeat split; [ by rewrite Hlen | by constructor ].
Qed.

(** X18. A delivery whose body is valid JSON but does not decode into an
    event (a type mismatch) is dropped like a malformed one: nack without
    requeue, no call on the store, no sleep. *)
Theorem undecodable_delivery_dropped (w : Worker) (msg : Delivery) (v : JSON)
    (world : World) :
  Body msg = Some v ->
  decodeEvent v (newEvent (readings (clockOf world) (ticks (clockOf world)))) = None ->
  let r := handle decodeEvent w msg world in
  fst r = Nack false /\ dbOf (snd r) = dbOf world /\ slept (snd r) = slept world.
Proof.
  unfold clockOf, dbOf. intros Hbody Hdec.
  unfold handle, bind, time_Now, onStore, zoom, Storage.time_Now, clock_now.
  simpl. rewrite Hbody. simpl. rewrite Hdec. repeat split.
Qed.

End Facts.

(** X19. The worker takes the three metadata fields from the headers the
    publisher attaches: for an event whose identity, type and tenant are
    all set, the decoded event ends up with exactly these three values,
    whatever the body said, and with every other field as decoded.  The
    tenant, which the JSON body never carries, travels this way only. *)
Theorem headers_carry_metadata (sent decoded : WebhookEvent) :
  WebhookID sent <> "" -> WebhookType sent <> "" ->
  ClientID sent <> "" ->
  withHeaders decoded (Some (JString <$> publishHeaders sent))
    = set_metadata decoded (WebhookID sent) (WebhookType sent)
        (ClientID sent).
Proof.
  intros Hid Hty Hcl. unfold withHeaders, headerString, publishHeaders.
  rewrite !fmap_insert, fmap_empty.
  rewrite lookup_insert_ne, lookup_insert_ne, lookup_insert_eq by discriminate.
  rewrite lookup_insert_ne, lookup_insert_eq by discriminate.
  rewrite lookup_insert_eq. simpl.
  destruct (String.eqb_spec (WebhookID sent) ""); [ contradiction | ].
  destruct (String.eqb_spec (WebhookType sent) ""); [ contradiction | ].
  destruct (String.eqb_spec (ClientID sent) ""); [ contradiction | ].
  reflexivity.
Qed.

Lemma decodeUntagged_keeps : keepsUntagged decodeUntagged.
Proof. intros v e e' H. destruct v; inversion H; subst; auto. Qed.

Lemma fresh_delivery_processed_witness :
  unknownID "" (collection (dbOf healthyWorld)) /\
  fst (handle decodeUntagged NewWorker emptyObject healthyWorld) = Ack.
Proof.
  split; [ apply Forall_nil_2 | ].
  refine (proj1 (fresh_delivery_processed decodeUntagged NewWorker emptyObject
                   (JObject ∅) (newEvent 0) healthyWorld eq_refl eq_refl eq_refl
                   eq_refl _)).
  apply Forall_nil_2.
Defined.

Lemma duplicate_delivery_marks_the_first_witness :
  collection (dbOf seenBefore)
    = [ <["_id" := BObjectID 0]> {[ "webhook_id" := BString "w1" ]} ] /\
  fst (handle decodeUntagged NewWorker tagged seenBefore) = Ack.
Proof.
  split; [ reflexivity | ].
  refine (proj1 (duplicate_delivery_marks_the_first decodeUntagged NewWorker tagged
                   (JObject ∅) (newEvent 0) seenBefore []
                   [] (<["_id" := BObjectID 0]> {[ "webhook_id" := BString "w1" ]})
                   eq_refl eq_refl eq_refl eq_refl eq_refl _ _)).
  - apply Forall_nil_2.
  - vm_compute. reflexivity.
Defined.

Lemma default_worker_never_marks_failed_witness :
  Forall notFailed (collection (dbOf failingStore)) /\
  Forall notFailed
    (collection (dbOf (snd (consume decodeUntagged NewWorker 4 [emptyObject]
                              failingStore)))).
Proof.
  split; [ apply Forall_nil_2 | ].
  refine (proj1 (default_worker_never_marks_failed decodeUntagged 4 [emptyObject]
                   failingStore decodeUntagged_keeps _)).
  apply Forall_nil_2.
Defined.

Lemma failed_updates_pile_up_copies_witness :
  updateFails (dbOf staleStore) 0 = true /\
  fst (consume decodeUntagged NewWorker 3 [emptyObject] staleStore)
    = ([emptyObject], [Nack true; Nack true; Nack true]).
Proof.
  split; [ reflexivity | ].
  refine (proj1 (failed_updates_pile_up_copies decodeUntagged emptyObject (JObject ∅) 3
                   staleStore decodeUntagged_keeps eq_refl _ _ _)).
  - intros e. exists e. reflexivity.
  - intros k. reflexivity.
  - intros k. reflexivity.
Defined.

Lemma undecodable_delivery_dropped_witness :
  Body mistyped = Some (JString "x") /\
  fst (handle decodeUntagged NewWorker mistyped healthyWorld) = Nack false.
Proof.
  split; [ reflexivity | ].
  exact (proj1 (undecodable_delivery_dropped decodeUntagged NewWorker mistyped
                  (JString "x") healthyWorld eq_refl eq_refl)).
Defined.

Lemma headers_carry_metadata_witness :
  let sent := set_metadata blankEvent "w1" "email_event" "t1" in
  withHeaders blankEvent (Some (JString <$> publishHeaders sent)) = sent.
Proof.
  refine (headers_carry_metadata (set_metadata blankEvent "w1" "email_event" "t1")
            blankEvent _ _ _); discriminate.
Defined.

End WorkerMore.

(** ** The registry: parsing and binding *)

Module MappingFacts.

Lemma GetClientForWebhook_lookup (m : Mapping.WebhookMapping) (webhookID : string) :
  Mapping.GetClientForWebhook m webhookID = Mapping.WebhookToClient m !! webhookID.
Proof. reflexivity. Qed.

Lemma table_lookup (m : gmap string string) (webhookID : string) :
  GetClientForWebhook m webhookID = m !! webhookID.
Proof. reflexivity. Qed.

Import Mapping.

Lemma append_empty_r (s : string) : (s ++ "")%string = s.
Proof.
  induction s as [|c s IH]; [ reflexivity | ].
  change (String c (s ++ "")%string = String c s). by f_equal.
Qed.

Lemma splitOn_nonempty (sep : ascii) (s : string) : splitOn sep s <> [].
Proof.
  destruct s as [|c r]; simpl; [ discriminate | ].
  destruct (c =? sep)%char; [ discriminate | ].
  destruct (splitOn sep r); discriminate.
Qed.

(** Splitting undoes joining, for parts that do not hold the separator. *)
Lemma splitOn_join (sep : ascii) (l : list string) :
  l <> [] -> Forall (free sep) l ->
  splitOn sep (joinWith (String sep "") l) = l.
Proof.
  intros Hne Hl. induction Hl as [|x l Hx Hl IH]; [ contradiction | ].
  clear Hne.
  assert (Hrest : forall r,
    splitOn sep (x ++ r) =
      match splitOn sep r with
      | y :: ys => (x ++ y)%string :: ys
      | [] => [x]
      end).
  { clear IH Hl. induction x as [|a x IHx]; intros r.
    - change ("" ++ r)%string with r.
      pose proof (splitOn_nonempty sep r) as Hn.
      by destruct (splitOn sep r).
    - destruct Hx as [Ha Hx].
      change (String a x ++ r)%string with (String a (x ++ r)%string).
      simpl.
      destruct (Ascii.eqb_spec a sep); [ contradiction | ].
      rewrite (IHx Hx).
      pose proof (splitOn_nonempty sep r) as Hn.
      by destruct (splitOn sep r). }
  destruct l as [|y l].
  - simpl. rewrite <- (append_empty_r x) at 1.
    rewrite Hrest. simpl. by rewrite append_empty_r.
  - change (joinWith (String sep "") (x :: y :: l))
      with (x ++ String sep (joinWith (String sep "") (y :: l)))%string.
    rewrite Hrest. cbn [splitOn]. rewrite Ascii.eqb_refl.
    rewrite IH by discriminate. by rewrite append_empty_r.
Qed.

(** Joining undoes splitting, and no part holds the separator. *)
Lemma join_splitOn (sep : ascii) (s : string) :
  joinWith (String sep "") (splitOn sep s) = s /\ Forall (free sep) (splitOn sep s).
Proof.
  induction s as [|c r [IHj IHf]]; simpl.
  - split; [ reflexivity | by repeat constructor ].
  - destruct (Ascii.eqb_spec c sep) as [->|Hne].
    + split; [ | by constructor ].
      pose proof (splitOn_nonempty sep r) as Hn.
      destruct (splitOn sep r) as [|y ys]; [ contradiction | ].
      change (joinWith (String sep "") ("" :: y :: ys))
        with (String sep (joinWith (String sep "") (y :: ys))).
      by rewrite IHj.
    + pose proof (splitOn_nonempty sep r) as Hn.
      destruct (splitOn sep r) as [|y ys]; [ contradiction | ].
      apply Forall_cons_iff in IHf as [Hy Hys].
      split; [ | constructor; [ by split | exact Hys ] ].
      destruct ys as [|z zs]; simpl in *; by rewrite <- IHj.
Qed.

Lemma free_app (c : ascii) (a b : string) :
  free c (a ++ b) <-> free c a /\ free c b.
Proof.
  induction a as [|x a IH].
  - change ("" ++ b)%string with b. simpl. tauto.
  - change (String x a ++ b)%string with (String x (a ++ b)%string).
    simpl. rewrite IH. tauto.
Qed.

Lemma parseConfig_entry (client key : string) :
  free ":" client -> free ":" key ->
  parseConfig (client ++ ":" ++ key) = Some (client, key).
Proof.
  intros Hc Hk. unfold parseConfig.
  change (client ++ ":" ++ key)%string with (joinWith ":" [client; key]).
  rewrite splitOn_join; [ reflexivity | discriminate | by repeat constructor ].
Qed.

Lemma parseConfig_inv (config client key : string) :
  parseConfig config = Some (client, key) ->
  config = (client ++ ":" ++ key)%string /\ free ":" client /\ free ":" key.
Proof.
  unfold parseConfig. intros H. destruct (join_splitOn ":" config) as [Hj Hf].
  destruct (splitOn ":" config) as [|a [|b [|c l]]]; try discriminate H.
  injection H as -> ->.
  apply Forall_cons_iff in Hf as [Ha Hf]. apply Forall_cons_iff in Hf as [Hb _].
  split; [ by rewrite <- Hj | auto ].
Qed.

(** X20. An entry of the packed string is taken exactly when it has the
    form [client:key] with one colon: the parts are returned as they
    stand (no trimming), and an entry without a colon or with a second
    one (a key that holds a colon) is skipped. *)
Theorem parseConfig_exactly_one_colon (config client key : string) :
  parseConfig config = Some (client, key)
  <-> config = (client ++ ":" ++ key)%string /\ free ":" client /\ free ":" key.
Proof.
  split; [ apply parseConfig_inv | ].
  intros (-> & Hc & Hk). by apply parseConfig_entry.
Qed.

Lemma entry_free_comma (e : string * string) :
  plain (fst e) -> plain (snd e) -> free "," (entry e).
Proof.
  intros [Hc _] [Hk _]. unfold entry. apply free_app. split; [ exact Hc | ].
  change (":" ++ snd e)%string with (String ":" (snd e)). simpl. split; [ | exact Hk ].
  discriminate.
Qed.

Lemma entries_nonempty (e : string * string) (cs : list (string * string)) :
  joinWith "," (map entry (e :: cs)) <> "".
Proof.
  assert (He : forall r, (entry e ++ r)%string <> "").
  { intros r. unfold entry. destruct (fst e); cbv; discriminate. }
  destruct cs as [|e' cs].
  - simpl. rewrite <- (append_empty_r (entry e)). apply He.
  - change (joinWith "," (map entry (e :: e' :: cs)))
      with (entry e ++ "," ++ joinWith "," (map entry (e' :: cs)))%string.
    apply He.
Qed.

Lemma fold_addClient_entries (cs : list (string * string)) (acc : gmap string string) :
  Forall (fun e => plain (fst e) /\ plain (snd e)) cs ->
  fold_left addClient (map entry cs) acc = list_to_map (reverse cs) ∪ acc.
Proof.
  intros Hcs. revert acc. induction Hcs as [|e cs [[_ Hc] [_ Hk]] _ IH]; intros acc.
  - simpl. by rewrite (left_id_L ∅ (∪)).
  - cbn [map fold_left]. rewrite IH. unfold addClient, entry.
    rewrite (parseConfig_entry _ _ Hc Hk).
    rewrite reverse_cons, list_to_map_app. cbn [list_to_map foldr].
    rewrite <- (assoc_L (∪)). f_equal.
    by rewrite <- insert_union_l, (left_id_L ∅ (∪)).
Qed.

Lemma fold_left_preserves {A B : Type} (P : A -> Prop) (f : A -> B -> A) :
  (forall a b, P a -> P (f a b)) -> forall l a, P a -> P (fold_left f l a).
Proof. intros Hf l. induction l as [|b l IH]; simpl; auto. Qed.

Lemma addClient_keeps (c : string) (acc : gmap string string) (config : string) :
  is_Some (acc !! c) -> is_Some (addClient acc config !! c).
Proof.
  intros H. unfold addClient. destruct (parseConfig config) as [[c' k]|]; [ | exact H ].
  apply lookup_insert_is_Some. destruct (decide (c' = c)); auto.
Qed.

Section Binding.

Variable fetchWebhooksForClient : string -> string -> option (list MailerCloudWebhook).

Lemma bindWebhooks_lookup (c : string) (ws : list MailerCloudWebhook)
    (acc : gmap string string) (k : string) :
  fold_left (bindWebhooks c) ws acc !! k
    = if bool_decide (k ∈ map ID ws) then Some c else acc !! k.
Proof.
  revert acc. induction ws as [|w ws IH]; intros acc; cbn [map fold_left].
  - rewrite bool_decide_eq_false_2; [ reflexivity | by apply not_elem_of_nil ].
  - rewrite IH. unfold bindWebhooks.
    destruct (decide (k ∈ map ID ws)) as [Hin|Hin].
    + rewrite !bool_decide_eq_true_2; [ reflexivity | by right | exact Hin ].
    + rewrite (bool_decide_eq_false_2 _ Hin).
      destruct (decide (ID w = k)) as [<-|Hne].
      * rewrite lookup_insert_eq. rewrite bool_decide_eq_true_2; [ reflexivity | by left ].
      * rewrite lookup_insert_ne by exact Hne.
        rewrite bool_decide_eq_false_2; [ reflexivity | ].
        intros [Heq|Hin']%elem_of_cons; [ by subst | contradiction ].
Qed.

Lemma addWebhooks_lookup (acc : gmap string string) (client : string * string)
    (k : string) :
  addWebhooks fetchWebhooksForClient acc client !! k
    = if lists fetchWebhooksForClient k client then Some (fst client) else acc !! k.
Proof.
  unfold addWebhooks, lists.
  destruct (fetchWebhooksForClient (fst client) (snd client)) as [ws|]; [ | reflexivity ].
  apply bindWebhooks_lookup.
Qed.

Lemma fold_addWebhooks_lookup (l : list (string * string)) (acc : gmap string string)
    (k : string) :
  fold_left (addWebhooks fetchWebhooksForClient) l acc !! k
    = match find (lists fetchWebhooksForClient k) (reverse l) with
      | Some client => Some (fst client)
      | None => acc !! k
      end.
Proof.
  induction l as [|client l IH] using rev_ind; [ reflexivity | ].
  rewrite fold_left_app. cbn [fold_left]. rewrite addWebhooks_lookup.
  rewrite reverse_app. cbn [reverse rev_append app find].
  destruct (lists fetchWebhooksForClient k client); [ reflexivity | exact IH ].
Qed.

Lemma addWebhooks_keeps (k : string) (acc : gmap string string)
    (client : string * string) :
  is_Some (acc !! k) -> is_Some (addWebhooks fetchWebhooksForClient acc client !! k).
Proof.
  intros H. rewrite addWebhooks_lookup.
  destruct (lists fetchWebhooksForClient k client); [ by eexists | exact H ].
Qed.

Lemma find_reverse_some {A : Type} (p : A -> bool) (l : list A) (a : A) :
  find p (reverse l) = Some a -> a ∈ l /\ p a = true.
Proof.
  intros [Ha Hp]%find_some. split; [ | exact Hp ].
  apply elem_of_reverse. by apply list_elem_of_In.
Qed.

Lemma find_reverse_none {A : Type} (p : A -> bool) (l : list A) (a : A) :
  find p (reverse l) = None -> a ∈ l -> p a = false.
Proof.
  intros Hn Ha. apply (find_none _ _ Hn).
  apply list_elem_of_In. by apply elem_of_reverse.
Qed.

Lemma last_lister_perm (k : string) (l1 l2 : list (string * string)) :
  l1 ≡ₚ l2 ->
  (forall cl1 cl2, cl1 ∈ l1 -> cl2 ∈ l1 ->
     lists fetchWebhooksForClient k cl1 = true ->
     lists fetchWebhooksForClient k cl2 = true -> fst cl1 = fst cl2) ->
  fst <$> find (lists fetchWebhooksForClient k) (reverse l1)
    = fst <$> find (lists fetchWebhooksForClient k) (reverse l2).
Proof.
  intros Hp Hu.
  destruct (find _ (reverse l1)) as [a|] eqn:E1;
    destruct (find _ (reverse l2)) as [b|] eqn:E2; cbn [fmap option_fmap option_map].
  - apply find_reverse_some in E1 as [Ha Hla]. apply find_reverse_some in E2 as [Hb Hlb].
    rewrite <- Hp in Hb. f_equal. by apply Hu.
  - apply find_reverse_some in E1 as [Ha Hla]. rewrite Hp in Ha.
    rewrite (find_reverse_none _ _ _ E2 Ha) in Hla. discriminate.
  - apply find_reverse_some in E2 as [Hb Hlb]. rewrite <- Hp in Hb.
    rewrite (find_reverse_none _ _ _ E1 Hb) in Hlb. discriminate.
  - reflexivity.
Qed.

Variable range : gmap string string -> list (string * string).

(** X21. Packing and loading round-trip: a non-empty list of clients
    whose names and keys hold neither separator, packed as
    [name:key,name:key,...], is loaded without error; the clients found
    are exactly those of the list, a name given twice keeping its last
    key, and they are laid over the keys already in the table.  With
    distinct names every listed client gets its key back. *)
Theorem load_keys_round_trip (cs : list (string * string)) (m : WebhookMapping) :
  cs <> [] ->
  Forall (fun e => plain (fst e) /\ plain (snd e)) cs ->
  let r := LoadMappingFromEnvironment fetchWebhooksForClient range
             (joinWith "," (map entry cs)) m in
  fst r = true /\
  configured (joinWith "," (map entry cs)) = list_to_map (reverse cs) /\
  ClientToAPIKey (snd r) = list_to_map (reverse cs) ∪ ClientToAPIKey m /\
  (NoDup (map fst cs) ->
   forall c k, (c, k) ∈ cs -> GetAPIKeyForClient (snd r) c = Some k).
Proof.
  intros Hne Hcs r.
  assert (Hsplit : splitOn "," (joinWith "," (map entry cs)) = map entry cs).
  { apply splitOn_join; [ by destruct cs | ].
    apply Forall_map. eapply Forall_impl; [ exact Hcs | ].
    intros e [Hc Hk]. by apply entry_free_comma. }
  assert (Henv : (joinWith "," (map entry cs) =? "")%string = false).
  { destruct cs as [|e cs]; [ contradiction | ].
    apply String.eqb_neq, entries_nonempty. }
  assert (Hconf : configured (joinWith "," (map entry cs)) = list_to_map (reverse cs)).
  { unfold configured. rewrite Hsplit, (fold_addClient_entries _ _ Hcs).
    by rewrite (right_id_L ∅ (∪)). }
  subst r. unfold LoadMappingFromEnvironment. rewrite Henv. cbn [fst snd ClientToAPIKey].
  rewrite Hsplit, (fold_addClient_entries _ _ Hcs).
  split; [ reflexivity | ]. split; [ exact Hconf | ]. split; [ reflexivity | ].
  intros Hnd c k Hin. unfold GetAPIKeyForClient. cbn [ClientToAPIKey].
  apply lookup_union_Some_l. apply elem_of_list_to_map_1.
  - by rewrite fmap_reverse, reverse_Permutation.
  - by apply elem_of_reverse.
Qed.

(** X22. Loading fails exactly when the environment value is empty, and
    then the tables are left as they were.  A successful load only adds
    or rebinds: a webhook or a client known before is still known after,
    whatever the ESP answers, so a webhook deleted at the ESP keeps its
    binding. *)
Theorem load_never_forgets (apiKeysEnv : string) (m : WebhookMapping) :
  let r := LoadMappingFromEnvironment fetchWebhooksForClient range apiKeysEnv m in
  (fst r = false <-> apiKeysEnv = "") /\
  (fst r = false -> snd r = m) /\
  (forall id, is_Some (GetClientForWebhook m id) ->
              is_Some (GetClientForWebhook (snd r) id)) /\
  (forall c, is_Some (GetAPIKeyForClient m c) ->
             is_Some (GetAPIKeyForClient (snd r) c)).
Proof.
  intros r. subst r. unfold LoadMappingFromEnvironment.
  destruct (String.eqb_spec apiKeysEnv "") as [->|Hne]; cbn [fst snd].
  - repeat split; auto.
  - split; [ split; [ discriminate | contradiction ] | ].
    split; [ discriminate | ].
    unfold GetAPIKeyForClient. cbn [WebhookToClient ClientToAPIKey]. split.
    + intros id. rewrite !GetClientForWebhook_lookup. cbn [WebhookToClient].
      apply (fold_left_preserves (fun acc => is_Some (acc !! id))).
      intros acc cl. apply addWebhooks_keeps.
    + intros c. apply (fold_left_preserves (fun acc => is_Some (acc !! c))).
      intros acc cfg. apply addClient_keeps.
Qed.

(** X23. After a load a webhook belongs to the last client, in the order
    the runtime ranges over the clients, whose fetch succeeded and listed
    it; a webhook no client lists keeps the binding it had. *)
Theorem load_binds_last_lister (apiKeysEnv : string) (m : WebhookMapping)
    (webhookID : string) :
  apiKeysEnv <> "" ->
  let r := LoadMappingFromEnvironment fetchWebhooksForClient range apiKeysEnv m in
  GetClientForWebhook (snd r) webhookID
    = match find (lists fetchWebhooksForClient webhookID)
              (reverse (range (configured apiKeysEnv))) with
      | Some client => Some (fst client)
      | None => GetClientForWebhook m webhookID
      end.
Proof.
  intros Hne r. subst r. unfold LoadMappingFromEnvironment.
  destruct (String.eqb_spec apiKeysEnv ""); [ contradiction | ].
  rewrite !GetClientForWebhook_lookup. cbn [snd WebhookToClient].
  apply fold_addWebhooks_lookup.
Qed.

(** X26. Start-up and attribution together: a request that carries a
    [Webhook-Id] header is attributed to the last configured client whose
    fetch listed that id, and to the header value itself when no client
    lists it or when the environment variable is not set. *)
Theorem attribution_after_load (apiKeysEnv : string) (c : Context)
    (data : gmap string JSON) :
  let webhookID := GetHeader c "Webhook-Id" in
  webhookID <> "" ->
  extractClientID (setupMapper fetchWebhooksForClient range apiKeysEnv) c data
    = if (apiKeysEnv =? "")%string then webhookID
      else match find (lists fetchWebhooksForClient webhookID)
                   (reverse (range (configured apiKeysEnv))) with
           | Some client => fst client
           | None => webhookID
           end.
Proof.
  intros webhookID Hne. unfold extractClientID, setupMapper. fold webhookID.
  destruct (String.eqb_spec webhookID ""); [ contradiction | ]. cbn [negb].
  rewrite table_lookup. unfold LoadMappingFromEnvironment, NewWebhookMappingService.
  destruct (apiKeysEnv =? "")%string; cbn [snd WebhookToClient].
  - by rewrite lookup_empty.
  - rewrite fold_addWebhooks_lookup, lookup_empty.
    by destruct (find _ _).
Qed.

End Binding.

(** X24. The order in which the runtime ranges over the clients does not
    matter as long as no webhook is listed for two different clients:
    two iteration orders of the same clients then load the same tables. *)
Theorem binding_order_irrelevant
    (fetchWebhooksForClient : string -> string -> option (list MailerCloudWebhook))
    (range1 range2 : gmap string string -> list (string * string))
    (apiKeysEnv : string) (m : WebhookMapping) :
  range1 (configured apiKeysEnv) ≡ₚ range2 (configured apiKeysEnv) ->
  (forall cl1 cl2 id,
     cl1 ∈ range1 (configured apiKeysEnv) -> cl2 ∈ range1 (configured apiKeysEnv) ->
     lists fetchWebhooksForClient id cl1 = true ->
     lists fetchWebhooksForClient id cl2 = true -> fst cl1 = fst cl2) ->
  LoadMappingFromEnvironment fetchWebhooksForClient range1 apiKeysEnv m
    = LoadMappingFromEnvironment fetchWebhooksForClient range2 apiKeysEnv m.
Proof.
  intros Hp Hu. unfold LoadMappingFromEnvironment.
  destruct (apiKeysEnv =? "")%string; [ reflexivity | ].
  f_equal. f_equal. apply map_eq. intros k.
  rewrite !fold_addWebhooks_lookup.
  pose proof (last_lister_perm fetchWebhooksForClient k _ _ Hp
                (fun cl1 cl2 => Hu cl1 cl2 k)) as Hl.
  destruct (find _ (reverse (range1 _))); destruct (find _ (reverse (range2 _)));
    cbn [fmap option_fmap option_map] in Hl; congruence.
Qed.

Lemma sampleClients_plain :
  Forall (fun e => plain (fst e) /\ plain (snd e)) sampleClients.
Proof.
  repeat constructor; simpl; discriminate.
Qed.

Lemma parseConfig_exactly_one_colon_witness :
  free ":" "t1" /\ parseConfig "t1:k1" = Some ("t1", "k1").
Proof.
  assert (H1 : free ":" "t1") by (simpl; repeat split; discriminate).
  assert (H2 : free ":" "k1") by (simpl; repeat split; discriminate).
  split; [ exact H1 | ].
  exact (proj2 (parseConfig_exactly_one_colon "t1:k1" "t1" "k1")
           (conj eq_refl (conj H1 H2))).
Defined.

Lemma load_keys_round_trip_witness :
  sampleClients <> [] /\
  fst (LoadMappingFromEnvironment esp map_to_list "t1:k1,t2:k2"
         NewWebhookMappingService) = true.
Proof.
  assert (Hne : sampleClients <> []) by discriminate.
  split; [ exact Hne | ].
  exact (proj1 (load_keys_round_trip esp map_to_list sampleClients
                  NewWebhookMappingService Hne sampleClients_plain)).
Defined.

Lemma load_binds_last_lister_witness :
  "t1:k1,t2:k2" <> "" /\
  GetClientForWebhook
    (snd (LoadMappingFromEnvironment esp map_to_list "t1:k1,t2:k2"
            NewWebhookMappingService)) "abc123" = Some "t1".
Proof.
  assert (Hne : "t1:k1,t2:k2" <> "") by discriminate.
  split; [ exact Hne | ].
  etransitivity;
    [ exact (load_binds_last_lister esp map_to_list "t1:k1,t2:k2"
               NewWebhookMappingService "abc123" Hne)
    | vm_compute; reflexivity ].
Defined.

Lemma binding_order_irrelevant_witness :
  LoadMappingFromEnvironment esp map_to_list "t1:k1,t2:k2" NewWebhookMappingService
    = LoadMappingFromEnvironment esp (fun m => reverse (map_to_list m)) "t1:k1,t2:k2"
        NewWebhookMappingService.
Proof.
  apply (binding_order_irrelevant esp map_to_list (fun m => reverse (map_to_list m))).
  - symmetry. apply reverse_Permutation.
  - intros cl1 cl2 id _ _ H1 H2. unfold lists, esp in H1, H2.
    destruct (String.eqb_spec (fst cl1) "t1") as [E1|]; [ | discriminate H1 ].
    destruct (String.eqb_spec (fst cl2) "t1") as [E2|]; [ | discriminate H2 ].
    by rewrite E1, E2.
Defined.

Lemma attribution_after_load_witness :
  GetHeader vendorRequest "Webhook-Id" <> "" /\
  extractClientID (setupMapper esp map_to_list "t1:k1,t2:k2") vendorRequest deliveredBody
    = "t1".
Proof.
  assert (Hid : GetHeader vendorRequest "Webhook-Id" <> "")
    by (vm_compute; discriminate).
  split; [ exact Hid | ].
  etransitivity;
    [ exact (attribution_after_load esp map_to_list "t1:k1,t2:k2" vendorRequest
               deliveredBody Hid)
    | vm_compute; reflexivity ].
Defined.

End MappingFacts.

